(** * Urban education explorer: the conversational turn pipeline

  A shallow embedding of [src/utils/assistantClient.ts] (the classes
  [AssistantClient] and [GraphRAGClient]) and of the handlers of
  [src/components/Chat.tsx] (submit, cancel, "Try again"), with the
  properties of the specification stated over it.

  Conventions.
  - A JavaScript string is modelled by the [string] of its UTF-8 bytes;
    the text is taken to be well formed (no lone surrogate).  The
    separators and patterns the code looks for are ASCII, and an
    occurrence of an encoded pattern in encoded text is an occurrence of
    the pattern in the text, so [split], [includes] and [replace] work on
    the bytes; [trim] strips every white-space code point of ECMAScript
    by its encoding.
  - JavaScript numbers that hold times, counters and delays are exact
    integers and are modelled by [Z]; similarities are IEEE binary64
    values and are modelled by the primitive [float].
  - Asynchronous methods are functions in a small state-and-exception
    monad over the client object and an explicit world (clock, call
    counter, event log); the remote provider is an oracle.
  - The chat component is a transition system on its React state: a call
    of [handleSubmit] runs to its first suspension and is resumed by the
    wake-ups of its stream and of its retrieval promise; the clicks of
    the user are steps of their own. *)

From Stdlib Require Import ZArith List String Ascii Bool Lia PeanoNat.
From Stdlib Require Import Floats.
From Stdlib Require Import Sorting.Permutation Sorting.Sorted.
Import ListNotations.

Local Open Scope string_scope.
Local Open Scope Z_scope.
Local Open Scope list_scope.

(** ** JavaScript string helpers *)

Module JsString.

(** [s.split(c)] for a one-character separator [c]. *)
Fixpoint split (c : ascii) (s : string) : list string :=
  match s with
  | EmptyString => [EmptyString]
  | String a s' =>
      if Ascii.eqb a c then EmptyString :: split c s'
      else match split c s' with
           | w :: ws => String a w :: ws
           | [] => [String a EmptyString]
           end
  end.

(** [words.join(sep)]. *)
Fixpoint join (sep : string) (ws : list string) : string :=
  match ws with
  | [] => EmptyString
  | [w] => w
  | w :: ws' => w ++ sep ++ join sep ws'
  end.

(** [s.includes(sub)]. *)
Definition includes (sub s : string) : bool :=
  match String.index 0 sub s with
  | Some _ => true
  | None => false
  end.

(** [s.replace(sub, by)] with a string pattern: only the first
    occurrence is replaced. *)
Definition replace (sub by_ s : string) : string :=
  match String.index 0 sub s with
  | Some i =>
      substring 0 i s ++ by_
        ++ substring (i + String.length sub)
                     (String.length s - (i + String.length sub)) s
  | None => s
  end.

(** The concatenation of a list of strings, in order. *)
Definition concatAll (l : list string) : string := fold_right append EmptyString l.

(** [Boolean(s)] on a string: the empty string is the only falsy one. *)
Definition truthy (s : string) : bool :=
  match s with
  | EmptyString => false
  | String _ _ => true
  end.

(** [String.fromCodePoint(cp)] for a code point of the Basic
    Multilingual Plane or above: its UTF-8 bytes. *)
Definition utf8 (cp : N) : list ascii :=
  (if cp <? 128 then [ascii_of_N cp]
   else if cp <? 2048 then
     [ascii_of_N (192 + cp / 64); ascii_of_N (128 + cp mod 64)]
   else if cp <? 65536 then
     [ascii_of_N (224 + cp / 4096); ascii_of_N (128 + (cp / 64) mod 64);
      ascii_of_N (128 + cp mod 64)]
   else
     [ascii_of_N (240 + cp / 262144); ascii_of_N (128 + (cp / 4096) mod 64);
      ascii_of_N (128 + (cp / 64) mod 64); ascii_of_N (128 + cp mod 64)])%N.

(** [String.fromCodePoint(...codePoints)]. *)
Definition fromCodePoints (codePoints : list N) : string :=
  string_of_list_ascii (flat_map utf8 codePoints).

(** The code points [trim] strips: the WhiteSpace of ECMAScript (TAB, VT,
    FF, ZWNBSP U+FEFF and the Unicode category Zs: U+0020, U+00A0, U+1680,
    U+2000 to U+200A, U+202F, U+205F, U+3000) and its LineTerminator (LF,
    CR, U+2028, U+2029). *)
Definition whiteSpaceCodePoints : list N :=
  [ 9; 10; 11; 12; 13; 32; 160; 5760;
    8192; 8193; 8194; 8195; 8196; 8197; 8198; 8199; 8200; 8201; 8202;
    8232; 8233; 8239; 8287; 12288; 65279 ]%N.

(** [l] without the bytes [p] it starts with, if it starts with them. *)
Fixpoint stripPrefix (p l : list ascii) : option (list ascii) :=
  match p, l with
  | [], _ => Some l
  | a :: p', b :: l' => if Ascii.eqb a b then stripPrefix p' l' else None
  | _ :: _, [] => None
  end.

(** [l] without the first of the byte sequences [ps] it starts with. *)
Fixpoint stripAny (ps : list (list ascii)) (l : list ascii) : option (list ascii) :=
  match ps with
  | [] => None
  | p :: ps' =>
      match stripPrefix p l with
      | Some rest => Some rest
      | None => stripAny ps' l
      end
  end.

(** [l] without the sequences of [ps] it starts with, one after the
    other; one unit of fuel per sequence removed. *)
Fixpoint stripAll (ps : list (list ascii)) (fuel : nat) (l : list ascii) : list ascii :=
  match fuel with
  | O => l
  | S fuel' =>
      match stripAny ps l with
      | Some rest => stripAll ps fuel' rest
      | None => l
      end
  end.

(** [s.trimStart()] and [s.trimEnd()] on the bytes.  At the end of
    well-formed text a suffix that is the encoding of a code point is the
    last character, so the end is stripped like the start, on the reversed
    bytes. *)
Definition trimStart (l : list ascii) : list ascii :=
  stripAll (map utf8 whiteSpaceCodePoints) (List.length l) l.

Definition trimEnd (l : list ascii) : list ascii :=
  rev (stripAll (map (fun cp => rev (utf8 cp)) whiteSpaceCodePoints)
                (List.length l) (rev l)).

(** [s.trim()]. *)
Definition trim (s : string) : string :=
  string_of_list_ascii (trimEnd (trimStart (list_ascii_of_string s))).

End JsString.

(** ** JavaScript number helpers *)

Module JsNumber.

(** [Number.isNaN(x)]: NaN is the only number that differs from
    itself. *)
Definition isNaN (x : float) : bool := negb (PrimFloat.eqb x x).

End JsNumber.

(** ** JavaScript array helpers *)

Module JsArray.

(** [array.slice(i, j)] for [0 <= i <= j]. *)
Definition slice {A : Type} (i j : nat) (l : list A) : list A :=
  firstn (j - i) (skipn i l).

(** [array.push(x)]. *)
Definition push {A : Type} (l : list A) (x : A) : list A := l ++ [x].

(** How [Array.prototype.sort] reads the number [v] returned by the
    comparison function: negative, positive, or neither (zero and [NaN]
    both count as "equal"). *)
Definition sign (v : float) : comparison :=
  if PrimFloat.ltb v PrimFloat.zero then Lt
  else if PrimFloat.ltb PrimFloat.zero v then Gt
  else Eq.

Section Sort.

Context {A : Type}.
Variable compareFn : A -> A -> float.

(** [x] enters an already sorted array in front of the first element it
    does not have to follow. *)
Fixpoint insert (x : A) (l : list A) : list A :=
  match l with
  | [] => [x]
  | y :: l' =>
      match sign (compareFn x y) with
      | Gt => y :: insert x l'
      | _ => x :: l
      end
  end.

(** [array.sort(compareFn)].  ECMAScript requires the sort to be stable
    and fixes its result for a comparison function that is consistent on
    the array ([consistentOn] below); a stable insertion sort is that
    result.  For a comparison function that is not consistent (in
    [queryFaissIndex], when a similarity is NaN) the order is left to the
    engine, and only what holds of any sort that returns a permutation of
    the array may be concluded from this definition; every property below
    that depends on the order assumes the consistency, or the absence of
    NaN from which it follows. *)
Definition sort (l : list A) : list A := fold_right insert [] l.

(** [x] does not have to come after [y]: [compareFn(x, y)] is not
    positive. *)
Definition precedes (x y : A) : Prop := sign (compareFn x y) <> Gt.

(** [x] and [y] compare as equal. *)
Definition tied (x y : A) : bool :=
  match sign (compareFn x y) with
  | Eq => true
  | _ => false
  end.

(** ECMAScript's condition for [sort] to have a defined result: the
    comparison function is consistent on the elements of the array.
    Swapping the arguments swaps the sign, and not having to come after
    is transitive. *)
Definition consistentOn (l : list A) : Prop :=
  (forall x y : A, In x l -> In y l ->
     sign (compareFn x y) = CompOpp (sign (compareFn y x)))
  /\ (forall x y z : A, In x l -> In y l -> In z l ->
       precedes x y -> precedes y z -> precedes x z).

End Sort.

(** [array.slice(0, k)] for an integer [k]: a negative [k] counts from
    the end. *)
Definition sliceTo {A : Type} (k : Z) (l : list A) : list A :=
  let len := Z.of_nat (List.length l) in
  let final := if k <? 0 then Z.max (len + k) 0 else Z.min k len in
  firstn (Z.to_nat final) l.

(** The consecutive groups of [n] elements of [l], in order, the last
    one shorter when [n] does not divide the length. *)
Fixpoint groupsOf {A : Type} (fuel n : nat) (l : list A) : list (list A) :=
  match fuel, l with
  | S fuel', _ :: _ => firstn n l :: groupsOf fuel' n (skipn n l)
  | _, _ => []
  end.

Definition groups {A : Type} (n : nat) (l : list A) : list (list A) :=
  groupsOf (List.length l) n l.

End JsArray.

(** ** Exceptions and the execution monad *)

(** A thrown JavaScript value: an [Error] instance with its [name] and
    [message], or any other value (for which [instanceof Error] is
    false). *)
Inductive Thrown : Type :=
| ErrorObj (name message : string)
| NotAnError (value : string).

(** [new Error(message)]: the [name] of a plain [Error] is "Error". *)
Definition newError (message : string) : Thrown := ErrorObj "Error" message.

(** How a computation ends.  [OutOfFuel] is the model's own outcome for a
    loop cut short by its fuel; the totality lemmas below show that it
    never arises. *)
Inductive Completion (A : Type) : Type :=
| Normal (a : A)
| Throw (e : Thrown)
| OutOfFuel.

Arguments Normal {A} a.
Arguments Throw {A} e.
Arguments OutOfFuel {A}.

(** Which [setTimeout] of the source a sleep comes from. *)
Inductive SleepSite : Type := Backoff | PollInterval | Pacing.

(** What the outside observes of a run of the client. *)
Inductive Event : Type :=
| EvThreadsCreate
| EvMessagesCreate (threadId content : string)
| EvRunsCreate (threadId assistantId : string)
| EvRunsRetrieve (threadId runId : string)
| EvMessagesList (threadId : string)
| EvSleep (site : SleepSite) (ms : Z)
| EvYield (fragment : string).

(** The fields of an [AssistantClient] object that change or are read
    ([assistantId], [thread], [retryCount]) together with the world it
    runs in: the clock in milliseconds ([Date.now()]), the number of
    provider calls made so far, and the log of events. *)
Record State : Type := mkState {
  assistantId : string;
  thread : option string;
  retryCount : Z;
  clock : Z;
  calls : nat;
  log : list Event
}.

Definition M (A : Type) : Type := State -> Completion A * State.

Definition ret {A : Type} (a : A) : M A := fun s => (Normal a, s).

Definition bind {A B : Type} (m : M A) (k : A -> M B) : M B :=
  fun s =>
    match m s with
    | (Normal a, s') => k a s'
    | (Throw e, s') => (Throw e, s')
    | (OutOfFuel, s') => (OutOfFuel, s')
    end.

Definition throw {A : Type} (e : Thrown) : M A := fun s => (Throw e, s).

Definition outOfFuel {A : Type} : M A := fun s => (OutOfFuel, s).

(** [try { m } catch (error) { handler error }]. *)
Definition tryCatch {A : Type} (m : M A) (handler : Thrown -> M A) : M A :=
  fun s =>
    match m s with
    | (Throw e, s') => handler e s'
    | r => r
    end.

Declare Scope monad_scope.
Delimit Scope monad_scope with monad.
Notation "x <- m ;; k" := (bind m (fun x => k))
  (at level 61, m at next level, right associativity) : monad_scope.
Notation "m ;; k" := (bind m (fun _ => k))
  (at level 61, right associativity) : monad_scope.
Local Open Scope monad_scope.

Definition get {A : Type} (f : State -> A) : M A := fun s => (Normal (f s), s).

Definition emit (e : Event) : M unit :=
  fun s => (Normal tt,
            mkState (assistantId s) (thread s) (retryCount s)
                    (clock s) (calls s) (JsArray.push (log s) e)).

(** [await new Promise(resolve => setTimeout(resolve, ms))]. *)
Definition sleep (site : SleepSite) (ms : Z) : M unit :=
  fun s => (Normal tt,
            mkState (assistantId s) (thread s) (retryCount s)
                    (clock s + ms) (calls s) (JsArray.push (log s) (EvSleep site ms))).

Definition setRetryCount (n : Z) : M unit :=
  fun s => (Normal tt,
            mkState (assistantId s) (thread s) n (clock s) (calls s) (log s)).

Definition setThread (t : option string) : M unit :=
  fun s => (Normal tt,
            mkState (assistantId s) t (retryCount s) (clock s) (calls s) (log s)).

(** ** The remote provider and the cancellation signal *)

(** [runs.retrieve] answers with a run object; [last_error] is [null] or
    carries a message. *)
Record Run : Type := mkRun {
  status : string;
  last_error : option string
}.

Record MessageContent : Type := mkContent {
  content_type : string;
  text_value : string
}.

Record ThreadMessage : Type := mkThreadMessage {
  msg_role : string;
  msg_content : list MessageContent
}.

(** The provider is an oracle: the reply to the [n]-th call made to it
    (counted from 0 over all calls), either a rejection with the thrown
    value or the resolved value, and the time the call takes.  The calls
    that are handed the signal ([messages.create], [runs.create]) are
    rejected by the SDK when it is aborted; that, too, is the oracle's
    to say. *)
Record Provider : Type := mkProvider {
  threadsCreate : nat -> Thrown + string;
  messagesCreate : nat -> Thrown + unit;
  runsCreate : nat -> Thrown + string;
  runsRetrieve : nat -> Thrown + Run;
  messagesList : nat -> Thrown + list ThreadMessage;
  latency : nat -> N
}.

(** An [AbortSignal]: the time at which its controller aborts it, if it
    ever does. *)
Record AbortSignal : Type := mkSignal {
  abortedAt : option Z
}.

Definition aborted (sg : AbortSignal) (t : Z) : bool :=
  match abortedAt sg with
  | Some a => a <=? t
  | None => false
  end.

(** [signal?.aborted], read at the current time. *)
Definition signalAborted (signal : option AbortSignal) : M bool :=
  fun s =>
    (Normal match signal with
            | Some sg => aborted sg (clock s)
            | None => false
            end, s).

(** One awaited provider call: it is logged, takes its latency, and
    resolves or rejects as the oracle says. *)
Definition call {A : Type} (e : Event) (lat : nat -> N) (reply : nat -> Thrown + A) : M A :=
  fun s =>
    let n := calls s in
    let s' := mkState (assistantId s) (thread s) (retryCount s)
                      (clock s + Z.of_N (lat n)) (S n) (JsArray.push (log s) e) in
    match reply n with
    | inl err => (Throw err, s')
    | inr a => (Normal a, s')
    end.

(** ** The conversation client ([AssistantClient]) *)

Module AssistantClient.

Import JsString.

Definition maxRetries : Z := 3.
Definition baseDelay : Z := 2000.
Definition timeout : Z := 30000.

(** [new AssistantClient(apiKey, assistantId)], in a world whose clock
    reads [t0]. *)
Definition construct (assistantId : string) (t0 : Z) : State :=
  mkState assistantId None 0 t0 O [].

Section Methods.

Variable provider : Provider.

(** [createThread()]. *)
Definition createThread : M string :=
  tryCatch
    (created <- call EvThreadsCreate (latency provider) (threadsCreate provider) ;;
     setThread (Some created) ;;
     ret created)
    (fun _ => throw (newError "Failed to create chat thread")).

(** [exponentialBackoff()]. *)
Definition exponentialBackoff : M unit :=
  count <- get retryCount ;;
  let delay := baseDelay * 2 ^ count in
  sleep Backoff delay ;;
  count <- get retryCount ;;
  setRetryCount (count + 1).

(** [resetRetryCount()]. *)
Definition resetRetryCount : M unit := setRetryCount 0.

(** [runStatus.last_error?.message || 'Run failed']. *)
Definition failureMessage (runStatus : Run) : string :=
  match last_error runStatus with
  | Some message => if truthy message then message else "Run failed"
  | None => "Run failed"
  end.

(** The [while (true)] loop of [waitForRunCompletion]; one unit of fuel
    per iteration. *)
Fixpoint pollLoop (fuel : nat) (threadId runId : string)
    (signal : option AbortSignal) (startTime : Z) : M unit :=
  match fuel with
  | O => outOfFuel
  | S fuel' =>
      isAborted <- signalAborted signal ;;
      if isAborted : bool then throw (newError "Request cancelled") else
      now <- get clock ;;
      if now - startTime >? timeout then throw (newError "Request timed out") else
      runStatus <- call (EvRunsRetrieve threadId runId)
                        (latency provider) (runsRetrieve provider) ;;
      if status runStatus =? "completed" then ret tt
      else if status runStatus =? "failed" then throw (newError (failureMessage runStatus))
      else if status runStatus =? "cancelled" then throw (newError "Run was cancelled")
      else if status runStatus =? "expired" then throw (newError "Run expired")
      else if status runStatus =? "requires_action" then throw (newError "Run requires action")
      else sleep PollInterval 1000 ;;
           pollLoop fuel' threadId runId signal startTime
  end%string.

(** Every iteration that goes round sleeps a second, so the deadline
    stops the loop within this many iterations. *)
Definition pollFuel : nat := 32.

(** [waitForRunCompletion(threadId, runId, signal)]. *)
Definition waitForRunCompletion (threadId runId : string)
    (signal : option AbortSignal) : M unit :=
  startTime <- get clock ;;
  pollLoop pollFuel threadId runId signal startTime.

Definition chunkSize : nat := 10.

(** The [for (let i = 0; i < words.length; i += chunkSize)] loop. *)
Fixpoint chunkLoop (fuel : nat) (words : list string) (i : nat) : M unit :=
  match fuel with
  | O => outOfFuel
  | S fuel' =>
      if (i <? List.length words)%nat then
        let chunk := join " " (JsArray.slice i (i + chunkSize) words) in
        emit (EvYield (chunk ++ " ")) ;;
        sleep Pacing 50 ;;
        chunkLoop fuel' words (i + chunkSize)
      else ret tt
  end.

(** The body of the [try] block of [streamMessage]. *)
Definition tryBody (content : string) (signal : option AbortSignal)
    (threadId : string) : M unit :=
  call (EvMessagesCreate threadId content)
       (latency provider) (messagesCreate provider) ;;
  assistant <- get assistantId ;;
  runId <- call (EvRunsCreate threadId assistant)
                (latency provider) (runsCreate provider) ;;
  waitForRunCompletion threadId runId signal ;;
  messages <- call (EvMessagesList threadId)
                   (latency provider) (messagesList provider) ;;
  match messages with
  | [] => throw (newError "No assistant response found")
  | lastMessage :: _ =>
      if negb (msg_role lastMessage =? "assistant")%string
      then throw (newError "No assistant response found")
      else
        match msg_content lastMessage with
        | [] => throw (ErrorObj "TypeError"
                         "Cannot read properties of undefined (reading 'type')")
        | messageContent :: _ =>
            if negb (content_type messageContent =? "text")%string
            then throw (newError "Unexpected message content type")
            else
              let text := text_value messageContent in
              let words := split " " text in
              chunkLoop (S (List.length words)) words 0
        end
  end.

(** [streamMessage(content, signal)], run by a consumer that takes every
    fragment; the fragments are the [EvYield] events of the log.  One
    unit of fuel per level of the recursive [yield*]. *)
Fixpoint streamMessageRec (fuel : nat) (content : string)
    (signal : option AbortSignal) : M unit :=
  this_thread <- get thread ;;
  match this_thread with
  | None => throw (newError "Thread not initialized")
  | Some threadId =>
      tryCatch (tryBody content signal threadId)
        (fun error =>
           match error with
           | ErrorObj name _ =>
               if (name =? "AbortError")%string
               then throw (newError "Request cancelled")
               else
                 count <- get retryCount ;;
                 (if count <? maxRetries
                  then
                    exponentialBackoff ;;
                    match fuel with
                    | O => outOfFuel
                    | S fuel' => streamMessageRec fuel' content signal
                    end
                  else
                    resetRetryCount ;;
                    throw error) ;;
                 throw (newError "An unexpected error occurred")
           | NotAnError _ => throw (newError "An unexpected error occurred")
           end)
  end.

(** The recursion is entered only below [maxRetries], after the counter
    has been incremented. *)
Definition streamFuel (s : State) : nat := Z.to_nat (maxRetries - retryCount s).

Definition streamMessage (content : string) (signal : option AbortSignal) : M unit :=
  fun s => streamMessageRec (streamFuel s) content signal s.

End Methods.

(** Observations on a log. *)

(** The fragments yielded, in order. *)
Definition fragments (l : list Event) : list string :=
  flat_map (fun e => match e with EvYield f => [f] | _ => [] end) l.

(** The delays of the backoff sleeps, in order. *)
Definition backoffDelays (l : list Event) : list Z :=
  flat_map (fun e => match e with EvSleep Backoff ms => [ms] | _ => [] end) l.

(** The number of attempts: each one starts by appending the user's
    message. *)
Definition attempts (l : list Event) : nat :=
  List.length (filter (fun e => match e with EvMessagesCreate _ _ => true | _ => false end) l).

(** What the consumer sees of one group of words: the fragment, then the
    pacing sleep. *)
Definition groupEvents (g : list string) : list Event :=
  [EvYield (JsString.join " " g ++ " "); EvSleep Pacing 50].

(** An error the [catch] block of [streamMessage] takes to its retry
    branch: an [Error] whose name is not "AbortError". *)
Definition retryable (e : Thrown) : bool :=
  match e with
  | ErrorObj name _ => negb (name =? "AbortError")%string
  | NotAnError _ => false
  end.

(** An event that neither starts an attempt nor is a backoff sleep. *)
Definition quietEvent (e : Event) : bool :=
  match e with
  | EvMessagesCreate _ _ | EvSleep Backoff _ => false
  | _ => true
  end.

(** A computation that leaves the fields of the client alone and adds
    only quiet events to the log. *)
Definition quiet {A : Type} (m : M A) : Prop :=
  forall s : State,
    assistantId (snd (m s)) = assistantId s
    /\ thread (snd (m s)) = thread s
    /\ retryCount (snd (m s)) = retryCount s
    /\ exists t : list Event,
         log (snd (m s)) = (log s ++ t)%list /\ forallb quietEvent t = true.

(** A computation that the fuel never cuts short. *)
Definition total {A : Type} (m : M A) : Prop :=
  forall s : State, fst (m s) <> OutOfFuel.

End AssistantClient.

(** ** The knowledge-graph client ([GraphRAGClient]) *)

Module GraphRAG.

Import JsString.

(** The object's fields.  [nodeEmbeddings] is a JavaScript object used
    as a map; it is kept as the list of its entries in the order
    [Object.entries] enumerates them. *)
Record GraphRAGClient : Type := mkClient {
  nodeEmbeddings : list (string * list float);
  nodeNames : list string;
  initialized : bool
}.

(** [new GraphRAGClient(apiKey)]. *)
Definition construct : GraphRAGClient := mkClient [] [] false.

(** What [fetch] resolves to: the [ok] flag, the status text, and what
    reading the body ([json()] or [text()]) gives. *)
Record Response (A : Type) : Type := mkResponse {
  ok : bool;
  statusText : string;
  body : Thrown + A
}.

Arguments mkResponse {A} ok statusText body.
Arguments ok {A} r.
Arguments statusText {A} r.
Arguments body {A} r.

(** [loadData()], given what the two fetches do.  The [catch] block logs
    and rethrows, so it is the identity on outcomes. *)
Definition loadData
    (fetchEmbeddings : Thrown + Response (list (string * list float)))
    (fetchNames : Thrown + Response string)
    (this : GraphRAGClient) : Completion unit * GraphRAGClient :=
  match fetchEmbeddings with
  | inl e => (Throw e, this)
  | inr nodeEmbeddingsResponse =>
      if negb (ok nodeEmbeddingsResponse)
      then (Throw (newError ("Failed to load node embeddings: "
                               ++ statusText nodeEmbeddingsResponse)), this)
      else
        match body nodeEmbeddingsResponse with
        | inl e => (Throw e, this)
        | inr embeddings =>
            let this := mkClient embeddings (nodeNames this) (initialized this) in
            match fetchNames with
            | inl e => (Throw e, this)
            | inr nodeNamesResponse =>
                if negb (ok nodeNamesResponse)
                then (Throw (newError ("Failed to load node names: "
                                         ++ statusText nodeNamesResponse)), this)
                else
                  match body nodeNamesResponse with
                  | inl e => (Throw e, this)
                  | inr nodeNamesText =>
                      let names := filter truthy (split "010" nodeNamesText) in
                      (Normal tt, mkClient (nodeEmbeddings this) names true)
                  end
            end
        end
  end.

(** [ensureInitialized()]. *)
Definition ensureInitialized
    (fetchEmbeddings : Thrown + Response (list (string * list float)))
    (fetchNames : Thrown + Response string)
    (this : GraphRAGClient) : Completion unit * GraphRAGClient :=
  if negb (initialized this)
  then loadData fetchEmbeddings fetchNames this
  else (Normal tt, this).

(** [cosineSimilarity(a, b)] on IEEE binary64 numbers.  [b[i]] is
    [undefined] past the end of [b], and a product with [undefined] is
    [NaN]. *)
Definition dotProduct (a b : list float) : float :=
  fst (fold_left
         (fun (acc : float * nat) (val : float) =>
            let '(sum, i) := acc in
            (PrimFloat.add sum (PrimFloat.mul val (nth i b PrimFloat.nan)), S i))
         a (PrimFloat.zero, O)).

Definition norm (a : list float) : float :=
  PrimFloat.sqrt
    (fold_left (fun sum val => PrimFloat.add sum (PrimFloat.mul val val))
               a PrimFloat.zero).

Definition cosineSimilarity (a b : list float) : float :=
  PrimFloat.div (dotProduct a b) (PrimFloat.mul (norm a) (norm b)).

(** An element of the result of [queryFaissIndex]. *)
Record Scored : Type := mkScored {
  name : string;
  similarity : float
}.

(** [(a, b) => b.similarity - a.similarity]. *)
Definition bySimilarity (a b : Scored) : float :=
  PrimFloat.sub (similarity b) (similarity a).

(** The array [similarities] of [queryFaissIndex]: one scored entry per
    entry of [nodeEmbeddings], in the order of [Object.entries]. *)
Definition similarities (this : GraphRAGClient)
    (queryEmbedding : list float) : list Scored :=
  map (fun entry : string * list float =>
         let '(name, embedding) := entry in
         mkScored name (cosineSimilarity queryEmbedding embedding))
      (nodeEmbeddings this).

(** [queryFaissIndex(queryEmbedding, k)]. *)
Definition queryFaissIndex (this : GraphRAGClient)
    (queryEmbedding : list float) (k : Z) : list Scored :=
  JsArray.sliceTo k
    (JsArray.sort bySimilarity (similarities this queryEmbedding)).

(** [interface Neo4jRelationship]. *)
Record Neo4jRelationship : Type := mkRelationship {
  rel_type : string;
  rel_target : string
}.

(** [fetchRelationships(nodeName)]: the generated sample relationships. *)
Definition fetchRelationships (nodeName : string) : list Neo4jRelationship :=
  let relationships : list Neo4jRelationship := [] in
  let relationships := JsArray.push relationships (mkRelationship "EXISTS_IN" "directory") in
  let relationships := JsArray.push relationships (mkRelationship "PROVIDED_BY" "ipeds") in
  if includes "_id" nodeName
  then JsArray.push relationships (mkRelationship "IDENTIFIES" (replace "_id" "" nodeName))
  else relationships.

End GraphRAG.

(** ** The chat component ([Chat.tsx]) *)

Module Chat.

Import JsString.

Inductive Status : Type := typing | sending | delivered | failed.

(** An element of [knowledgeGraph.relevantNodes]. *)
Record NodeDetails : Type := mkNode {
  node_name : string;
  node_label : string;
  node_format : string;
  node_type : string;
  node_similarity : float;
  node_relationships : list GraphRAG.Neo4jRelationship
}.

(** [interface Message].  An [id] is the decimal string of a number of
    milliseconds; it is kept as that number. *)
Record Message : Type := mkMessage {
  id : Z;
  content : string;
  isBot : bool;
  timestamp : Z;
  status : Status;
  knowledgeGraph : option (list NodeDetails)
}.

(** Where the one [handleSubmit] in flight is suspended. *)
Inductive Task : Type :=
| Idle
| Streaming (botId : Z)
| AwaitingKnowledgeGraph (botId : Z).

(** The state of [knowledgeGraphPromise]. *)
Inductive PromiseState : Type :=
| Pending
| Fulfilled (relevantNodes : list NodeDetails)
| Rejected (e : Thrown).

(** The component: its React state, and the call of [handleSubmit]
    started last with the retrieval promise it holds.  The wake-ups
    followed are those of that call. *)
Record Component : Type := mkComponent {
  messages : list Message;
  input : string;
  isLoading : bool;
  error : option string;
  task : Task;
  knowledgeGraphPromise : PromiseState
}.

(** [setMessages(prev => prev.map(msg => msg.id === id ? f msg : msg))]. *)
Definition updateMessage (target : Z) (f : Message -> Message)
    (prev : list Message) : list Message :=
  map (fun msg => if id msg =? target then f msg else msg) prev.

(** [handleSubmit], up to its first suspension in the [for await] loop.
    [now1] and [now2] are the two readings of [Date.now()], [clientsReady]
    says whether both client refs are set. *)
Definition handleSubmit (now1 now2 : Z) (clientsReady : bool)
    (c : Component) : Component :=
  if (negb (truthy (trim (input c))) || isLoading c || negb clientsReady)%bool
  then c
  else
    let userMessage := mkMessage now1 (trim (input c)) false now1 sending None in
    let botMessage := mkMessage (now2 + 1) "" true now2 typing None in
    let msgs := (messages c ++ [userMessage; botMessage])%list in
    let msgs :=
      updateMessage (id userMessage)
        (fun msg => mkMessage (id msg) (content msg) (isBot msg) (timestamp msg)
                              delivered (knowledgeGraph msg)) msgs in
    mkComponent msgs "" true None (Streaming (id botMessage)) Pending.

(** The tail of the [try] block: the retrieval result is attached and the
    turn delivered; then the [finally] block. *)
Definition deliver (botId : Z) (relevantNodes : list NodeDetails)
    (promise : PromiseState) (c : Component) : Component :=
  mkComponent
    (updateMessage botId
       (fun msg => mkMessage (id msg) (content msg) (isBot msg) (timestamp msg)
                             delivered (Some relevantNodes))
       (messages c))
    (input c) false (error c) Idle promise.

(** [err instanceof Error && err.message === 'Request cancelled']. *)
Definition isCancellation (err : Thrown) : bool :=
  match err with
  | ErrorObj _ message => (message =? "Request cancelled")%string
  | NotAnError _ => false
  end.

(** The [catch] block, then the [finally] block. *)
Definition handleError (botId : Z) (err : Thrown)
    (promise : PromiseState) (c : Component) : Component :=
  let errorMessage :=
    match err with
    | ErrorObj _ message => message
    | NotAnError _ => "Failed to send message"
    end in
  let msgs :=
    if isCancellation err
    then filter (fun msg => negb (id msg =? botId)) (messages c)
    else updateMessage botId
           (fun msg => mkMessage (id msg) "Failed to generate response" (isBot msg)
                                 (timestamp msg) failed (knowledgeGraph msg))
           (messages c) in
  mkComponent msgs (input c) false (Some errorMessage) Idle promise.

(** What happens while a call of [handleSubmit] is suspended: the
    generator of [streamMessage] yields a fragment, returns or throws, the
    retrieval promise settles, or the user clicks the cancel button
    ([cancelRequest]). *)
Inductive Wake : Type :=
| Chunk (chunk : string)
| StreamReturn
| StreamThrow (e : Thrown)
| RetrievalResolve (relevantNodes : list NodeDetails)
| RetrievalReject (e : Thrown)
| CancelRequest.

(** [if (error)]: with an error set and not empty, the component renders
    the error panel and nothing else. *)
Definition errorShown (c : Component) : bool :=
  match error c with
  | Some message => truthy message
  | None => false
  end.

(** [cancelRequest()]: [abortControllerRef.current?.abort()] and
    [setIsLoading(false)].  The abort is seen by the generator of
    [streamMessage] through its signal; what the generator does next
    comes as its own wake-up. *)
Definition cancelRequest (c : Component) : Component :=
  mkComponent (messages c) (input c) false (error c) (task c)
              (knowledgeGraphPromise c).

Definition setPromise (p : PromiseState) (c : Component) : Component :=
  mkComponent (messages c) (input c) (isLoading c) (error c) (task c) p.

Definition setTask (t : Task) (c : Component) : Component :=
  mkComponent (messages c) (input c) (isLoading c) (error c) t
              (knowledgeGraphPromise c).

(** One step of the component.  A promise settles once; an event that
    nothing waits for changes nothing; the cancel button is there to be
    clicked only while [isLoading] holds and the error panel is not
    shown. *)
Definition react (c : Component) (w : Wake) : Component :=
  match w, task c with
  | CancelRequest, _ =>
      if (isLoading c && negb (errorShown c))%bool then cancelRequest c else c
  | Chunk chunk, Streaming botId =>
      mkComponent
        (updateMessage botId
           (fun msg => mkMessage (id msg) (content msg ++ chunk) (isBot msg)
                                 (timestamp msg) (status msg) (knowledgeGraph msg))
           (messages c))
        (input c) (isLoading c) (error c) (task c) (knowledgeGraphPromise c)
  | StreamReturn, Streaming botId =>
      match knowledgeGraphPromise c with
      | Pending => setTask (AwaitingKnowledgeGraph botId) c
      | Fulfilled relevantNodes =>
          deliver botId relevantNodes (knowledgeGraphPromise c) c
      | Rejected e => handleError botId e (knowledgeGraphPromise c) c
      end
  | StreamThrow e, Streaming botId =>
      handleError botId e (knowledgeGraphPromise c) c
  | RetrievalResolve relevantNodes, t =>
      match knowledgeGraphPromise c with
      | Pending =>
          match t with
          | AwaitingKnowledgeGraph botId =>
              deliver botId relevantNodes (Fulfilled relevantNodes) c
          | _ => setPromise (Fulfilled relevantNodes) c
          end
      | _ => c
      end
  | RetrievalReject e, t =>
      match knowledgeGraphPromise c with
      | Pending =>
          match t with
          | AwaitingKnowledgeGraph botId => handleError botId e (Rejected e) c
          | _ => setPromise (Rejected e) c
          end
      | _ => c
      end
  | _, _ => c
  end.

(** The component after a sequence of wake-ups. *)
Definition run (ws : list Wake) (c : Component) : Component :=
  fold_left react ws c.

(** The wake-ups a finished run of [streamMessage] causes: one per
    fragment, then the return or the throw. *)
Definition streamWakes (outcome : Completion unit * State) : list Wake :=
  (map Chunk (AssistantClient.fragments (log (snd outcome)))
   ++ match fst outcome with
      | Normal _ => [StreamReturn]
      | Throw e => [StreamThrow e]
      | OutOfFuel => []
      end)%list.

(** The message of the assistant turn, if it is in the list. *)
Definition botMessage (botId : Z) (c : Component) : option Message :=
  find (fun msg => id msg =? botId) (messages c).

(** The assistant turn carries no annotation. *)
Definition unannotated (botId : Z) (c : Component) : Prop :=
  forall msg, botMessage botId c = Some msg -> knowledgeGraph msg = None.

(** The stream has been consumed to its end without an error: the first
    wake-up that ends the stream is its return. *)
Fixpoint streamCompleted (ws : list Wake) : bool :=
  match ws with
  | [] => false
  | StreamReturn :: _ => true
  | StreamThrow _ :: _ => false
  | _ :: ws' => streamCompleted ws'
  end.

(** A wake-up that does not end the stream. *)
Definition streamGoesOn (w : Wake) : bool :=
  match w with
  | StreamReturn | StreamThrow _ => false
  | _ => true
  end.

(** A component in which nothing has been sent yet, with "hi" typed in. *)
Definition fresh : Component := mkComponent [] "hi" false None Idle Pending.

End Chat.

(** ** Scripted providers and artifacts for the concrete runs *)

Module Demo.

Definition networkError : Thrown := ErrorObj "Error" "Connection error.".

Definition abortError : Thrown := ErrorObj "AbortError" "The user aborted a request.".

Definition assistantReply (text : string) : list ThreadMessage :=
  [mkThreadMessage "assistant" [mkContent "text" text]].

(** A client whose thread has been created, at time 0. *)
Definition ready : State := mkState "asst_1" (Some "thread_1") 0 0 O [].

(** Every call succeeds at once and the run is still in progress. *)
Definition inProgress : Provider :=
  mkProvider (fun _ => inr "thread_1") (fun _ => inr tt) (fun _ => inr "run_1")
    (fun _ => inr (mkRun "in_progress" None))
    (fun _ => inr (assistantReply "hello"))
    (fun _ => 0%N).

(** Every call takes 100 ms; the run is in progress when first polled;
    once the signal is aborted, a call made with it is rejected with an
    [AbortError]. *)
Definition abortedDuringPoll : Provider :=
  mkProvider (fun _ => inr "thread_1")
    (fun n => match n with O => inr tt | _ => inl abortError end)
    (fun _ => inr "run_1")
    (fun _ => inr (mkRun "in_progress" None))
    (fun _ => inr (assistantReply "hello"))
    (fun _ => 100%N).

(** The first two calls are refused by the network, every later call
    succeeds, the run is completed when first polled. *)
Definition failsTwice : Provider :=
  mkProvider (fun _ => inr "thread_1")
    (fun n => match n with 0%nat | 1%nat => inl networkError | _ => inr tt end)
    (fun _ => inr "run_1")
    (fun _ => inr (mkRun "completed" None))
    (fun _ => inr (assistantReply "hello world"))
    (fun _ => 100%N).

(** The network refuses every attempt to append the user's message but
    the third call made; every other call succeeds. *)
Definition recoversOnce : Provider :=
  mkProvider (fun _ => inr "thread_1")
    (fun n => match n with 2%nat => inr tt | _ => inl networkError end)
    (fun _ => inr "run_1")
    (fun _ => inr (mkRun "completed" None))
    (fun _ => inr (assistantReply "hello world"))
    (fun _ => 100%N).

(** Every call takes 100 ms; the run is queued when first polled, in
    progress at the second poll and completed from the third on. *)
Definition completesAtThirdPoll : Provider :=
  mkProvider (fun _ => inr "thread_1") (fun _ => inr tt) (fun _ => inr "run_1")
    (fun n => match n with
              | 0%nat => inr (mkRun "queued" None)
              | 1%nat => inr (mkRun "in_progress" None)
              | _ => inr (mkRun "completed" None)
              end)
    (fun _ => inr (assistantReply "hello"))
    (fun _ => 100%N).

(** The poll takes 40 seconds to answer that the run is completed. *)
Definition slowPoll : Provider :=
  mkProvider (fun _ => inr "thread_1") (fun _ => inr tt) (fun _ => inr "run_1")
    (fun _ => inr (mkRun "completed" None))
    (fun _ => inr (assistantReply "hello"))
    (fun _ => 40000%N).

(** Every call succeeds and takes 100 ms, the run is completed when
    first polled, and the answer has twelve words. *)
Definition succeeds : Provider :=
  mkProvider (fun _ => inr "thread_1") (fun _ => inr tt) (fun _ => inr "run_1")
    (fun _ => inr (mkRun "completed" None))
    (fun _ => inr (assistantReply "a b c d e f g h i j k l"))
    (fun _ => 100%N).

(** Every attempt gets as far as the poll, which finds the run in the
    state [requires_action]. *)
Definition requiresAction : Provider :=
  mkProvider (fun _ => inr "thread_1") (fun _ => inr tt) (fun _ => inr "run_1")
    (fun _ => inr (mkRun "requires_action" None))
    (fun _ => inr (assistantReply "hello"))
    (fun _ => 100%N).

(** The knowledge-graph artifacts.  The embeddings artifact lists
    "yield_rate" before "admit_rate", with the same vector; the names
    artifact lists them the other way round. *)
Definition embeddingsArtifact : list (string * list float) :=
  [ ("yield_rate", [1%float; 0%float]);
    ("admit_rate", [1%float; 0%float]);
    ("unitid", [0%float; 1%float]) ].

Definition newline : string := String "010" EmptyString.

Definition namesArtifact : string :=
  ("admit_rate" ++ newline ++ "yield_rate" ++ newline ++ "unitid" ++ newline)%string.

Definition loaded : GraphRAG.GraphRAGClient :=
  GraphRAG.mkClient embeddingsArtifact ["admit_rate"; "yield_rate"; "unitid"] true.

(** Artifacts that do not fit each other: the names differ and the two
    vectors have different dimensions. *)
Definition mismatchedEmbeddings : list (string * list float) :=
  [ ("admit_rate", [1%float; 0%float]);
    ("yield_rate", [1%float; 0%float; 0%float]) ].

Definition mismatchedNames : string := ("unitid" ++ newline ++ "zip")%string.

Definition okResponse {A : Type} (payload : A) : Thrown + GraphRAG.Response A :=
  inr (GraphRAG.mkResponse true "OK" (inr payload)).

End Demo.

(** ** The rest of the knowledge-graph client *)

Module KnowledgeGraph.

Import JsString GraphRAG.

(** [nodeName.replace(/_/g, ' ')]: every underscore becomes a space. *)
Fixpoint underscoresToSpaces (s : string) : string :=
  match s with
  | EmptyString => EmptyString
  | String c s' =>
      String (if Ascii.eqb c "_" then " "%char else c) (underscoresToSpaces s')
  end.

(** [inferFormat(nodeName)]. *)
Definition inferFormat (nodeName : string) : string :=
  if (includes "pct" nodeName || includes "rate" nodeName)%bool then "percentage"
  else if (includes "date" nodeName || includes "year" nodeName)%bool then "date"
  else if includes "id" nodeName then "identifier"
  else if includes "name" nodeName then "string"
  else if (includes "count" nodeName || includes "number" nodeName)%bool then "numeric"
  else "string".

(** [Partial<NodeDetails>]: every field may be missing. *)
Record PartialNodeDetails : Type := mkPartial {
  p_name : option string;
  p_label : option string;
  p_format : option string;
  p_type : option string;
  p_similarity : option float;
  p_relationships : option (list Neo4jRelationship)
}.

(** [fetchNodeDetails(nodeName)]: the generated sample details. *)
Definition fetchNodeDetails (nodeName : string) : PartialNodeDetails :=
  mkPartial (Some nodeName)
            (Some (underscoresToSpaces nodeName ++ " field")%string)
            (Some (inferFormat nodeName))
            (Some "Variable")
            None None.

(** [field || fallback] on an optional string: a missing field and the
    empty string both give the fallback. *)
Definition orElse (field : option string) (fallback : string) : string :=
  match field with
  | Some value => if truthy value then value else fallback
  | None => fallback
  end.

(** [formatNodeDetails(nodeName, similarity, details, relationships)]. *)
Definition formatNodeDetails (nodeName : string) (similarity : float)
    (details : PartialNodeDetails) (relationships : list Neo4jRelationship)
    : Chat.NodeDetails :=
  Chat.mkNode nodeName
              (orElse (p_label details) nodeName)
              (orElse (p_format details) "string")
              (orElse (p_type details) "Variable")
              similarity relationships.

(** The provider calls of [queryKnowledgeGraph].  The system prompt of
    the completion call is a fixed text around
    [JSON.stringify(relevantNodes)]; the call is recorded with the nodes
    themselves. *)
Inductive Call : Type :=
| EmbeddingsCreate (input model : string)
| ChatCompletionsCreate (model : string) (relevantNodes : list Chat.NodeDetails)
                        (userContent : string).

(** What [queryKnowledgeGraph] resolves to. *)
Record QueryResult : Type := mkResult {
  relevantNodes : list Chat.NodeDetails;
  enhancedResponse : string
}.

(** The node built for one entry of the ranking: the body of the
    callback given to [similarNodes.map]. *)
Definition describe (entry : Scored) : Chat.NodeDetails :=
  let details := fetchNodeDetails (name entry) in
  let relationships := fetchRelationships (name entry) in
  formatNodeDetails (name entry) (similarity entry) details relationships.

(** [queryKnowledgeGraph(query)], given what the two provider calls do:
    [embeddingsCreate] is the rejection or the array [response.data] of
    embeddings, [chatCompletionsCreate] the rejection or the array of the
    [message.content] of the choices ([null] is [None]), which may depend
    on the nodes sent.  The result comes with the calls made, in order.
    The [catch] block logs and rethrows. *)
Definition queryKnowledgeGraph (this : GraphRAGClient) (query : string)
    (embeddingsCreate : Thrown + list (list float))
    (chatCompletionsCreate : list Chat.NodeDetails -> Thrown + list (option string))
    : Completion QueryResult * list Call :=
  let calls := [EmbeddingsCreate query "text-embedding-ada-002"] in
  match embeddingsCreate with
  | inl e => (Throw e, calls)
  | inr [] =>
      (Throw (ErrorObj "TypeError"
                "Cannot read properties of undefined (reading 'embedding')"), calls)
  | inr (queryEmbedding :: _) =>
      let similarNodes := queryFaissIndex this queryEmbedding 5 in
      let nodes := map describe similarNodes in
      let calls := JsArray.push calls (ChatCompletionsCreate "gpt-4o-mini" nodes query) in
      match chatCompletionsCreate nodes with
      | inl e => (Throw e, calls)
      | inr [] =>
          (Throw (ErrorObj "TypeError"
                    "Cannot read properties of undefined (reading 'message')"), calls)
      | inr (content :: _) =>
          (Normal (mkResult nodes (orElse content "No response generated")), calls)
      end
  end.

End KnowledgeGraph.

(** ** The rest of the chat component *)

Module ChatActions.

Import JsString Chat.

(** [messages.findIndex(m => m.id === messageId)]; [None] is [-1]. *)
Fixpoint findIndex (messageId : Z) (l : list Message) : option nat :=
  match l with
  | [] => None
  | msg :: l' =>
      if id msg =? messageId then Some O
      else match findIndex messageId l' with
           | Some i => Some (S i)
           | None => None
           end
  end.

(** [messages[index - 1]]: [undefined] at index [-1]. *)
Definition before (index : nat) (l : list Message) : option Message :=
  match index with
  | O => None
  | S i => nth_error l i
  end.

(** [handleSubmit] as a closure of the render [rendered] calls it: it
    reads [input] and [isLoading] as the render saw them, and its state
    updaters are applied to the current state [c]. *)
Definition handleSubmitFrom (rendered : Component) (now1 now2 : Z)
    (clientsReady : bool) (c : Component) : Component :=
  if (negb (truthy (trim (input rendered))) || isLoading rendered
      || negb clientsReady)%bool
  then c
  else
    let userMessage :=
      mkMessage now1 (trim (input rendered)) false now1 sending None in
    let botMessage := mkMessage (now2 + 1) "" true now2 typing None in
    let msgs := messages c ++ [userMessage; botMessage] in
    let msgs :=
      updateMessage (id userMessage)
        (fun msg => mkMessage (id msg) (content msg) (isBot msg) (timestamp msg)
                              delivered (knowledgeGraph msg)) msgs in
    mkComponent msgs "" true None (Streaming (id botMessage)) Pending.

(** [regenerateResponse(messageId)], called in the render of [c], up to
    the first suspension of the [handleSubmit] it awaits. *)
Definition regenerateResponse (messageId now1 now2 : Z) (clientsReady : bool)
    (c : Component) : Component :=
  match findIndex messageId (messages c) with
  | None => c
  | Some messageIndex =>
      match before messageIndex (messages c) with
      | None => c
      | Some userMessage =>
          if isBot userMessage then c
          else
            let sliced :=
              mkComponent (firstn messageIndex (messages c)) (input c)
                          (isLoading c) (error c) (task c)
                          (knowledgeGraphPromise c) in
            let newInput := content userMessage in
            let refilled :=
              mkComponent (messages sliced) newInput (isLoading sliced)
                          (error sliced) (task sliced)
                          (knowledgeGraphPromise sliced) in
            handleSubmitFrom c now1 now2 clientsReady refilled
      end
  end.

(** [setInput(e.target.value)], the [onChange] of the text area, which
    is there to be typed in while the error panel is not shown and
    [isLoading] does not hold. *)
Definition setInput (text : string) (c : Component) : Component :=
  mkComponent (messages c) text (isLoading c) (error c) (task c)
              (knowledgeGraphPromise c).

(** No handler is in flight but the one of the turn [botId]. *)
Definition ownTask (botId : Z) (c : Component) : Prop :=
  task c = Idle \/ task c = Streaming botId
  \/ task c = AwaitingKnowledgeGraph botId.

(** The message the [catch] block of [handleSubmit] shows for a thrown
    value. *)
Definition errorMessageOf (err : Thrown) : string :=
  match err with
  | ErrorObj _ message => message
  | NotAnError _ => "Failed to send message"
  end.

End ChatActions.

(** ** The page with several calls of [handleSubmit] under way

    [isLoading] is all that holds back a submit, and a click on the cancel
    button lowers it at once, while the call it cancels is still
    suspended; a second call can then be started.  The page below follows
    every call started, each with its own place of suspension and its own
    retrieval promise; a call acts on the React state through [react]. *)

Module Page.

Import JsString Chat ChatActions.

(** A call of [handleSubmit] that has been started: where it is suspended
    ([Idle] once it has ended) and the state of its retrieval promise. *)
Record Handler : Type := mkHandler {
  suspendedAt : Task;
  retrieval : PromiseState
}.

(** The React state of the component and the calls started so far, in
    the order of their submits. *)
Record Page : Type := mkPage {
  pageMessages : list Message;
  pageInput : string;
  pageIsLoading : bool;
  pageError : option string;
  handlers : list Handler
}.

(** The page with nothing typed and nothing sent. *)
Definition initial : Page := mkPage [] "" false None [].

(** The component as the call [h] finds it when it is resumed. *)
Definition view (p : Page) (h : Handler) : Component :=
  mkComponent (pageMessages p) (pageInput p) (pageIsLoading p) (pageError p)
              (suspendedAt h) (retrieval h).

(** A call that is not under way, to look at the page from outside any
    call. *)
Definition noCall : Handler := mkHandler Idle Pending.

(** The React state a step leaves, with the calls [hs]. *)
Definition withHandlers (c : Component) (hs : list Handler) : Page :=
  mkPage (Chat.messages c) (input c) (isLoading c) (error c) hs.

(** [hs] with its element number [n] replaced by [h]. *)
Fixpoint replaceNth (n : nat) (h : Handler) (hs : list Handler) : list Handler :=
  match hs, n with
  | [], _ => []
  | _ :: hs', O => h :: hs'
  | x :: hs', S n' => x :: replaceNth n' h hs'
  end.

(** What happens on the page: the user types, submits the form or clicks
    the cancel button, or the call number [n] is woken up. *)
Inductive Action : Type :=
| SetInput (text : string)
| Submit (now1 now2 : Z)
| Cancel
| Resume (n : nat) (w : Wake).

(** One step of the page.  With the error panel shown there is no form to
    type in or to submit, and the text area is disabled while [isLoading]
    holds. *)
Definition step (clientsReady : bool) (p : Page) (a : Action) : Page :=
  match a with
  | SetInput text =>
      if (errorShown (view p noCall) || pageIsLoading p)%bool then p
      else withHandlers (setInput text (view p noCall)) (handlers p)
  | Submit now1 now2 =>
      if (errorShown (view p noCall)
          || negb (truthy (trim (pageInput p))) || pageIsLoading p
          || negb clientsReady)%bool
      then p
      else
        let started := handleSubmit now1 now2 clientsReady (view p noCall) in
        withHandlers started
          (handlers p ++ [mkHandler (task started) (knowledgeGraphPromise started)])
  | Cancel => withHandlers (react (view p noCall) CancelRequest) (handlers p)
  | Resume n w =>
      match nth_error (handlers p) n with
      | None => p
      | Some h =>
          let resumed := react (view p h) w in
          withHandlers resumed
            (replaceNth n (mkHandler (task resumed) (knowledgeGraphPromise resumed))
                        (handlers p))
      end
  end.

Definition steps (clientsReady : bool) (actions : list Action) (p : Page) : Page :=
  fold_left (step clientsReady) actions p.

(** The call is still under way. *)
Definition underWay (h : Handler) : bool :=
  match suspendedAt h with
  | Idle => false
  | _ => true
  end.

(** The action lowers [isLoading] from outside the calls. *)
Definition cancels (a : Action) : bool :=
  match a with
  | Cancel | Resume _ CancelRequest => true
  | _ => false
  end.

End Page.

(** ** Observations on a call of [streamMessage] *)

Module Schedule.

Import JsString AssistantClient.

(** The fragments the chunk loop yields for a text. *)
Definition chunkFragments (text : string) : list string :=
  map (fun g => (join " " g ++ " ")%string)
      (JsArray.groups chunkSize (split " " text)).

(** The backoff delays of [n] retries in a row, the first one made at
    retry counter [count]. *)
Definition retrySchedule (count : Z) (n : nat) : list Z :=
  map (fun i => baseDelay * 2 ^ (count + Z.of_nat i)) (seq 0 n).

(** [signal?.aborted], read at time [t]. *)
Definition abortedBy (signal : option AbortSignal) (t : Z) : bool :=
  match signal with
  | Some sg => aborted sg t
  | None => false
  end.

(** A status for which the [switch] of the poll loop takes its [default]
    branch: 'queued', 'in_progress' and any other value that is not one of
    the five cases. *)
Definition transient (status : string) : bool :=
  negb ((status =? "completed") || (status =? "failed")
        || (status =? "cancelled") || (status =? "expired")
        || (status =? "requires_action"))%string.

(** The clock at the start of iteration number [n] (from 0) of a poll
    loop entered at time [t] after [firstCall] provider calls, when the
    iterations before it each polled and went round: an iteration takes
    the time of its poll and the second of its sleep. *)
Fixpoint iterationTime (provider : Provider) (firstCall : nat) (t : Z) (n : nat) : Z :=
  match n with
  | O => t
  | S n' =>
      iterationTime provider (S firstCall)
        (t + Z.of_N (latency provider firstCall) + 1000) n'
  end.

(** What [n] iterations that polled and went round add to the log. *)
Definition pollRounds (threadId runId : string) (n : nat) : list Event :=
  List.concat (repeat [EvRunsRetrieve threadId runId; EvSleep PollInterval 1000] n).

(** The state in which attempt number [i] (from 0) of a call made in the
    state [s] starts when the attempts before it failed and were retried:
    attempt 0 starts in [s], and a retry starts in the state its attempt
    left, after the backoff. *)
Fixpoint attemptStart (provider : Provider) (content : string)
    (signal : option AbortSignal) (threadId : string) (i : nat) (s : State) : State :=
  match i with
  | O => s
  | S i' =>
      attemptStart provider content signal threadId i'
        (snd (exponentialBackoff
                (snd (tryBody provider content signal threadId s))))
  end.

(** An [AssistantClient] provider for which the most recent message is
    always the assistant's [text] and the run is completed when polled. *)
Definition answering (text : string) : Provider :=
  mkProvider (fun _ => inr "thread_1") (fun _ => inr tt) (fun _ => inr "run_1")
    (fun _ => inr (mkRun "completed" None))
    (fun _ => inr [mkThreadMessage "assistant" [mkContent "text" text]])
    (fun _ => 25%N).

(** A provider that refuses to create a thread. *)
Definition noThread : Provider :=
  mkProvider (fun _ => inl (newError "Connection error."))
    (fun _ => inr tt) (fun _ => inr "run_1")
    (fun _ => inr (mkRun "completed" None))
    (fun _ => inr [])
    (fun _ => 25%N).

(** A provider whose calls made with the signal are rejected with an
    [AbortError]. *)
Definition aborting : Provider :=
  mkProvider (fun _ => inr "thread_1")
    (fun _ => inl (ErrorObj "AbortError" "The user aborted a request."))
    (fun _ => inr "run_1")
    (fun _ => inr (mkRun "completed" None))
    (fun _ => inr [])
    (fun _ => 25%N).

End Schedule.

(** ** A conversation with a failed turn *)

Module FailedTurn.

Import Chat.

Definition asked : Message :=
  mkMessage 1000 "Which schools report tuition?" false 1000 delivered None.

Definition failedReply : Message :=
  mkMessage 1001 "Failed to generate response" true 1000 failed None.

Definition greeting : Message :=
  mkMessage 500 "Hello" true 500 delivered (Some []).

(** The component after a turn whose stream threw an [Error] with an
    empty message: [error] is the empty string, so the page is rendered,
    with the failed message and its "Try again" link, and the input box is
    empty as the submit left it. *)
Definition afterFailure : Component :=
  run [Chunk "Tuition "; StreamThrow (ErrorObj "Error" "")]
      (handleSubmit 1000 1000 true
         (mkComponent [] "Which schools report tuition?" false None Idle Pending)).

(** The same, with a text typed in the input box since. *)
Definition typedSince : Component :=
  ChatActions.setInput "Another question" afterFailure.

(** An assistant message right after another assistant message. *)
Definition afterGreeting : Component :=
  mkComponent [greeting; failedReply] "" false None Idle (Fulfilled []).

End FailedTurn.

(** * Properties *)

(** ** The conversation client *)

Section AssistantClientFacts.

Import AssistantClient.

Variable provider : Provider.

(** C10: before a thread has been created, [streamMessage] throws
    'Thread not initialized' and leaves the state as it found it: the log
    gains no provider call and no backoff sleep (nothing is retried) and
    the retry counter keeps its value. *)
Theorem streamMessage_thread_not_initialized
    (content : string) (signal : option AbortSignal) (s : State) :
  thread s = None ->
  streamMessage provider content signal s
  = (Throw (newError "Thread not initialized"), s).
Proof.
  intros Hthread. unfold streamMessage.
  destruct (streamFuel s); simpl; unfold bind, get; rewrite Hthread; reflexivity.
Qed.

(** The state after a provider call, whatever the reply. *)
Lemma call_state {A : Type} (e : Event) (reply : nat -> Thrown + A) (s : State) :
  snd (call e (latency provider) reply s)
  = mkState (assistantId s) (thread s) (retryCount s)
            (clock s + Z.of_N (latency provider (calls s))) (S (calls s))
            (log s ++ [e]).
Proof. unfold call. destruct (reply (calls s)); reflexivity. Qed.

Lemma call_never_out_of_fuel {A : Type} (e : Event) (reply : nat -> Thrown + A) (s : State) :
  fst (call e (latency provider) reply s) <> OutOfFuel.
Proof. unfold call. destruct (reply (calls s)); discriminate. Qed.

(** One iteration of the poll loop, case by case. *)
Lemma pollLoop_cancelled (fuel : nat) (threadId runId : string)
    (sg : AbortSignal) (startTime : Z) (s : State) :
  aborted sg (clock s) = true ->
  pollLoop provider (S fuel) threadId runId (Some sg) startTime s
  = (Throw (newError "Request cancelled"), s).
Proof. intros H. simpl. unfold bind, signalAborted. rewrite H. reflexivity. Qed.

Lemma pollLoop_timed_out (fuel : nat) (threadId runId : string)
    (signal : option AbortSignal) (startTime : Z) (s : State) :
  signalAborted signal s = (Normal false, s) ->
  timeout < clock s - startTime ->
  pollLoop provider (S fuel) threadId runId signal startTime s
  = (Throw (newError "Request timed out"), s).
Proof.
  intros Hsig Hlate. simpl. unfold bind. rewrite Hsig. unfold get.
  replace (clock s - startTime >? timeout) with true; [reflexivity|].
  symmetry. apply Z.gtb_lt. exact Hlate.
Qed.

Lemma pollLoop_retrieved (fuel : nat) (threadId runId : string)
    (signal : option AbortSignal) (startTime : Z) (s s1 : State) (run : Run) :
  signalAborted signal s = (Normal false, s) ->
  clock s - startTime <= timeout ->
  call (EvRunsRetrieve threadId runId) (latency provider) (runsRetrieve provider) s
  = (Normal run, s1) ->
  pollLoop provider (S fuel) threadId runId signal startTime s
  = if (status run =? "completed")%string then (Normal tt, s1)
    else if (status run =? "failed")%string
         then (Throw (newError (failureMessage run)), s1)
    else if (status run =? "cancelled")%string
         then (Throw (newError "Run was cancelled"), s1)
    else if (status run =? "expired")%string
         then (Throw (newError "Run expired"), s1)
    else if (status run =? "requires_action")%string
         then (Throw (newError "Run requires action"), s1)
    else pollLoop provider fuel threadId runId signal startTime
           (snd (sleep PollInterval 1000 s1)).
Proof.
  intros Hsig Hearly Hcall. simpl. unfold bind at 1. rewrite Hsig.
  unfold bind at 1. unfold get.
  replace (clock s - startTime >? timeout) with false
    by (symmetry; rewrite Z.gtb_ltb; apply Z.ltb_ge; exact Hearly).
  unfold bind at 1. rewrite Hcall.
  repeat (match goal with |- context [if ?b then _ else _] => destruct b end;
          try reflexivity).
Qed.

Lemma pollLoop_rejected (fuel : nat) (threadId runId : string)
    (signal : option AbortSignal) (startTime : Z) (s s1 : State) (e : Thrown) :
  signalAborted signal s = (Normal false, s) ->
  clock s - startTime <= timeout ->
  call (EvRunsRetrieve threadId runId) (latency provider) (runsRetrieve provider) s
  = (Throw e, s1) ->
  pollLoop provider (S fuel) threadId runId signal startTime s = (Throw e, s1).
Proof.
  intros Hsig Hearly Hcall. simpl. unfold bind at 1. rewrite Hsig.
  unfold bind at 1. unfold get.
  replace (clock s - startTime >? timeout) with false
    by (symmetry; rewrite Z.gtb_ltb; apply Z.ltb_ge; exact Hearly).
  unfold bind at 1. rewrite Hcall. reflexivity.
Qed.

(** One iteration of the poll loop whose signal is not aborted. *)
Lemma pollLoop_iteration (fuel : nat) (threadId runId : string)
    (signal : option AbortSignal) (startTime : Z) (s : State) :
  signalAborted signal s = (Normal false, s) ->
  let loop := pollLoop provider (S fuel) threadId runId signal startTime in
  (timeout < clock s - startTime ->
   loop s = (Throw (newError "Request timed out"), s))
  /\ (clock s - startTime <= timeout ->
      forall (run : Run) (s1 : State),
        call (EvRunsRetrieve threadId runId) (latency provider)
             (runsRetrieve provider) s = (Normal run, s1) ->
        (status run = "completed" -> loop s = (Normal tt, s1))
        /\ (status run = "failed" ->
            loop s = (Throw (newError (failureMessage run)), s1))
        /\ (status run = "cancelled" ->
            loop s = (Throw (newError "Run was cancelled"), s1))
        /\ (status run = "expired" ->
            loop s = (Throw (newError "Run expired"), s1))
        /\ (status run = "requires_action" ->
            loop s = (Throw (newError "Run requires action"), s1))
        /\ (status run = "queued" \/ status run = "in_progress" ->
            loop s = pollLoop provider fuel threadId runId signal startTime
                       (mkState (assistantId s1) (thread s1) (retryCount s1)
                                (clock s1 + 1000) (calls s1)
                                (log s1 ++ [EvSleep PollInterval 1000])))).
Proof.
  intros Hsig loop. split.
  - intros Hlate. apply pollLoop_timed_out; assumption.
  - intros Hearly run s1 Hcall. unfold loop.
    rewrite (pollLoop_retrieved fuel _ _ _ _ _ _ _ Hsig Hearly Hcall).
    repeat split; intros Hst; try (rewrite Hst; reflexivity).
    destruct Hst as [Hst|Hst]; rewrite Hst; reflexivity.
Qed.

End AssistantClientFacts.

(** ** Chunking *)

Lemma append_empty_r (s : string) : (s ++ "")%string = s.
Proof. induction s as [|a s IH]; simpl; [reflexivity | rewrite IH; reflexivity]. Qed.

Lemma append_assoc (a b c : string) : ((a ++ b) ++ c)%string = (a ++ (b ++ c))%string.
Proof. induction a as [|x a IH]; simpl; [reflexivity | rewrite IH; reflexivity]. Qed.

Lemma split_not_nil (c : ascii) (s : string) : JsString.split c s <> [].
Proof.
  destruct s as [|a s]; simpl; [discriminate|].
  destruct (Ascii.eqb a c); [discriminate|].
  destruct (JsString.split c s); discriminate.
Qed.

(** Splitting on a character and joining with it gives the string back. *)
Lemma join_split (c : ascii) (s : string) :
  JsString.join (String c EmptyString) (JsString.split c s) = s.
Proof.
  induction s as [|a s IH]; [reflexivity|].
  simpl JsString.split.
  destruct (Ascii.eqb a c) eqn:Hac.
  - apply Ascii.eqb_eq in Hac. subst a.
    pose proof (split_not_nil c s) as Hne.
    destruct (JsString.split c s) as [|w ws] eqn:Hsp; [contradiction|].
    change (JsString.join (String c "") ("" :: w :: ws))
      with (String c (JsString.join (String c "") (w :: ws))).
    rewrite IH. reflexivity.
  - pose proof (split_not_nil c s) as Hne.
    destruct (JsString.split c s) as [|w ws] eqn:Hsp; [contradiction|].
    destruct ws as [|w' ws]; simpl in *; rewrite <- IH; reflexivity.
Qed.

Lemma join_app (sep : string) (a b : list string) :
  a <> [] -> b <> [] ->
  JsString.join sep (a ++ b)
  = (JsString.join sep a ++ sep ++ JsString.join sep b)%string.
Proof.
  intros Ha Hb. induction a as [|x a IH]; [contradiction|].
  destruct a as [|y a].
  - destruct b as [|z b]; [contradiction|]. reflexivity.
  - change (JsString.join sep ((x :: y :: a) ++ b))
      with (x ++ sep ++ JsString.join sep ((y :: a) ++ b))%string.
    rewrite IH by discriminate.
    change (JsString.join sep (x :: y :: a))
      with (x ++ sep ++ JsString.join sep (y :: a))%string.
    rewrite !append_assoc. reflexivity.
Qed.

Lemma skipn_shorter {A : Type} (n : nat) (x : A) (l : list A) :
  (0 < n)%nat -> (List.length (skipn n (x :: l)) <= List.length l)%nat.
Proof. intros Hn. rewrite length_skipn. simpl List.length. lia. Qed.

(** Grouping: more fuel than elements changes nothing. *)
Lemma groupsOf_fuel {A : Type} (n : nat) (l : list A) :
  (0 < n)%nat ->
  forall f f' : nat,
    (List.length l <= f)%nat -> (List.length l <= f')%nat ->
    JsArray.groupsOf f n l = JsArray.groupsOf f' n l.
Proof.
  intros Hn f. revert l.
  induction f as [|f IH]; intros l f' Hf Hf'.
  - destruct l; [|simpl in Hf; lia]. destruct f'; reflexivity.
  - destruct l as [|x l]; [destruct f'; reflexivity|].
    destruct f' as [|f']; [simpl in Hf'; lia|].
    simpl JsArray.groupsOf. f_equal.
    pose proof (skipn_shorter n x l Hn) as Hlen.
    simpl List.length in Hf, Hf'.
    apply IH; lia.
Qed.

(** The groups, put end to end, are the list. *)
Lemma groupsOf_concat {A : Type} (n : nat) :
  (0 < n)%nat ->
  forall (f : nat) (l : list A), (List.length l <= f)%nat ->
    List.concat (JsArray.groupsOf f n l) = l.
Proof.
  intros Hn. induction f as [|f IH]; intros l Hf.
  - destruct l; [reflexivity | simpl in Hf; lia].
  - destruct l as [|x l]; [reflexivity|].
    simpl JsArray.groupsOf. simpl List.concat.
    pose proof (skipn_shorter n x l Hn) as Hlen.
    simpl List.length in Hf.
    rewrite IH by lia. apply firstn_skipn.
Qed.

(** Every group has between 1 and [n] elements. *)
Lemma groupsOf_sizes {A : Type} (n : nat) :
  (0 < n)%nat ->
  forall (f : nat) (l : list A),
    Forall (fun g => (1 <= List.length g <= n)%nat) (JsArray.groupsOf f n l).
Proof.
  intros Hn. induction f as [|f IH]; intros l; [constructor|].
  destruct l as [|x l]; [constructor|].
  simpl JsArray.groupsOf. constructor; [|apply IH].
  rewrite length_firstn. simpl List.length. lia.
Qed.

(** Every group but the last has exactly [n] elements. *)
Lemma groupsOf_full {A : Type} (n : nat) :
  forall (f : nat) (l : list A) (i : nat),
    (S i < List.length (JsArray.groupsOf f n l))%nat ->
    List.length (nth i (JsArray.groupsOf f n l) []) = n.
Proof.
  induction f as [|f IH]; intros l i Hi; [simpl in Hi; lia|].
  destruct l as [|x l]; [simpl in Hi; lia|].
  simpl JsArray.groupsOf in *. simpl List.length in Hi.
  destruct i as [|i].
  - simpl nth. rewrite length_firstn.
    destruct (Nat.le_gt_cases n (List.length (x :: l))) as [Hle|Hgt]; [lia|].
    (* a short first group leaves nothing behind it *)
    rewrite skipn_all2 in Hi by lia.
    destruct f; simpl in Hi; lia.
  - simpl nth. apply IH. lia.
Qed.

(** Joining each group, closing it with the separator and concatenating
    gives the joined list closed with one separator. *)
Lemma concatAll_groups (sep : string) (n : nat) :
  (0 < n)%nat ->
  forall (f : nat) (l : list string),
    l <> [] -> (List.length l <= f)%nat ->
    JsString.concatAll
      (map (fun g => (JsString.join sep g ++ sep)%string) (JsArray.groupsOf f n l))
    = (JsString.join sep l ++ sep)%string.
Proof.
  intros Hn. induction f as [|f IH]; intros l Hne Hf.
  - destruct l; [contradiction | simpl in Hf; lia].
  - destruct l as [|x l]; [contradiction|].
    simpl JsArray.groupsOf. simpl map. simpl JsString.concatAll.
    pose proof (skipn_shorter n x l Hn) as Hlen.
    simpl List.length in Hf.
    pose proof (firstn_skipn n (x :: l)) as Hcut.
    destruct (skipn n (x :: l)) as [|y rest] eqn:Hskip.
    + rewrite app_nil_r in Hcut. rewrite Hcut.
      replace (JsArray.groupsOf f n (@nil string)) with (@nil (list string))
        by (destruct f; reflexivity).
      simpl. apply append_empty_r.
    + change (fold_right append EmptyString
               (map (fun g => (JsString.join sep g ++ sep)%string)
                    (JsArray.groupsOf f n (y :: rest))))
        with (JsString.concatAll
               (map (fun g => (JsString.join sep g ++ sep)%string)
                    (JsArray.groupsOf f n (y :: rest)))).
      rewrite IH by (try discriminate; lia).
      replace (JsString.join sep (x :: l))
        with (JsString.join sep (firstn n (x :: l) ++ y :: rest))
        by (rewrite Hcut; reflexivity).
      rewrite join_app.
      * rewrite !append_assoc. reflexivity.
      * destruct n; [lia | discriminate].
      * discriminate.
Qed.

Section Chunking.

Import AssistantClient.

(** The chunk loop walks the groups of the words from index [i] on. *)
Lemma chunkLoop_run (words : list string) :
  forall (fuel i : nat) (s : State),
    (List.length (skipn i words) < fuel)%nat ->
    let gs := JsArray.groupsOf fuel chunkSize (skipn i words) in
    chunkLoop fuel words i s
    = (Normal tt,
       mkState (assistantId s) (thread s) (retryCount s)
               (clock s + 50 * Z.of_nat (List.length gs)) (calls s)
               (log s ++ flat_map groupEvents gs)).
Proof.
  induction fuel as [|fuel IH]; intros i s Hfuel; [lia|].
  cbv zeta. simpl chunkLoop.
  destruct (i <? List.length words)%nat eqn:Hi.
  - apply Nat.ltb_lt in Hi.
    destruct (skipn i words) as [|x rest] eqn:Hskip.
    { apply (f_equal (@List.length string)) in Hskip.
      rewrite length_skipn in Hskip. simpl in Hskip. lia. }
    unfold bind at 1. unfold emit at 1.
    unfold bind at 1. unfold sleep at 1.
    unfold JsArray.slice.
    replace (i + chunkSize - i)%nat with chunkSize by lia.
    rewrite Hskip.
    assert (Hnext : skipn (i + chunkSize) words = skipn chunkSize (x :: rest)).
    { rewrite <- Hskip. rewrite skipn_skipn. f_equal. lia. }
    rewrite IH.
    + cbv zeta. cbn [assistantId thread retryCount clock calls log].
      rewrite Hnext.
      change (JsArray.groupsOf (S fuel) chunkSize (x :: rest))
        with (firstn chunkSize (x :: rest)
              :: JsArray.groupsOf fuel chunkSize (skipn chunkSize (x :: rest))).
      set (gs := JsArray.groupsOf fuel chunkSize (skipn chunkSize (x :: rest))).
      f_equal. f_equal.
      * change (List.length (firstn chunkSize (x :: rest) :: gs))
          with (S (List.length gs)).
        rewrite Nat2Z.inj_succ. lia.
      * unfold JsArray.push. simpl flat_map.
        rewrite <- !app_assoc. reflexivity.
    + cbn [assistantId thread retryCount clock calls log].
      rewrite Hnext.
      assert (0 < chunkSize)%nat by (unfold chunkSize; lia).
      pose proof (skipn_shorter chunkSize x rest H) as Hshort.
      simpl List.length in Hfuel. lia.
  - apply Nat.ltb_ge in Hi.
    rewrite skipn_all2 by exact Hi.
    simpl. unfold ret. destruct s; simpl.
    rewrite Z.add_0_r, app_nil_r. reflexivity.
Qed.

(** C4, as the code has it: the words are the pieces of the text between
    single space characters; the loop yields one fragment per consecutive
    group of 10 words (the last group holds what is left, at least one
    word), each fragment being the group joined by spaces and closed by
    one space, with a 50 ms sleep after each fragment; and the fragments,
    concatenated, are the text followed by one space. *)
Theorem chunkLoop_fragments (text : string) (s : State) :
  let words := JsString.split " " text in
  let gs := JsArray.groups chunkSize words in
  JsString.join " " words = text
  /\ List.concat gs = words
  /\ Forall (fun g => (1 <= List.length g <= chunkSize)%nat) gs
  /\ (forall i : nat, (S i < List.length gs)%nat ->
        List.length (nth i gs []) = chunkSize)
  /\ chunkLoop (S (List.length words)) words 0 s
     = (Normal tt,
        mkState (assistantId s) (thread s) (retryCount s)
                (clock s + 50 * Z.of_nat (List.length gs)) (calls s)
                (log s ++ flat_map groupEvents gs))
  /\ fragments (flat_map groupEvents gs)
     = map (fun g => (JsString.join " " g ++ " ")%string) gs
  /\ JsString.concatAll (fragments (flat_map groupEvents gs))
     = (text ++ " ")%string.
Proof.
  intros words gs.
  assert (Hn : (0 < chunkSize)%nat) by (unfold chunkSize; lia).
  assert (Hfrag : fragments (flat_map groupEvents gs)
                  = map (fun g => (JsString.join " " g ++ " ")%string) gs).
  { clear. induction gs as [|g gs IH]; [reflexivity|].
    simpl. f_equal. exact IH. }
  split; [apply (join_split " " text)|].
  split; [apply groupsOf_concat; [exact Hn | apply Nat.le_refl]|].
  split; [apply groupsOf_sizes; exact Hn|].
  split; [apply groupsOf_full|].
  split.
  - rewrite (chunkLoop_run words (S (List.length words)) 0 s)
      by (simpl skipn; lia).
    cbv zeta. simpl skipn.
    rewrite (groupsOf_fuel chunkSize words Hn (S (List.length words))
               (List.length words)) by lia.
    reflexivity.
  - split; [exact Hfrag|].
    rewrite Hfrag. unfold gs, JsArray.groups.
    rewrite (concatAll_groups " " chunkSize Hn).
    + unfold words. rewrite (join_split " " text). reflexivity.
    + apply split_not_nil.
    + apply Nat.le_refl.
Qed.

(** C4, the claim as written fails: for the text "hello" the one
    fragment is "hello " (the text is not reconstructed exactly), and it
    is yielded before any sleep, the 50 ms pause coming after it. *)
Lemma chunkLoop_not_exact :
  log (snd (chunkLoop 2 (JsString.split " " "hello") 0 Demo.ready))
  = [EvYield "hello "; EvSleep Pacing 50]
  /\ JsString.concatAll
       (fragments (log (snd (chunkLoop 2 (JsString.split " " "hello") 0 Demo.ready))))
     <> "hello".
Proof. split; [reflexivity | vm_compute; discriminate]. Qed.

End Chunking.

(** ** Retry and backoff *)

Section Retry.

Import AssistantClient.

Variable provider : Provider.

Lemma quiet_ret {A : Type} (a : A) : quiet (ret a).
Proof.
  intros s. simpl. repeat split. exists []. rewrite app_nil_r. split; reflexivity.
Qed.

Lemma quiet_throw {A : Type} (e : Thrown) : quiet (@throw A e).
Proof.
  intros s. simpl. repeat split. exists []. rewrite app_nil_r. split; reflexivity.
Qed.

Lemma quiet_outOfFuel {A : Type} : quiet (@outOfFuel A).
Proof.
  intros s. simpl. repeat split. exists []. rewrite app_nil_r. split; reflexivity.
Qed.

Lemma quiet_get {A : Type} (f : State -> A) : quiet (get f).
Proof.
  intros s. simpl. repeat split. exists []. rewrite app_nil_r. split; reflexivity.
Qed.

Lemma quiet_signalAborted (signal : option AbortSignal) : quiet (signalAborted signal).
Proof.
  intros s. simpl. repeat split. exists []. rewrite app_nil_r. split; reflexivity.
Qed.

Lemma quiet_log (e : Event) (s s' : State) :
  quietEvent e = true ->
  assistantId s' = assistantId s -> thread s' = thread s ->
  retryCount s' = retryCount s -> log s' = JsArray.push (log s) e ->
  assistantId s' = assistantId s
  /\ thread s' = thread s
  /\ retryCount s' = retryCount s
  /\ exists t : list Event, log s' = log s ++ t /\ forallb quietEvent t = true.
Proof.
  intros He Ha Ht Hr Hl. repeat split; try assumption.
  exists [e]. split; [exact Hl | simpl; rewrite He; reflexivity].
Qed.

Lemma quiet_emit (e : Event) : quietEvent e = true -> quiet (emit e).
Proof. intros He s. apply (quiet_log e); try reflexivity; exact He. Qed.

Lemma quiet_sleep (site : SleepSite) (ms : Z) :
  site <> Backoff -> quiet (sleep site ms).
Proof.
  intros Hsite s. apply (quiet_log (EvSleep site ms)); try reflexivity.
  destruct site; [contradiction | reflexivity | reflexivity].
Qed.

Lemma quiet_call {A : Type} (e : Event) (reply : nat -> Thrown + A) :
  quietEvent e = true -> quiet (call e (latency provider) reply).
Proof.
  intros He s. rewrite call_state.
  apply (quiet_log e); try reflexivity; exact He.
Qed.

Lemma quiet_bind {A B : Type} (m : M A) (k : A -> M B) :
  quiet m -> (forall a, quiet (k a)) -> quiet (bind m k).
Proof.
  intros Hm Hk s. unfold bind.
  destruct (Hm s) as (Ha & Ht & Hr & t & Hl & Hq).
  destruct (m s) as [[a| e |] s1]; simpl in *.
  - destruct (Hk a s1) as (Ha' & Ht' & Hr' & t' & Hl' & Hq').
    repeat split; try congruence.
    exists (t ++ t'). split.
    + rewrite Hl', Hl, app_assoc. reflexivity.
    + rewrite forallb_app, Hq, Hq'. reflexivity.
  - repeat split; try assumption. exists t. split; assumption.
  - repeat split; try assumption. exists t. split; assumption.
Qed.

Ltac quiet_step :=
  lazymatch goal with
  | |- quiet (bind _ _) => apply quiet_bind; [|intros ?]
  | |- quiet (ret _) => apply quiet_ret
  | |- quiet (throw _) => apply quiet_throw
  | |- quiet outOfFuel => apply quiet_outOfFuel
  | |- quiet (get _) => apply quiet_get
  | |- quiet (signalAborted _) => apply quiet_signalAborted
  | |- quiet (emit _) => apply quiet_emit; reflexivity
  | |- quiet (sleep _ _) => apply quiet_sleep; discriminate
  | |- quiet (call _ _ _) => apply quiet_call; reflexivity
  | |- quiet (if ?b then _ else _) => destruct b
  | |- quiet (match ?x with _ => _ end) => destruct x
  end.

Lemma quiet_pollLoop (threadId runId : string) (signal : option AbortSignal)
    (startTime : Z) (fuel : nat) :
  quiet (pollLoop provider fuel threadId runId signal startTime).
Proof.
  induction fuel as [|fuel IH]; simpl; [apply quiet_outOfFuel|].
  repeat quiet_step. exact IH.
Qed.

Lemma quiet_chunkLoop (words : list string) (fuel : nat) :
  forall i : nat, quiet (chunkLoop fuel words i).
Proof.
  induction fuel as [|fuel IH]; intros i; simpl; [apply quiet_outOfFuel|].
  repeat quiet_step. apply IH.
Qed.

(** Quiet events are invisible to the two observations on the log. *)
Lemma attempts_quiet (l t : list Event) :
  forallb quietEvent t = true -> attempts (l ++ t) = attempts l.
Proof.
  intros Hq. unfold attempts. rewrite filter_app, length_app.
  replace (filter _ t) with (@nil Event); [simpl; lia|].
  induction t as [|e t IH]; [reflexivity|].
  simpl in Hq. apply andb_true_iff in Hq. destruct Hq as [He Ht].
  simpl. destruct e; simpl in He; try discriminate; apply IH; exact Ht.
Qed.

Lemma backoffDelays_quiet (l t : list Event) :
  forallb quietEvent t = true -> backoffDelays (l ++ t) = backoffDelays l.
Proof.
  intros Hq. unfold backoffDelays. rewrite flat_map_app.
  replace (flat_map _ t) with (@nil Z); [apply app_nil_r|].
  induction t as [|e t IH]; [reflexivity|].
  simpl in Hq. apply andb_true_iff in Hq. destruct Hq as [He Ht].
  simpl. destruct e as [| | | | |site ms|]; simpl in He; try discriminate;
    try (apply IH; exact Ht).
  destruct site; try discriminate; apply IH; exact Ht.
Qed.

(** *** Totality *)

Lemma total_bind {A B : Type} (m : M A) (k : A -> M B) :
  total m -> (forall a, total (k a)) -> total (bind m k).
Proof.
  intros Hm Hk s. unfold bind. specialize (Hm s).
  destruct (m s) as [[a| e |] s1]; simpl in *;
    [apply Hk | discriminate | contradiction].
Qed.

Lemma total_call {A : Type} (e : Event) (reply : nat -> Thrown + A) :
  total (call e (latency provider) reply).
Proof. intros s. apply call_never_out_of_fuel. Qed.

(** The poll loop ends within its fuel: a round trip takes no negative
    time and every iteration that goes round sleeps 1000 ms. *)
Lemma pollLoop_total (threadId runId : string) (signal : option AbortSignal)
    (startTime : Z) :
  forall (fuel : nat) (s : State),
    timeout < clock s - startTime + 1000 * Z.of_nat fuel ->
    fst (pollLoop provider (S fuel) threadId runId signal startTime s) <> OutOfFuel.
Proof.
  induction fuel as [|fuel IH]; intros s Hfuel.
  - simpl. unfold bind, signalAborted, get.
    destruct (match signal with Some sg => aborted sg (clock s) | None => false end);
      [discriminate|].
    replace (clock s - startTime >? timeout) with true; [discriminate|].
    symmetry. apply Z.gtb_lt. lia.
  - remember (S fuel) as f eqn:Hf.
    simpl. unfold bind at 1. unfold signalAborted at 1.
    destruct (match signal with Some sg => aborted sg (clock s) | None => false end);
      [discriminate|].
    unfold bind at 1. unfold get at 1.
    destruct (clock s - startTime >? timeout); [discriminate|].
    unfold bind at 1.
    pose proof (call_state provider (EvRunsRetrieve threadId runId)
                  (runsRetrieve provider) s) as Hstate.
    pose proof (call_never_out_of_fuel provider (EvRunsRetrieve threadId runId)
                  (runsRetrieve provider) s) as Hcall.
    destruct (call (EvRunsRetrieve threadId runId) (latency provider)
                (runsRetrieve provider) s) as [[run| e |] s1];
      simpl in Hstate, Hcall; [|discriminate|contradiction].
    repeat (match goal with |- context [if ?b then _ else _] => destruct b end;
            try discriminate).
    unfold bind at 1. unfold sleep at 1. subst f. apply IH.
    subst s1. cbn [clock]. lia.
Qed.

Lemma total_waitForRunCompletion (threadId runId : string)
    (signal : option AbortSignal) :
  total (waitForRunCompletion provider threadId runId signal).
Proof.
  intros s. unfold waitForRunCompletion, bind, get, pollFuel.
  apply pollLoop_total. unfold timeout. lia.
Qed.

Lemma total_chunkLoop (words : list string) :
  total (chunkLoop (S (List.length words)) words 0).
Proof.
  intros s. rewrite chunkLoop_run by (simpl skipn; lia). discriminate.
Qed.

Lemma total_tryBody (content : string) (signal : option AbortSignal)
    (threadId : string) :
  total (tryBody provider content signal threadId).
Proof.
  unfold tryBody.
  apply total_bind; [apply total_call | intros _].
  apply total_bind; [discriminate | intros assistant].
  apply total_bind; [apply total_call | intros runId].
  apply total_bind; [apply total_waitForRunCompletion | intros _].
  apply total_bind; [apply total_call | intros messages].
  destruct messages as [|lastMessage rest]; [discriminate|].
  destruct (negb (msg_role lastMessage =? "assistant")%string); [discriminate|].
  destruct (msg_content lastMessage) as [|messageContent more]; [discriminate|].
  destruct (negb (content_type messageContent =? "text")%string); [discriminate|].
  apply total_chunkLoop.
Qed.

(** *** One attempt *)

(** An attempt appends the user's message first, and after that neither
    starts another attempt nor sleeps a backoff; it leaves the fields of
    the client alone. *)
Lemma tryBody_frame (content : string) (signal : option AbortSignal)
    (threadId : string) (s : State) :
  let s' := snd (tryBody provider content signal threadId s) in
  assistantId s' = assistantId s
  /\ thread s' = thread s
  /\ retryCount s' = retryCount s
  /\ exists t : list Event,
       log s' = log s ++ EvMessagesCreate threadId content :: t
       /\ forallb quietEvent t = true.
Proof.
  cbv zeta.
  remember (tryBody provider content signal threadId s) as r eqn:Hrun.
  unfold tryBody in Hrun. unfold bind at 1 in Hrun.
  pose proof (call_state provider (EvMessagesCreate threadId content)
                (messagesCreate provider) s) as Hstate.
  destruct (call (EvMessagesCreate threadId content) (latency provider)
              (messagesCreate provider) s) as [[u| e |] s1]; simpl in Hstate;
    try (subst r s1; simpl; repeat split; exists []; split; reflexivity).
  cbv beta in Hrun.
  match type of Hrun with r = ?m s1 => assert (Hq : quiet m) end.
  { repeat quiet_step.
    - unfold waitForRunCompletion. repeat quiet_step. apply quiet_pollLoop.
    - apply quiet_chunkLoop. }
  destruct (Hq s1) as (Ha & Ht & Hr & t & Hl & Hquiet).
  rewrite <- Hrun in Ha, Ht, Hr, Hl.
  rewrite Ha, Ht, Hr, Hl. subst s1. simpl.
  repeat split. exists t. split; [|exact Hquiet].
  rewrite <- app_assoc. reflexivity.
Qed.

Lemma attempt_observed (content : string) (signal : option AbortSignal)
    (threadId : string) (s : State) :
  let s' := snd (tryBody provider content signal threadId s) in
  thread s' = thread s
  /\ retryCount s' = retryCount s
  /\ attempts (log s') = S (attempts (log s))
  /\ backoffDelays (log s') = backoffDelays (log s).
Proof.
  destruct (tryBody_frame content signal threadId s) as (_ & Ht & Hr & t & Hl & Hq).
  cbv zeta. rewrite Hl.
  change (log s ++ EvMessagesCreate threadId content :: t)
    with (log s ++ [EvMessagesCreate threadId content] ++ t).
  rewrite app_assoc, attempts_quiet, backoffDelays_quiet by exact Hq.
  repeat split; try assumption.
  - unfold attempts. rewrite filter_app, length_app. simpl. lia.
  - unfold backoffDelays. rewrite flat_map_app. simpl. apply app_nil_r.
Qed.

(** *** The backoff *)

Lemma exponentialBackoff_state (s : State) :
  exponentialBackoff s
  = (Normal tt,
     mkState (assistantId s) (thread s) (retryCount s + 1)
             (clock s + baseDelay * 2 ^ retryCount s) (calls s)
             (log s ++ [EvSleep Backoff (baseDelay * 2 ^ retryCount s)])).
Proof. reflexivity. Qed.

Lemma backoff_observed (s : State) :
  let s' := snd (exponentialBackoff s) in
  thread s' = thread s
  /\ retryCount s' = retryCount s + 1
  /\ attempts (log s') = attempts (log s)
  /\ backoffDelays (log s') = backoffDelays (log s) ++ [baseDelay * 2 ^ retryCount s].
Proof.
  cbv zeta. rewrite exponentialBackoff_state. cbn [snd thread retryCount log].
  repeat split.
  - unfold attempts. rewrite filter_app, length_app. simpl. lia.
  - unfold backoffDelays. rewrite flat_map_app. reflexivity.
Qed.

(** *** The [catch] block *)

(** [streamMessage] with a thread, by the outcome of the attempt. *)
Lemma streamMessageRec_unfold (fuel : nat) (content : string)
    (signal : option AbortSignal) (threadId : string) (s : State) :
  thread s = Some threadId ->
  streamMessageRec provider fuel content signal s
  = match tryBody provider content signal threadId s with
    | (Normal u, s1) => (Normal u, s1)
    | (OutOfFuel, s1) => (OutOfFuel, s1)
    | (Throw (NotAnError _), s1) =>
        (Throw (newError "An unexpected error occurred"), s1)
    | (Throw (ErrorObj name message), s1) =>
        if (name =? "AbortError")%string
        then (Throw (newError "Request cancelled"), s1)
        else if retryCount s1 <? maxRetries
        then
          match fuel with
          | O => (OutOfFuel, snd (exponentialBackoff s1))
          | S fuel' =>
              match streamMessageRec provider fuel' content signal
                      (snd (exponentialBackoff s1)) with
              | (Normal _, s2) =>
                  (Throw (newError "An unexpected error occurred"), s2)
              | other => other
              end
          end
        else (Throw (ErrorObj name message),
              mkState (assistantId s1) (thread s1) 0 (clock s1) (calls s1) (log s1))
    end.
Proof.
  intros Hthread.
  destruct fuel as [|fuel]; simpl streamMessageRec; unfold bind at 1;
    unfold get at 1; rewrite Hthread; unfold tryCatch;
    destruct (tryBody provider content signal threadId s) as [[u|[name message|v]|] s1];
    try reflexivity;
    destruct (name =? "AbortError")%string; try reflexivity;
    unfold bind at 1; unfold get at 1;
    destruct (retryCount s1 <? maxRetries); reflexivity.
Qed.

(** [streamMessage] never runs out of its fuel. *)
Lemma streamMessageRec_total (content : string) (signal : option AbortSignal) :
  forall (fuel : nat) (s : State),
    (Z.to_nat (maxRetries - retryCount s) <= fuel)%nat ->
    fst (streamMessageRec provider fuel content signal s) <> OutOfFuel.
Proof.
  unfold maxRetries.
  induction fuel as [|fuel IH]; intros s Hfuel;
    (destruct (thread s) as [threadId|] eqn:Hthread;
     [| simpl; unfold bind, get; rewrite Hthread; discriminate ]);
    rewrite (streamMessageRec_unfold _ _ _ threadId) by exact Hthread;
    pose proof (total_tryBody content signal threadId s) as Htotal;
    pose proof (attempt_observed content signal threadId s) as (_ & Hr & _);
    destruct (tryBody provider content signal threadId s)
      as [[u|[name message|v]|] s1];
    cbn [fst snd] in Htotal, Hr |- *;
    try discriminate; try contradiction;
    (destruct (name =? "AbortError")%string; [discriminate|]);
    unfold maxRetries;
    destruct (retryCount s1 <? 3) eqn:Hlt; try discriminate.
  - apply Z.ltb_lt in Hlt. lia.
  - apply Z.ltb_lt in Hlt.
    specialize (IH (snd (exponentialBackoff s1))).
    rewrite exponentialBackoff_state in *. cbn [snd retryCount] in IH.
    destruct (streamMessageRec provider fuel content signal _) as [[u| e |] s2];
      cbn [fst] in *; try discriminate.
    apply IH. lia.
Qed.

Theorem streamMessage_total (content : string) (signal : option AbortSignal)
    (s : State) :
  fst (streamMessage provider content signal s) <> OutOfFuel.
Proof. apply streamMessageRec_total. unfold streamFuel. lia. Qed.

(** A retryable failure below the ceiling: the client backs off and calls
    itself; whatever the inner call throws comes out unchanged. *)
Lemma streamMessageRec_retry (fuel : nat) (content : string)
    (signal : option AbortSignal) (threadId : string) (s s1 : State) (e : Thrown) :
  thread s = Some threadId ->
  retryCount s < maxRetries ->
  tryBody provider content signal threadId s = (Throw e, s1) ->
  retryable e = true ->
  streamMessageRec provider (S fuel) content signal s
  = match streamMessageRec provider fuel content signal
            (snd (exponentialBackoff s1)) with
    | (Normal _, s2) => (Throw (newError "An unexpected error occurred"), s2)
    | other => other
    end.
Proof.
  intros Hthread Hcount Htry Hretry.
  pose proof (attempt_observed content signal threadId s) as (_ & Hr & _).
  rewrite (streamMessageRec_unfold _ _ _ threadId) by exact Hthread.
  rewrite Htry in *. cbn [snd] in Hr.
  destruct e as [name message|v]; [|discriminate].
  simpl in Hretry. apply negb_true_iff in Hretry. rewrite Hretry.
  replace (retryCount s1 <? maxRetries) with true; [reflexivity|].
  symmetry. apply Z.ltb_lt. lia.
Qed.

(** A retryable failure at the ceiling: the counter is reset and the
    error of this attempt is thrown as it is. *)
Lemma streamMessageRec_exhausted (fuel : nat) (content : string)
    (signal : option AbortSignal) (threadId : string) (s s1 : State) (e : Thrown) :
  thread s = Some threadId ->
  maxRetries <= retryCount s ->
  tryBody provider content signal threadId s = (Throw e, s1) ->
  retryable e = true ->
  streamMessageRec provider fuel content signal s
  = (Throw e, mkState (assistantId s1) (thread s1) 0 (clock s1) (calls s1) (log s1)).
Proof.
  intros Hthread Hcount Htry Hretry.
  pose proof (attempt_observed content signal threadId s) as (_ & Hr & _).
  rewrite (streamMessageRec_unfold _ _ _ threadId) by exact Hthread.
  rewrite Htry in *. cbn [snd] in Hr.
  destruct e as [name message|v]; [|discriminate].
  simpl in Hretry. apply negb_true_iff in Hretry. rewrite Hretry.
  replace (retryCount s1 <? maxRetries) with false; [reflexivity|].
  symmetry. apply Z.ltb_ge. lia.
Qed.

(** The error the poll loop throws on cancellation is a plain [Error]:
    the [catch] block takes it to the retry branch like any other. *)
Lemma poll_cancellation_is_retryable :
  retryable (newError "Request cancelled") = true.
Proof. reflexivity. Qed.

(** A call whose attempt fails never returns normally, whatever the
    retry does: a retry that succeeds falls through to the last [throw]
    of the [catch] block. *)
Lemma failed_attempt_never_returns (fuel : nat) (content : string)
    (signal : option AbortSignal) (threadId : string) (s s1 : State) (e : Thrown) :
  thread s = Some threadId ->
  tryBody provider content signal threadId s = (Throw e, s1) ->
  forall u : unit, fst (streamMessageRec provider fuel content signal s) <> Normal u.
Proof.
  intros Hthread Htry u.
  rewrite (streamMessageRec_unfold _ _ _ threadId) by exact Hthread.
  rewrite Htry.
  destruct e as [name message|v]; [|discriminate].
  destruct (name =? "AbortError")%string; [discriminate|].
  destruct (retryCount s1 <? maxRetries); [|discriminate].
  destruct fuel as [|fuel]; [discriminate|].
  destruct (streamMessageRec provider fuel content signal _) as [[u'| e' |] s2];
    discriminate.
Qed.

(** [createThread] that the provider refuses leaves the client without
    a thread. *)
Lemma createThread_refused (s : State) (e : Thrown) :
  threadsCreate provider (calls s) = inl e ->
  fst (createThread provider s) = Throw (newError "Failed to create chat thread")
  /\ thread (snd (createThread provider s)) = thread s.
Proof.
  intros Hreply. unfold createThread, tryCatch, bind, call.
  rewrite Hreply. split; reflexivity.
Qed.

End Retry.

(** ** Concrete runs of the conversation client *)

Section Runs.

Import AssistantClient.

Lemma streamMessage_thread_not_initialized_witness :
  streamMessage Demo.inProgress "hello" None (construct "asst_1" 0)
  = (Throw (newError "Thread not initialized"), construct "asst_1" 0).
Proof.
  apply (streamMessage_thread_not_initialized Demo.inProgress "hello" None
           (construct "asst_1" 0)).
  reflexivity.
Defined.

(** A call whose first attempt succeeds: four provider calls, the two
    fragments of the answer each followed by its pacing sleep, and the
    retry counter untouched. *)
Example streamMessage_first_attempt_succeeds :
  streamMessage Demo.succeeds "hi" None Demo.ready
  = (Normal tt,
     mkState "asst_1" (Some "thread_1") 0 500 4
       [ EvMessagesCreate "thread_1" "hi";
         EvRunsCreate "thread_1" "asst_1";
         EvRunsRetrieve "thread_1" "run_1";
         EvMessagesList "thread_1";
         EvYield "a b c d e f g h i j ";
         EvSleep Pacing 50;
         EvYield "k l ";
         EvSleep Pacing 50 ]).
Proof. vm_compute. reflexivity. Qed.

(** A run that stays in progress is polled every second until the
    deadline has passed: 31 polls, then 'Request timed out'. *)
Example waitForRunCompletion_deadline :
  fst (waitForRunCompletion Demo.inProgress "thread_1" "run_1" None Demo.ready)
  = Throw (newError "Request timed out")
  /\ clock (snd (waitForRunCompletion Demo.inProgress "thread_1" "run_1" None
                   Demo.ready)) = 31000
  /\ calls (snd (waitForRunCompletion Demo.inProgress "thread_1" "run_1" None
                   Demo.ready)) = 31%nat.
Proof. repeat split; vm_compute; reflexivity. Qed.

(** C1, on a run: the signal is aborted at 500 ms, while the client
    sleeps between two polls.  The next iteration throws the loop's own
    'Request cancelled', which is a plain [Error]: the [catch] block takes
    it to the retry branch, sleeps the 2000 ms backoff, raises the retry
    counter to 1 and calls the provider again to append the message; only
    the [AbortError] of that call ends the call with 'Request cancelled',
    2100 ms after the loop saw the abort. *)
Theorem cancellation_in_poll_is_retried :
  streamMessage Demo.abortedDuringPoll "hi" (Some (mkSignal (Some 500))) Demo.ready
  = (Throw (newError "Request cancelled"),
     mkState "asst_1" (Some "thread_1") 1 3400 4
       [ EvMessagesCreate "thread_1" "hi";
         EvRunsCreate "thread_1" "asst_1";
         EvRunsRetrieve "thread_1" "run_1";
         EvSleep PollInterval 1000;
         EvSleep Backoff 2000;
         EvMessagesCreate "thread_1" "hi" ]).
Proof. vm_compute. reflexivity. Qed.

(** C2, on a run: two attempts refused by the network, then an attempt
    whose calls all succeed.  There are three attempts, with backoff
    sleeps of 2000 and 4000 ms, and the fragment of the third attempt is
    yielded; but the call then throws 'An unexpected error occurred', and
    the retry counter is left at 2. *)
Theorem retry_then_success_throws :
  streamMessage Demo.failsTwice "hi" None Demo.ready
  = (Throw (newError "An unexpected error occurred"),
     mkState "asst_1" (Some "thread_1") 2 6650 6
       [ EvMessagesCreate "thread_1" "hi";
         EvSleep Backoff 2000;
         EvMessagesCreate "thread_1" "hi";
         EvSleep Backoff 4000;
         EvMessagesCreate "thread_1" "hi";
         EvRunsCreate "thread_1" "asst_1";
         EvRunsRetrieve "thread_1" "run_1";
         EvMessagesList "thread_1";
         EvYield "hello world ";
         EvSleep Pacing 50 ]).
Proof. vm_compute. reflexivity. Qed.

End Runs.

(** ** Sorting with a comparison function *)

Section SortFacts.

Import JsArray.

Context {A : Type}.
Variable compareFn : A -> A -> float.

Local Abbreviation precedes := (JsArray.precedes compareFn).
Local Abbreviation tied := (JsArray.tied compareFn).
Local Abbreviation consistentOn := (JsArray.consistentOn compareFn).
Local Abbreviation insert := (JsArray.insert compareFn).
Local Abbreviation sort := (JsArray.sort compareFn).

Lemma consistentOn_incl (l l' : list A) :
  incl l' l -> consistentOn l -> consistentOn l'.
Proof.
  intros Hincl [Hopp Htrans]. split.
  - intros x y Hx Hy. apply Hopp; apply Hincl; assumption.
  - intros x y z Hx Hy Hz. apply Htrans; apply Hincl; assumption.
Qed.

Lemma insert_perm (x : A) (l : list A) : Permutation (insert x l) (x :: l).
Proof.
  induction l as [|y l IH]; simpl; [apply Permutation_refl|].
  destruct (sign (compareFn x y)); try apply Permutation_refl.
  apply Permutation_trans with (y :: x :: l).
  - apply perm_skip. exact IH.
  - apply perm_swap.
Qed.

Lemma sort_perm (l : list A) : Permutation (sort l) l.
Proof.
  induction l as [|x l IH]; simpl; [apply perm_nil|].
  apply Permutation_trans with (x :: sort l).
  - apply insert_perm.
  - apply perm_skip. exact IH.
Qed.

Lemma insert_sorted (x : A) (l : list A) :
  consistentOn (x :: l) ->
  StronglySorted precedes l -> StronglySorted precedes (insert x l).
Proof.
  intros Hcons Hsorted.
  induction l as [|y l IH]; simpl.
  - constructor; constructor.
  - inversion Hsorted as [|y' l' Hsl Hall]; subst.
    destruct Hcons as [Hopp Htrans].
    destruct (sign (compareFn x y)) eqn:Hxy.
    + constructor; [exact Hsorted|].
      constructor; [unfold JsArray.precedes; congruence|].
      rewrite Forall_forall in *. intros e He.
      apply (Htrans x y e); simpl; auto.
      unfold JsArray.precedes; congruence.
    + constructor; [exact Hsorted|].
      constructor; [unfold JsArray.precedes; congruence|].
      rewrite Forall_forall in *. intros e He.
      apply (Htrans x y e); simpl; auto.
      unfold JsArray.precedes; congruence.
    + constructor.
      * apply IH; [|exact Hsl].
        apply consistentOn_incl with (x :: y :: l); [|split; assumption].
        intros e [He|He]; simpl; auto.
      * rewrite Forall_forall in *. intros e He.
        apply (Permutation_in _ (insert_perm x l)) in He.
        destruct He as [He|He]; [subst e|apply Hall; exact He].
        unfold JsArray.precedes. rewrite (Hopp y x), Hxy; simpl; auto.
        discriminate.
Qed.

(** On a consistent comparison the result is sorted: no element has to
    come before one placed ahead of it. *)
Lemma sort_sorted (l : list A) :
  consistentOn l -> StronglySorted precedes (sort l).
Proof.
  induction l as [|x l IH]; intros Hcons; simpl; [constructor|].
  apply insert_sorted.
  - apply consistentOn_incl with (x :: l); [|exact Hcons].
    intros e [He|He]; [left; exact He|right].
    apply (Permutation_in _ (sort_perm l)). exact He.
  - apply IH. apply consistentOn_incl with (x :: l); [|exact Hcons].
    intros e He. right. exact He.
Qed.

Lemma insert_filter_other (p : A -> bool) (x : A) (l : list A) :
  p x = false -> filter p (insert x l) = filter p l.
Proof.
  intros Hp. induction l as [|y l IH]; simpl; [rewrite Hp; reflexivity|].
  destruct (sign (compareFn x y)); simpl; rewrite ?Hp, ?IH; reflexivity.
Qed.

Lemma insert_filter_tied (z x : A) (l : list A) :
  consistentOn (z :: x :: l) ->
  tied z x = true ->
  filter (tied z) (insert x l) = x :: filter (tied z) l.
Proof.
  intros Hcons Hzx.
  induction l as [|y l IH]; simpl; [rewrite Hzx; reflexivity|].
  destruct (sign (compareFn x y)) eqn:Hxy; simpl; rewrite ?Hzx; try reflexivity.
  assert (Hzy : tied z y = false).
  { destruct (tied z y) eqn:Hzy; [exfalso|reflexivity].
    destruct Hcons as [Hopp Htrans].
    assert (Hxz : precedes x z).
    { unfold JsArray.precedes. rewrite (Hopp x z) by (simpl; auto).
      unfold JsArray.tied in Hzx.
      destruct (sign (compareFn z x)); simpl; congruence. }
    assert (Hzy' : precedes z y).
    { unfold JsArray.precedes. unfold JsArray.tied in Hzy.
      destruct (sign (compareFn z y)); congruence. }
    apply (Htrans x z y) in Hzy'; simpl; auto. }
  rewrite Hzy. apply IH.
  apply consistentOn_incl with (z :: x :: y :: l); [|exact Hcons].
  intros e [He|[He|He]]; simpl; auto.
Qed.

(** The sort is stable: the elements tied with [z] keep the order they
    had before the sort. *)
Lemma sort_stable (l : list A) (z : A) :
  consistentOn (z :: l) ->
  filter (tied z) (sort l) = filter (tied z) l.
Proof.
  induction l as [|x l IH]; intros Hcons; [reflexivity|].
  assert (Hrest : consistentOn (z :: l)).
  { apply consistentOn_incl with (z :: x :: l); [|exact Hcons].
    intros e [He|He]; simpl; auto. }
  simpl. destruct (tied z x) eqn:Hzx.
  - rewrite insert_filter_tied; [rewrite IH by exact Hrest; reflexivity| |exact Hzx].
    apply consistentOn_incl with (z :: x :: l); [|exact Hcons].
    intros e [He|[He|He]]; simpl; auto.
    right; right. apply (Permutation_in _ (sort_perm l)). exact He.
  - rewrite insert_filter_other by exact Hzx. apply IH. exact Hrest.
Qed.

(** [slice(0, k)] keeps the first [k] elements, or all of them. *)
Lemma sliceTo_firstn (k : Z) (l : list A) :
  0 <= k -> sliceTo k l = firstn (Z.to_nat k) l.
Proof.
  intros Hk. unfold sliceTo.
  replace (k <? 0) with false by (symmetry; apply Z.ltb_ge; exact Hk).
  destruct (Z.le_gt_cases k (Z.of_nat (List.length l))) as [Hle|Hgt].
  - rewrite Z.min_l by exact Hle. reflexivity.
  - rewrite Z.min_r by lia. rewrite Nat2Z.id.
    rewrite firstn_all. symmetry. apply firstn_all2. lia.
Qed.

End SortFacts.

(** ** The sign of a difference of two binary64 numbers

    The comparison function of [queryFaissIndex] subtracts two
    similarities, and [sort] looks at the sign of the result.  With
    gradual underflow the rounded difference of two numbers is zero only
    when they are equal, so that sign is the comparison of the two
    numbers.  This is proved from the specification of the binary64
    operations ([SpecFloat]). *)

Section Ieee.

Local Abbreviation fexp64 := (SpecFloat.fexp prec emax).

Lemma digits2_pos_size (m : positive) : digits2_pos m = Pos.size m.
Proof. induction m; simpl; congruence. Qed.

Lemma digits2_pos_bounds (m : positive) :
  2 ^ (Zpos (digits2_pos m) - 1) <= Zpos m < 2 ^ Zpos (digits2_pos m).
Proof.
  rewrite digits2_pos_size. split.
  - pose proof (Pos.size_le m) as H.
    assert (H2 : 2 ^ Zpos (Pos.size m) <= 2 * Zpos m).
    { change (2 * Zpos m) with (Zpos (m~0)). rewrite <- Pos2Z.inj_pow. exact H. }
    replace (Zpos (Pos.size m)) with (Z.succ (Zpos (Pos.size m) - 1)) in H2 by lia.
    rewrite Z.pow_succ_r in H2 by lia. lia.
  - pose proof (Pos.size_gt m) as H.
    rewrite <- Pos2Z.inj_pow. exact H.
Qed.

Lemma fexp64_eq (x : Z) : fexp64 x = Z.max (x - 53) (-1074).
Proof. reflexivity. Qed.

Lemma canonical_bounds (m : positive) (e : Z) :
  canonical_mantissa prec emax m e = true ->
  -1074 <= e
  /\ Zpos (digits2_pos m) <= 53
  /\ (-1074 < e -> Zpos (digits2_pos m) = 53).
Proof.
  unfold canonical_mantissa. rewrite fexp64_eq. intros H.
  apply Z.eqb_eq in H. lia.
Qed.

Lemma iter_xO (d m : positive) : Zpos (Pos.iter xO m d) = Zpos m * 2 ^ Zpos d.
Proof.
  induction d using Pos.peano_ind.
  - simpl. lia.
  - rewrite Pos.iter_succ. rewrite Pos2Z.inj_succ, Z.pow_succ_r by lia.
    change (Zpos (Pos.iter xO m d)~0) with (2 * Zpos (Pos.iter xO m d)).
    rewrite IHd. lia.
Qed.

Lemma shl_align_value (m : positive) (e ez : Z) :
  ez <= e -> Zpos (fst (shl_align m e ez)) = Zpos m * 2 ^ (e - ez).
Proof.
  intros Hle. unfold shl_align.
  destruct (ez - e) as [|p|p] eqn:Hd; simpl.
  - replace (e - ez) with 0 by lia. simpl. lia.
  - lia.
  - rewrite iter_xO. replace (e - ez) with (Zpos p) by lia. reflexivity.
Qed.


Lemma pow2_pos (n : Z) : 0 <= n -> 0 < 2 ^ n.
Proof. intros H. apply Z.pow_pos_nonneg; lia. Qed.

Lemma magnitude_compare (m1 m2 : positive) (e1 e2 : Z) :
  bounded prec emax m1 e1 = true ->
  bounded prec emax m2 e2 = true ->
  (Zpos m1 * 2 ^ (e1 - Z.min e1 e2) ?= Zpos m2 * 2 ^ (e2 - Z.min e1 e2))
  = match e1 ?= e2 with
    | Lt => Lt
    | Gt => Gt
    | Eq => Pos.compare_cont Eq m1 m2
    end.
Proof.
  unfold bounded. intros H1 H2.
  apply andb_true_iff in H1, H2. destruct H1 as [H1 _], H2 as [H2 _].
  apply canonical_bounds in H1, H2.
  destruct H1 as (Hmin1 & Hd1 & Hn1), H2 as (Hmin2 & Hd2 & Hn2).
  pose proof (digits2_pos_bounds m1) as [Hlo1 Hhi1].
  pose proof (digits2_pos_bounds m2) as [Hlo2 Hhi2].
  assert (Hp53 : forall d, d <= 53 -> 2 ^ d <= 2 ^ 53)
    by (intros d Hd; apply Z.pow_le_mono_r; lia).
  destruct (Z.compare_spec e1 e2) as [Heq|Hlt|Hgt].
  - subst e2. rewrite Z.min_id, Z.sub_diag. simpl (2 ^ 0).
    rewrite !Z.mul_1_r. reflexivity.
  - rewrite Z.min_l by lia. rewrite Z.sub_diag. simpl (2 ^ 0). rewrite Z.mul_1_r.
    apply Z.compare_lt_iff.
    rewrite Hn2 in Hlo2 by lia.
    assert (Hstep : 2 ^ 1 <= 2 ^ (e2 - e1)) by (apply Z.pow_le_mono_r; lia).
    change (2 ^ 1) with 2 in Hstep.
    specialize (Hp53 _ Hd1).
    change (2 ^ (53 - 1)) with 4503599627370496 in Hlo2.
    change (2 ^ 53) with 9007199254740992 in Hp53.
    nia.
  - rewrite Z.min_r by lia. rewrite Z.sub_diag. simpl (2 ^ 0). rewrite Z.mul_1_r.
    apply Z.compare_gt_iff.
    rewrite Hn1 in Hlo1 by lia.
    assert (Hstep : 2 ^ 1 <= 2 ^ (e1 - e2)) by (apply Z.pow_le_mono_r; lia).
    change (2 ^ 1) with 2 in Hstep.
    specialize (Hp53 _ Hd2).
    change (2 ^ (53 - 1)) with 4503599627370496 in Hlo1.
    change (2 ^ 53) with 9007199254740992 in Hp53.
    nia.
Qed.

(** The comparison of two finite numbers is the comparison of their
    mantissas brought to the smaller exponent. *)
Lemma finite_compare_aligned (s1 s2 : bool) (m1 m2 : positive) (e1 e2 : Z) :
  bounded prec emax m1 e1 = true ->
  bounded prec emax m2 e2 = true ->
  SFcompare (S754_finite s1 m1 e1) (S754_finite s2 m2 e2)
  = Some (cond_Zopp s1 (Zpos (fst (shl_align m1 e1 (Z.min e1 e2))))
          ?= cond_Zopp s2 (Zpos (fst (shl_align m2 e2 (Z.min e1 e2))))).
Proof.
  intros H1 H2.
  pose proof (magnitude_compare m1 m2 e1 e2 H1 H2) as Hmag.
  rewrite !shl_align_value by lia.
  assert (Hp1 : 0 < Zpos m1 * 2 ^ (e1 - Z.min e1 e2))
    by (apply Z.mul_pos_pos; [lia | apply pow2_pos; lia]).
  assert (Hp2 : 0 < Zpos m2 * 2 ^ (e2 - Z.min e1 e2))
    by (apply Z.mul_pos_pos; [lia | apply pow2_pos; lia]).
  set (a := Zpos m1 * 2 ^ (e1 - Z.min e1 e2)) in *.
  set (b := Zpos m2 * 2 ^ (e2 - Z.min e1 e2)) in *.
  destruct s1, s2; simpl; f_equal.
  - rewrite Z.compare_opp, (Z.compare_antisym a b), Hmag.
    destruct (e1 ?= e2); reflexivity.
  - symmetry. apply Z.compare_lt_iff. lia.
  - symmetry. apply Z.compare_gt_iff. lia.
  - rewrite Hmag. reflexivity.
Qed.


Lemma shr_1_m (r : shr_record) :
  0 <= shr_m r -> shr_m (shr_1 r) = shr_m r / 2.
Proof.
  intros H. rewrite <- Z.div2_div.
  destruct r as [m rr ss]. destruct m as [|[p|p|]|p]; simpl in *; try reflexivity; lia.
Qed.

Lemma iter_shr_m (p : positive) :
  forall r : shr_record,
    0 <= shr_m r -> shr_m (iter_pos shr_1 p r) = shr_m r / 2 ^ Zpos p.
Proof.
  induction p as [p IH|p IH|]; intros r Hr; simpl iter_pos.
  - assert (H1 : 0 <= shr_m (shr_1 r))
      by (rewrite shr_1_m by exact Hr; apply Z.div_pos; lia).
    assert (H2 : 0 <= shr_m (iter_pos shr_1 p (shr_1 r)))
      by (rewrite IH by exact H1; apply Z.div_pos; [exact H1 | apply pow2_pos; lia]).
    rewrite IH by exact H2. rewrite IH by exact H1. rewrite shr_1_m by exact Hr.
    pose proof (pow2_pos (Zpos p) ltac:(lia)) as Hp.
    assert (Hx : 2 ^ Zpos p~1 = 2 * (2 ^ Zpos p * 2 ^ Zpos p)).
    { replace (Zpos p~1) with (1 + (Zpos p + Zpos p)) by lia.
      rewrite !Z.pow_add_r by lia. reflexivity. }
    rewrite Hx. rewrite !Z.div_div by lia. reflexivity.
  - assert (H1 : 0 <= shr_m (iter_pos shr_1 p r))
      by (rewrite IH by exact Hr; apply Z.div_pos; [exact Hr | apply pow2_pos; lia]).
    rewrite IH by exact H1. rewrite IH by exact Hr.
    pose proof (pow2_pos (Zpos p) ltac:(lia)) as Hp.
    assert (Hx : 2 ^ Zpos p~0 = 2 ^ Zpos p * 2 ^ Zpos p).
    { replace (Zpos p~0) with (Zpos p + Zpos p) by lia.
      rewrite Z.pow_add_r by lia. reflexivity. }
    rewrite Hx. rewrite Z.div_div by lia. reflexivity.
  - rewrite shr_1_m by exact Hr. reflexivity.
Qed.

(** Shifting a positive mantissa to its place keeps it positive, and the
    exponent stays in range. *)
Lemma shr_fexp_pos (m : positive) (e : Z) (l : location) :
  -1074 <= e ->
  0 < shr_m (fst (shr_fexp prec emax (Zpos m) e l))
  /\ -1074 <= snd (shr_fexp prec emax (Zpos m) e l).
Proof.
  intros He. unfold shr_fexp. rewrite fexp64_eq.
  cbn [Zdigits2].
  assert (Hm : shr_m (shr_record_of_loc (Zpos m) l) = Zpos m)
    by (destruct l as [|[| |]]; reflexivity).
  pose proof (digits2_pos_bounds m) as [Hlo _].
  set (d := Zpos (digits2_pos m)) in *.
  destruct (Z.max (d + e - 53) (-1074) - e) as [|n|n] eqn:Hn; cbn [shr fst snd].
  - rewrite Hm. lia.
  - rewrite iter_shr_m by (rewrite Hm; lia). rewrite Hm.
    split; [|lia].
    apply Z.div_str_pos. split; [apply pow2_pos; lia|].
    apply Z.le_trans with (2 ^ (d - 1)); [|exact Hlo].
    apply Z.pow_le_mono_r; lia.
  - rewrite Hm. lia.
Qed.

Lemma round_nearest_even_pos (m : Z) (l : location) :
  0 < m -> 0 < round_nearest_even m l.
Proof.
  intros H. destruct l as [|[| |]]; simpl; try lia.
  destruct (Z.even m); lia.
Qed.

(** Rounding a positive mantissa never gives zero or NaN, and keeps the
    sign. *)
Lemma binary_round_aux_signed (s : bool) (m : positive) (e : Z) (l : location) :
  -1074 <= e ->
  (exists m' e', binary_round_aux prec emax s (Zpos m) e l = S754_finite s m' e')
  \/ binary_round_aux prec emax s (Zpos m) e l = S754_infinity s.
Proof.
  intros He. unfold binary_round_aux.
  destruct (shr_fexp_pos m e l He) as [Hpos1 He1].
  destruct (shr_fexp prec emax (Zpos m) e l) as [mrs1 e1]. cbn [fst snd] in *.
  pose proof (round_nearest_even_pos (shr_m mrs1) (loc_of_shr_record mrs1) Hpos1)
    as Hround.
  destruct (round_nearest_even (shr_m mrs1) (loc_of_shr_record mrs1))
    as [|m2|m2]; try lia.
  destruct (shr_fexp_pos m2 e1 loc_Exact He1) as [Hpos2 _].
  destruct (shr_fexp prec emax (Zpos m2) e1 loc_Exact) as [mrs2 e2].
  cbn [fst snd] in *.
  destruct (shr_m mrs2) as [|m3|m3]; try lia.
  destruct (e2 <=? emax - prec); [left; eauto | right; reflexivity].
Qed.

Lemma binary_round_signed (s : bool) (m : positive) (e : Z) :
  -1074 <= e ->
  (exists m' e', binary_round prec emax s m e = S754_finite s m' e')
  \/ binary_round prec emax s m e = S754_infinity s.
Proof.
  intros He. unfold binary_round.
  destruct (shl_align m e (SpecFloat.fexp prec emax (Zpos (digits2_pos m) + e)))
    as [mz ez] eqn:Halign.
  apply binary_round_aux_signed.
  unfold shl_align in Halign. rewrite fexp64_eq in Halign.
  destruct (Z.max (Zpos (digits2_pos m) + e - 53) (-1074) - e);
    injection Halign as _ <-; lia.
Qed.


Local Abbreviation SFsign r :=
  (if SFltb r (S754_zero false) then Lt
   else if SFltb (S754_zero false) r then Gt else Eq).

(** The sign of a difference is the comparison of its operands. *)
Lemma SFsub_sign (x y : spec_float) :
  valid_binary x = true -> valid_binary y = true ->
  SFsign (SF64sub y x)
  = match SFcompare x y with
    | Some Lt => Gt
    | Some Gt => Lt
    | _ => Eq
    end.
Proof.
  intros Hx Hy.
  destruct x as [sx|sx| |sx mx ex], y as [sy|sy| |sy my ey];
    try solve [repeat match goal with b : bool |- _ => destruct b end; reflexivity].
  simpl in Hx, Hy.
  rewrite (finite_compare_aligned sx sy mx my ex ey Hx Hy).
  unfold SF64sub, SFsub. rewrite (Z.min_comm ey ex).
  assert (Hez : -1074 <= Z.min ex ey).
  { unfold bounded in Hx, Hy. apply andb_true_iff in Hx, Hy.
    destruct Hx as [Hx _], Hy as [Hy _].
    apply canonical_bounds in Hx, Hy. lia. }
  set (X := cond_Zopp sx (Zpos (fst (shl_align mx ex (Z.min ex ey))))).
  set (Y := cond_Zopp sy (Zpos (fst (shl_align my ey (Z.min ex ey))))).
  destruct (Z.compare_spec X Y) as [Heq|Hlt|Hgt].
  - rewrite Heq, Z.sub_diag. reflexivity.
  - destruct (Y - X) as [|d|d] eqn:Hd; try lia.
    unfold binary_normalize.
    destruct (binary_round_signed false d (Z.min ex ey) Hez)
      as [(m' & e' & ->)| ->]; reflexivity.
  - destruct (Y - X) as [|d|d] eqn:Hd; try lia.
    unfold binary_normalize.
    destruct (binary_round_signed true d (Z.min ex ey) Hez)
      as [(m' & e' & ->)| ->]; reflexivity.
Qed.

Lemma SFcompare_antisym (x y : spec_float) :
  SFcompare y x = option_map CompOpp (SFcompare x y).
Proof.
  destruct x as [sx|sx| |sx mx ex], y as [sy|sy| |sy my ey]; simpl;
    try solve [repeat match goal with b : bool |- _ => destruct b end; reflexivity].
  change (Pos.compare_cont Eq my mx) with (Pos.compare my mx).
  change (Pos.compare_cont Eq mx my) with (Pos.compare mx my).
  rewrite (Z.compare_antisym ex ey), (Pos.compare_antisym mx my).
  destruct sx, sy; simpl; try reflexivity;
    destruct (ex ?= ey); simpl; try reflexivity;
    destruct (mx ?= my)%positive; reflexivity.
Qed.

(** Between comparable numbers, "not below" is transitive. *)
Lemma SFcompare_lt_split (x y z : spec_float) :
  y <> S754_nan ->
  SFcompare x z = Some Lt ->
  SFcompare x y = Some Lt \/ SFcompare y z = Some Lt.
Proof.
  intros Hy Hxz.
  destruct x as [sx|sx| |sx mx ex], y as [sy|sy| |sy my ey], z as [sz|sz| |sz mz ez];
    try congruence; simpl in *;
    try change (Pos.compare_cont Eq mx my) with (Pos.compare mx my) in *;
    try change (Pos.compare_cont Eq my mz) with (Pos.compare my mz) in *;
    try change (Pos.compare_cont Eq mx mz) with (Pos.compare mx mz) in *;
    repeat match goal with b : bool |- _ => destruct b end;
    try discriminate; auto;
    repeat match goal with
           | H : context [Z.compare ?a ?b] |- _ =>
               destruct (Z.compare_spec a b)
           | |- context [Z.compare ?a ?b] =>
               destruct (Z.compare_spec a b)
           | H : context [Pos.compare ?a ?b] |- _ =>
               destruct (Pos.compare_spec a b)
           | |- context [Pos.compare ?a ?b] =>
               destruct (Pos.compare_spec a b)
           end;
    simpl in *; try discriminate; auto; exfalso; lia.
Qed.


(** [sort] reads [y - x] as the comparison of [x] with [y]. *)
Lemma sign_sub (x y : float) :
  JsArray.sign (PrimFloat.sub y x)
  = match SFcompare (Prim2SF x) (Prim2SF y) with
    | Some Lt => Gt
    | Some Gt => Lt
    | _ => Eq
    end.
Proof.
  unfold JsArray.sign. rewrite !ltb_spec, sub_spec.
  change (Prim2SF PrimFloat.zero) with (S754_zero false).
  apply SFsub_sign; apply Prim2SF_valid.
Qed.

Lemma SFcompare_refl (x : spec_float) :
  x <> S754_nan -> SFcompare x x = Some Eq.
Proof.
  destruct x as [s|s| |s m e]; intros H; try congruence;
    try (destruct s; reflexivity).
  simpl. change (Pos.compare_cont Eq m m) with (Pos.compare m m).
  rewrite Z.compare_refl, Pos.compare_refl. destruct s; reflexivity.
Qed.

(** A number is NaN exactly when its specification value is. *)
Lemma isNaN_false (x : float) :
  JsNumber.isNaN x = false <-> Prim2SF x <> S754_nan.
Proof.
  unfold JsNumber.isNaN. rewrite eqb_spec. unfold SFeqb. split.
  - intros H Hnan. rewrite Hnan in H. discriminate.
  - intros H. rewrite (SFcompare_refl _ H). reflexivity.
Qed.

(** Two numbers that are not NaN are comparable. *)
Lemma SFcompare_comparable (x y : spec_float) :
  x <> S754_nan -> y <> S754_nan -> exists c, SFcompare x y = Some c.
Proof.
  intros Hx Hy.
  destruct x as [sx|sx| |sx mx ex], y as [sy|sy| |sy my ey];
    try congruence; simpl; eauto.
Qed.

End Ieee.

(** ** The knowledge-graph client *)

Section GraphRAGFacts.

Import GraphRAG.

Lemma In_firstn {A : Type} (n : nat) :
  forall (l : list A) (e : A), In e (firstn n l) -> In e l.
Proof.
  induction n as [|n IH]; intros l e He; [contradiction|].
  destruct l as [|x l]; [contradiction|].
  destruct He as [He|He]; [left; exact He | right; apply IH; exact He].
Qed.

Lemma StronglySorted_firstn {A : Type} (R : A -> A -> Prop) (n : nat) :
  forall l : list A, StronglySorted R l -> StronglySorted R (firstn n l).
Proof.
  induction n as [|n IH]; intros l Hs; [constructor|].
  destruct l as [|x l]; [constructor|].
  inversion Hs as [|x' l' Hsl Hall]; subst. simpl. constructor.
  - apply IH. exact Hsl.
  - rewrite Forall_forall in *. intros e He. apply Hall.
    apply (In_firstn n l). exact He.
Qed.

Lemma StronglySorted_app_inv {A : Type} (R : A -> A -> Prop) (l1 l2 : list A) :
  StronglySorted R (l1 ++ l2) ->
  forall a b : A, In a l1 -> In b l2 -> R a b.
Proof.
  induction l1 as [|x l1 IH]; intros Hs a b Ha Hb; [contradiction|].
  simpl in Hs. inversion Hs as [|x' l' Hsl Hall]; subst.
  destruct Ha as [Ha|Ha].
  - subst a. rewrite Forall_forall in Hall. apply Hall.
    apply in_or_app. right. exact Hb.
  - apply IH; assumption.
Qed.

(** What [sort] makes of [bySimilarity]: the comparison of the two
    similarities. *)
Lemma bySimilarity_sign (a b : Scored) :
  JsArray.sign (bySimilarity a b)
  = match SFcompare (Prim2SF (similarity a)) (Prim2SF (similarity b)) with
    | Some Lt => Gt
    | Some Gt => Lt
    | _ => Eq
    end.
Proof. unfold bySimilarity. apply sign_sub. Qed.

Local Abbreviation numeric :=
  (fun r : Scored => JsNumber.isNaN (similarity r) = false).

(** [a] does not have to come after [b] exactly when the similarity of
    [b] is not above that of [a]. *)
Lemma precedes_leb (a b : Scored) :
  numeric a -> numeric b ->
  JsArray.precedes bySimilarity a b
  <-> PrimFloat.leb (similarity b) (similarity a) = true.
Proof.
  intros Ha Hb. apply isNaN_false in Ha, Hb.
  unfold JsArray.precedes. rewrite bySimilarity_sign, leb_spec. unfold SFleb.
  rewrite (SFcompare_antisym (Prim2SF (similarity a)) (Prim2SF (similarity b))).
  destruct (SFcompare_comparable _ _ Ha Hb) as [c Hc]. rewrite Hc.
  destruct c; simpl; split; intros H; congruence.
Qed.

(** Two entries compare as equal exactly when their similarities are
    equal. *)
Lemma tied_eqb (z r : Scored) :
  numeric z -> numeric r ->
  JsArray.tied bySimilarity z r = PrimFloat.eqb (similarity r) (similarity z).
Proof.
  intros Hz Hr. apply isNaN_false in Hz, Hr.
  unfold JsArray.tied. rewrite bySimilarity_sign, eqb_spec. unfold SFeqb.
  rewrite (SFcompare_antisym (Prim2SF (similarity z)) (Prim2SF (similarity r))).
  destruct (SFcompare_comparable _ _ Hz Hr) as [c Hc]. rewrite Hc.
  destruct c; reflexivity.
Qed.

(** Without NaN the comparison function is consistent, which is what
    ECMAScript asks of it for [sort] to have a defined result. *)
Lemma consistent_without_NaN (l : list Scored) :
  Forall numeric l -> JsArray.consistentOn bySimilarity l.
Proof.
  intros Hl. rewrite Forall_forall in Hl. split.
  - intros x y _ _. rewrite !bySimilarity_sign.
    rewrite (SFcompare_antisym (Prim2SF (similarity y)) (Prim2SF (similarity x))).
    destruct (SFcompare (Prim2SF (similarity y)) (Prim2SF (similarity x)))
      as [[| |]|]; reflexivity.
  - intros x y z _ Hy _. unfold JsArray.precedes. rewrite !bySimilarity_sign.
    intros Hxy Hyz Hxz.
    assert (Hlt : SFcompare (Prim2SF (similarity x)) (Prim2SF (similarity z))
                  = Some Lt).
    { destruct (SFcompare (Prim2SF (similarity x)) (Prim2SF (similarity z)))
        as [[| |]|]; congruence. }
    apply (SFcompare_lt_split _ (Prim2SF (similarity y))) in Hlt.
    + destruct Hlt as [Hlt|Hlt]; rewrite Hlt in *; congruence.
    + apply isNaN_false. apply Hl. exact Hy.
Qed.

Lemma StronglySorted_weaken {A : Type} (R R' : A -> A -> Prop) (l : list A) :
  (forall a b : A, In a l -> In b l -> R a b -> R' a b) ->
  StronglySorted R l -> StronglySorted R' l.
Proof.
  induction l as [|x l IH]; intros Himpl Hs; [constructor|].
  inversion Hs as [|x' l' Hsl Hall]; subst. constructor.
  - apply IH; [|exact Hsl]. intros a b Ha Hb. apply Himpl; right; assumption.
  - rewrite Forall_forall in *. intros e He.
    apply Himpl; [left; reflexivity | right; exact He | apply Hall; exact He].
Qed.

(** Without NaN the sorted array is in non-increasing order of
    similarity. *)
Lemma sort_by_similarity (l : list Scored) :
  Forall numeric l ->
  StronglySorted (fun a b => PrimFloat.leb (similarity b) (similarity a) = true)
                 (JsArray.sort bySimilarity l).
Proof.
  intros Hl.
  apply StronglySorted_weaken with (R := JsArray.precedes bySimilarity).
  - rewrite Forall_forall in Hl. intros a b Ha Hb.
    apply precedes_leb; apply Hl;
      apply (Permutation_in _ (sort_perm bySimilarity l)); assumption.
  - apply sort_sorted. apply consistent_without_NaN. exact Hl.
Qed.

(** C5, as the code has it: for a breadth [k >= 0] and a query for which
    no computed similarity is NaN, [queryFaissIndex] returns [min(k, N)]
    entries, [N] being the number of stored vectors; with the entries left
    out they are the computed entries; the result is in non-increasing
    order of similarity; no entry left out has a similarity above that of
    an entry returned; the entries of equal similarity come in the order
    in which [Object.entries] enumerates the embeddings; and the list
    [nodeNames] plays no part. *)
Theorem queryFaissIndex_ranking (this : GraphRAGClient)
    (queryEmbedding : list float) (k : Z) :
  0 <= k ->
  Forall (fun r => JsNumber.isNaN (similarity r) = false)
         (similarities this queryEmbedding) ->
  let scored := similarities this queryEmbedding in
  let result := queryFaissIndex this queryEmbedding k in
  let others := skipn (Z.to_nat k) (JsArray.sort bySimilarity scored) in
  List.length result = Nat.min (Z.to_nat k) (List.length (nodeEmbeddings this))
  /\ Permutation (result ++ others) scored
  /\ StronglySorted
       (fun a b => PrimFloat.leb (similarity b) (similarity a) = true) result
  /\ (forall a b : Scored, In a result -> In b others ->
        PrimFloat.leb (similarity b) (similarity a) = true)
  /\ (forall z : Scored, In z scored ->
        filter (fun r => PrimFloat.eqb (similarity r) (similarity z)) scored
        = filter (fun r => PrimFloat.eqb (similarity r) (similarity z)) result
          ++ filter (fun r => PrimFloat.eqb (similarity r) (similarity z)) others)
  /\ (forall (names : list string) (flag : bool),
        queryFaissIndex (mkClient (nodeEmbeddings this) names flag) queryEmbedding k
        = result).
Proof.
  intros Hk Hnum scored result others.
  pose proof (consistent_without_NaN scored Hnum) as Hcons.
  assert (Hresult : result = firstn (Z.to_nat k) (JsArray.sort bySimilarity scored)).
  { unfold result, queryFaissIndex. apply sliceTo_firstn. exact Hk. }
  pose proof (sort_perm bySimilarity scored) as Hperm.
  assert (Hcut : result ++ others = JsArray.sort bySimilarity scored).
  { rewrite Hresult. apply firstn_skipn. }
  assert (Hin : forall r, In r (result ++ others) -> numeric r).
  { intros r Hr. rewrite Hcut in Hr.
    apply (Permutation_in _ Hperm) in Hr.
    rewrite Forall_forall in Hnum. apply Hnum. exact Hr. }
  assert (Hres : forall r, In r result -> numeric r)
    by (intros r Hr; apply Hin; apply in_or_app; left; exact Hr).
  assert (Hoth : forall r, In r others -> numeric r)
    by (intros r Hr; apply Hin; apply in_or_app; right; exact Hr).
  split; [|split; [|split; [|split; [|split]]]].
  - rewrite Hresult, length_firstn.
    rewrite (Permutation_length Hperm).
    unfold scored, similarities. rewrite length_map. reflexivity.
  - rewrite Hcut. exact Hperm.
  - rewrite Hresult. apply StronglySorted_firstn.
    apply sort_by_similarity. exact Hnum.
  - apply StronglySorted_app_inv. rewrite Hcut.
    apply sort_by_similarity. exact Hnum.
  - intros z Hz.
    assert (Hznum : numeric z) by (rewrite Forall_forall in Hnum; apply Hnum; exact Hz).
    assert (Htied : forall l : list Scored,
               (forall r, In r l -> numeric r) ->
               filter (fun r => PrimFloat.eqb (similarity r) (similarity z)) l
               = filter (JsArray.tied bySimilarity z) l).
    { intros l Hl. apply filter_ext_in. intros r Hr.
      symmetry. apply tied_eqb; [exact Hznum | apply Hl; exact Hr]. }
    rewrite (Htied scored), (Htied result Hres), (Htied others Hoth)
      by (rewrite Forall_forall in Hnum; exact Hnum).
    rewrite <- filter_app, Hcut.
    symmetry. apply sort_stable.
    apply consistentOn_incl with scored; [|exact Hcons].
    intros e [He|He]; [subst e; exact Hz | exact He].
  - intros names flag. reflexivity.
Qed.

Lemma queryFaissIndex_ranking_witness :
  List.length (queryFaissIndex Demo.loaded [1%float; 0%float] 2) = 2%nat
  /\ map name (queryFaissIndex Demo.loaded [1%float; 0%float] 2)
     = ["yield_rate"; "admit_rate"]
  /\ StronglySorted
       (fun a b => PrimFloat.leb (similarity b) (similarity a) = true)
       (queryFaissIndex Demo.loaded [1%float; 0%float] 2).
Proof.
  destruct (queryFaissIndex_ranking Demo.loaded [1%float; 0%float] 2)
    as (Hlen & _ & Hsorted & _).
  - discriminate.
  - repeat constructor.
  - split; [exact Hlen | split; [vm_compute; reflexivity | exact Hsorted]].
Defined.

(** C5, the claim as written fails: the client loaded from the two
    artifacts holds the names in the order admit_rate, yield_rate, unitid,
    and the two best entries for the query have the same similarity 1; yet
    [queryFaissIndex] returns yield_rate ahead of admit_rate, the order of
    the embeddings object. *)
Lemma queryFaissIndex_ties_ignore_nodeNames :
  loadData (Demo.okResponse Demo.embeddingsArtifact)
           (Demo.okResponse Demo.namesArtifact) construct
  = (Normal tt, Demo.loaded)
  /\ nodeNames Demo.loaded = ["admit_rate"; "yield_rate"; "unitid"]
  /\ map name (queryFaissIndex Demo.loaded [1%float; 0%float] 2)
     = ["yield_rate"; "admit_rate"]
  /\ map (fun r => PrimFloat.eqb (similarity r) 1%float)
         (queryFaissIndex Demo.loaded [1%float; 0%float] 2)
     = [true; true].
Proof. repeat split; vm_compute; reflexivity. Qed.

(** C8, as the code has it: [loadData] succeeds exactly when both
    fetches resolve with an [ok] response whose body can be read, and it
    then stores the embeddings as they are and the non-empty lines of the
    names text, and sets [initialized]; the keys, the names and the
    dimensions of the vectors are not compared. *)
Theorem loadData_succeeds_iff
    (fetchEmbeddings : Thrown + Response (list (string * list float)))
    (fetchNames : Thrown + Response string)
    (this this' : GraphRAGClient) :
  loadData fetchEmbeddings fetchNames this = (Normal tt, this')
  <-> exists (statusEmbeddings statusNames : string)
             (embeddings : list (string * list float)) (nodeNamesText : string),
        fetchEmbeddings = inr (mkResponse true statusEmbeddings (inr embeddings))
        /\ fetchNames = inr (mkResponse true statusNames (inr nodeNamesText))
        /\ this' = mkClient embeddings
                     (filter JsString.truthy (JsString.split "010" nodeNamesText))
                     true.
Proof.
  split.
  - unfold loadData. intros Hload.
    destruct fetchEmbeddings as [e|[ok1 st1 [e|embeddings]]]; simpl in Hload;
      try discriminate; destruct ok1; simpl in Hload; try discriminate.
    destruct fetchNames as [e|[ok2 st2 [e|text]]]; simpl in Hload;
      try discriminate; destruct ok2; simpl in Hload; try discriminate.
    exists st1, st2, embeddings, text.
    repeat split. congruence.
  - intros (st1 & st2 & embeddings & text & He & Hn & Ht). subst. reflexivity.
Qed.

(** C8, the claim as written fails: the embeddings are keyed admit_rate
    and yield_rate, with vectors of dimensions 2 and 3, and the names are
    unitid and zip; [loadData] succeeds and the client is initialized with
    both collections as they came. *)
Lemma loadData_accepts_mismatch :
  loadData (Demo.okResponse Demo.mismatchedEmbeddings)
           (Demo.okResponse Demo.mismatchedNames) construct
  = (Normal tt, mkClient Demo.mismatchedEmbeddings ["unitid"; "zip"] true)
  /\ map fst Demo.mismatchedEmbeddings = ["admit_rate"; "yield_rate"]
  /\ map (fun entry => List.length (snd entry)) Demo.mismatchedEmbeddings
     = [2%nat; 3%nat].
Proof. repeat split. Qed.

(** C9: [fetchRelationships "parent_ed_id"] is the two universal
    relationships (EXISTS_IN directory, PROVIDED_BY ipeds) followed by
    IDENTIFIES parent_ed.  The function is a closed term of the embedding:
    it reads no state and calls no provider, so every invocation yields
    this same value. *)
Theorem fetchRelationships_parent_ed_id :
  fetchRelationships "parent_ed_id"
  = [ mkRelationship "EXISTS_IN" "directory";
      mkRelationship "PROVIDED_BY" "ipeds";
      mkRelationship "IDENTIFIES" "parent_ed" ].
Proof. reflexivity. Qed.

End GraphRAGFacts.

(** ** The chat component *)

Section ChatFacts.

Import Chat.

Variable botId : Z.

Local Abbreviation isBotTurn := (fun msg : Message => id msg =? botId).

Lemma find_updateMessage (target : Z) (f : Message -> Message) (l : list Message) :
  (forall msg, id (f msg) = id msg) ->
  find isBotTurn (updateMessage target f l)
  = option_map (fun msg => if id msg =? target then f msg else msg)
               (find isBotTurn l).
Proof.
  intros Hid. induction l as [|x l IH]; [reflexivity|].
  simpl. destruct (id x =? target) eqn:Hx.
  - rewrite Hid. destruct (id x =? botId); [simpl; rewrite Hx; reflexivity | exact IH].
  - destruct (id x =? botId); [simpl; rewrite Hx; reflexivity | exact IH].
Qed.

Lemma find_filtered_out (l : list Message) :
  find isBotTurn (filter (fun msg => negb (id msg =? botId)) l) = None.
Proof.
  induction l as [|x l IH]; [reflexivity|].
  simpl. destruct (id x =? botId) eqn:Hx; simpl; [exact IH|].
  rewrite Hx. exact IH.
Qed.

Lemma find_skip_others (l l' : list Message) :
  Forall (fun msg => id msg <> botId) l ->
  find isBotTurn (l ++ l') = find isBotTurn l'.
Proof.
  induction 1 as [|x l Hx _ IH]; [reflexivity|].
  simpl. apply Z.eqb_neq in Hx. rewrite Hx. exact IH.
Qed.

Local Abbreviation unannotated := (Chat.unannotated botId).

(** A click on the cancel button changes [isLoading] and nothing else. *)
Lemma react_cancel (c : Component) :
  messages (react c CancelRequest) = messages c
  /\ input (react c CancelRequest) = input c
  /\ error (react c CancelRequest) = error c
  /\ task (react c CancelRequest) = task c
  /\ knowledgeGraphPromise (react c CancelRequest) = knowledgeGraphPromise c
  /\ (isLoading c = false -> isLoading (react c CancelRequest) = false).
Proof.
  unfold react.
  destruct (isLoading c && negb (errorShown c))%bool; repeat split; auto.
Qed.

(** Once the handler has finished, no wake-up touches the messages. *)
Lemma react_idle (c : Component) (w : Wake) :
  task c = Idle ->
  task (react c w) = Idle /\ messages (react c w) = messages c.
Proof.
  intros Hidle.
  destruct w;
    try (destruct (react_cancel c) as (Hm & _ & _ & Ht & _);
         split; [rewrite Ht; exact Hidle | exact Hm]);
    unfold react; rewrite Hidle;
    try (split; [exact Hidle | reflexivity]);
    destruct (knowledgeGraphPromise c); split; try exact Hidle; reflexivity.
Qed.

Lemma run_idle (ws : list Wake) :
  forall c : Component, task c = Idle -> messages (run ws c) = messages c.
Proof.
  induction ws as [|w ws IH]; intros c Hidle; [reflexivity|].
  destruct (react_idle c w Hidle) as [Ht Hm].
  simpl. unfold run in IH. rewrite IH by exact Ht. exact Hm.
Qed.

(** While the stream goes on, the handler stays in its loop and the
    assistant turn stays without annotation. *)
Lemma react_goes_on (c : Component) (w : Wake) :
  task c = Streaming botId -> unannotated c -> streamGoesOn w = true ->
  task (react c w) = Streaming botId /\ unannotated (react c w).
Proof.
  intros Htask Hun Hw.
  destruct w as [chunk| | e |nodes|e|]; try discriminate;
    [unfold react; rewrite Htask ..|].
  - split; [reflexivity|].
    intros msg Hmsg. unfold botMessage in Hmsg. cbn [messages] in Hmsg.
    rewrite find_updateMessage in Hmsg by reflexivity.
    destruct (find isBotTurn (messages c)) as [m0|] eqn:Hfind; [|discriminate].
    simpl in Hmsg. injection Hmsg as <-.
    destruct (id m0 =? botId); [simpl|]; apply Hun; exact Hfind.
  - destruct (knowledgeGraphPromise c); split;
      first [exact Htask | exact Hun | reflexivity].
  - destruct (knowledgeGraphPromise c); split;
      first [exact Htask | exact Hun | reflexivity].
  - destruct (react_cancel c) as (Hm & _ & _ & Ht & _).
    split; [rewrite Ht; exact Htask|].
    intros msg Hmsg. apply Hun. unfold botMessage in *. rewrite <- Hm. exact Hmsg.
Qed.

(** When the stream throws, the handler finishes and the assistant turn
    is left without annotation. *)
Lemma react_throw (c : Component) (e : Thrown) :
  task c = Streaming botId -> unannotated c ->
  task (react c (StreamThrow e)) = Idle /\ unannotated (react c (StreamThrow e)).
Proof.
  intros Htask Hun. unfold react. rewrite Htask.
  split; [reflexivity|].
  intros msg Hmsg. unfold botMessage, handleError in Hmsg. cbn [messages] in Hmsg.
  destruct (isCancellation e).
  - rewrite find_filtered_out in Hmsg. discriminate.
  - rewrite find_updateMessage in Hmsg by reflexivity.
    destruct (find isBotTurn (messages c)) as [m0|] eqn:Hfind; [|discriminate].
    simpl in Hmsg. injection Hmsg as <-.
    destruct (id m0 =? botId); [simpl|]; apply Hun; exact Hfind.
Qed.

(** The annotation is attached only once the stream has completed. *)
Lemma annotation_after_stream (ws : list Wake) :
  forall c : Component,
    task c = Streaming botId -> unannotated c ->
    forall msg, botMessage botId (run ws c) = Some msg ->
                knowledgeGraph msg <> None ->
                streamCompleted ws = true.
Proof.
  induction ws as [|w ws IH]; intros c Htask Hun msg Hmsg Hkg.
  - exfalso. apply Hkg. apply Hun. exact Hmsg.
  - destruct (streamGoesOn w) eqn:Hw.
    + destruct (react_goes_on c w Htask Hun Hw) as [Ht' Hun'].
      replace (streamCompleted (w :: ws)) with (streamCompleted ws)
        by (destruct w; try discriminate; reflexivity).
      apply (IH (react c w) Ht' Hun' msg); assumption.
    + destruct w as [chunk| | e |nodes|e|]; try discriminate; [reflexivity|].
      exfalso. apply Hkg.
      destruct (react_throw c e Htask Hun) as [Ht' Hun'].
      apply Hun'. unfold botMessage in *.
      change (run (StreamThrow e :: ws) c)
        with (run ws (react c (StreamThrow e))) in Hmsg.
      rewrite (run_idle ws (react c (StreamThrow e)) Ht') in Hmsg. exact Hmsg.
Qed.

Lemma run_app (ws1 ws2 : list Wake) (c : Component) :
  run (ws1 ++ ws2) c = run ws2 (run ws1 c).
Proof. unfold run. apply fold_left_app. Qed.

Lemma botMessage_id (c : Component) (msg : Message) :
  botMessage botId c = Some msg -> (id msg =? botId) = true.
Proof.
  unfold botMessage. intros H.
  apply (find_some (fun m => id m =? botId)) in H. apply H.
Qed.

(** A fragment is appended to the assistant turn. *)
Lemma react_chunk (c : Component) (msg : Message) (chunk : string) :
  task c = Streaming botId ->
  botMessage botId c = Some msg ->
  task (react c (Chunk chunk)) = Streaming botId
  /\ knowledgeGraphPromise (react c (Chunk chunk)) = knowledgeGraphPromise c
  /\ botMessage botId (react c (Chunk chunk))
     = Some (mkMessage (id msg) (content msg ++ chunk) (isBot msg)
                       (timestamp msg) (status msg) (knowledgeGraph msg)).
Proof.
  intros Htask Hmsg. pose proof (botMessage_id c msg Hmsg) as Hid.
  unfold react. rewrite Htask. repeat split.
  unfold botMessage in *. cbn [messages].
  rewrite find_updateMessage by reflexivity.
  rewrite Hmsg. simpl. rewrite Hid. reflexivity.
Qed.

Lemma run_chunks (chunks : list string) :
  forall (c : Component) (msg : Message),
    task c = Streaming botId ->
    botMessage botId c = Some msg ->
    task (run (map Chunk chunks) c) = Streaming botId
    /\ knowledgeGraphPromise (run (map Chunk chunks) c) = knowledgeGraphPromise c
    /\ botMessage botId (run (map Chunk chunks) c)
       = Some (mkMessage (id msg) (content msg ++ JsString.concatAll chunks)
                         (isBot msg) (timestamp msg) (status msg)
                         (knowledgeGraph msg)).
Proof.
  induction chunks as [|chunk chunks IH]; intros c msg Htask Hmsg.
  - simpl. repeat split; try assumption.
    rewrite append_empty_r. destruct msg; exact Hmsg.
  - destruct (react_chunk c msg chunk Htask Hmsg) as (Ht & Hp & Hm).
    destruct (IH _ _ Ht Hm) as (Ht' & Hp' & Hm').
    change (run (map Chunk (chunk :: chunks)) c)
      with (run (map Chunk chunks) (react c (Chunk chunk))).
    repeat split; [exact Ht' | congruence |].
    rewrite Hm'. cbn [id content isBot timestamp status knowledgeGraph].
    simpl JsString.concatAll. rewrite append_assoc. reflexivity.
Qed.

(** While the stream goes on, the assistant turn stays in the list. *)
Lemma run_goes_on (pre : list Wake) :
  Forall (fun w => streamGoesOn w = true) pre ->
  forall (c : Component) (msg : Message),
    task c = Streaming botId ->
    botMessage botId c = Some msg ->
    knowledgeGraph msg = None ->
    task (run pre c) = Streaming botId
    /\ exists msg', botMessage botId (run pre c) = Some msg'
                    /\ knowledgeGraph msg' = None.
Proof.
  induction 1 as [|w pre Hw _ IH]; intros c msg Htask Hmsg Hkg.
  - split; [exact Htask|]. exists msg. split; assumption.
  - change (run (w :: pre) c) with (run pre (react c w)).
    destruct w as [chunk| | e |nodes|e|]; try discriminate.
    + destruct (react_chunk c msg chunk Htask Hmsg) as (Ht & _ & Hm).
      apply (IH _ _ Ht Hm). exact Hkg.
    + assert (Hsame : task (react c (RetrievalResolve nodes)) = Streaming botId
                      /\ messages (react c (RetrievalResolve nodes)) = messages c).
      { unfold react. rewrite Htask. destruct (knowledgeGraphPromise c);
          split; first [exact Htask | reflexivity]. }
      destruct Hsame as [Ht Hm].
      apply (IH _ msg Ht); [|exact Hkg].
      unfold botMessage in *. rewrite Hm. exact Hmsg.
    + assert (Hsame : task (react c (RetrievalReject e)) = Streaming botId
                      /\ messages (react c (RetrievalReject e)) = messages c).
      { unfold react. rewrite Htask. destruct (knowledgeGraphPromise c);
          split; first [exact Htask | reflexivity]. }
      destruct Hsame as [Ht Hm].
      apply (IH _ msg Ht); [|exact Hkg].
      unfold botMessage in *. rewrite Hm. exact Hmsg.
    + destruct (react_cancel c) as (Hm & _ & _ & Ht & _).
      apply (IH _ msg); [rewrite Ht; exact Htask | | exact Hkg].
      unfold botMessage in *. rewrite Hm. exact Hmsg.
Qed.

(** The outcome of a stream that throws. *)
Lemma react_throw_outcome (c : Component) (msg : Message) (e : Thrown) :
  task c = Streaming botId ->
  botMessage botId c = Some msg ->
  task (react c (StreamThrow e)) = Idle
  /\ botMessage botId (react c (StreamThrow e))
     = if isCancellation e then None
       else Some (mkMessage (id msg) "Failed to generate response" (isBot msg)
                            (timestamp msg) failed (knowledgeGraph msg)).
Proof.
  intros Htask Hmsg. pose proof (botMessage_id c msg Hmsg) as Hid.
  unfold react. rewrite Htask. split; [reflexivity|].
  unfold botMessage, handleError in *. cbn [messages].
  destruct (isCancellation e).
  - apply find_filtered_out.
  - rewrite find_updateMessage by reflexivity.
    rewrite Hmsg. simpl. rewrite Hid. reflexivity.
Qed.

(** The annotation is attached when the handler is delivered the
    retrieval result. *)
Lemma deliver_outcome (c : Component) (msg : Message)
    (nodes : list NodeDetails) (p : PromiseState) :
  botMessage botId c = Some msg ->
  botMessage botId (deliver botId nodes p c)
  = Some (mkMessage (id msg) (content msg) (isBot msg) (timestamp msg)
                    delivered (Some nodes)).
Proof.
  intros Hmsg. pose proof (botMessage_id c msg Hmsg) as Hid.
  unfold botMessage, deliver in *. cbn [messages].
  rewrite find_updateMessage by reflexivity.
  rewrite Hmsg. simpl. rewrite Hid. reflexivity.
Qed.

End ChatFacts.

(** The component right after a submit that passes the guard. *)
Lemma handleSubmit_started (c : Chat.Component) (now1 now2 : Z) :
  JsString.truthy (JsString.trim (Chat.input c)) = true ->
  Chat.isLoading c = false ->
  now1 <= now2 ->
  Forall (fun msg => Chat.id msg <> now2 + 1) (Chat.messages c) ->
  let started := Chat.handleSubmit now1 now2 true c in
  Chat.task started = Chat.Streaming (now2 + 1)
  /\ Chat.knowledgeGraphPromise started = Chat.Pending
  /\ Chat.botMessage (now2 + 1) started
     = Some (Chat.mkMessage (now2 + 1) "" true now2 Chat.typing None).
Proof.
  intros Hinput Hloading Hnow Hfresh. cbv zeta.
  unfold Chat.handleSubmit. rewrite Hinput, Hloading. simpl.
  repeat split.
  unfold Chat.botMessage. cbn [Chat.messages].
  rewrite find_updateMessage by reflexivity.
  rewrite find_skip_others by exact Hfresh.
  simpl.
  replace (now1 =? now2 + 1) with false by (symmetry; apply Z.eqb_neq; lia).
  rewrite Z.eqb_refl. simpl.
  replace (now2 + 1 =? now1) with false by (symmetry; apply Z.eqb_neq; lia).
  reflexivity.
Qed.

Section Turn.

Import Chat.

(** C7, as the code has it.  After a submit that passes the guard, with
    the id of the assistant turn not yet in use:
    - whatever wakes the component and in whatever order, the assistant
      turn carries an annotation only if the stream has already returned;
    - when the stream returns after its fragments, the turn is delivered
      with the fragments in order and the retrieved nodes attached,
      whether the retrieval settles while the stream runs or after it;
    - when the stream throws, the retrieval is never looked at: the turn
      is removed from the list if the error is 'Request cancelled', and
      otherwise marked failed with the text 'Failed to generate response'
      and no annotation. *)
Theorem handleSubmit_turn (c : Component) (now1 now2 : Z) :
  JsString.truthy (JsString.trim (input c)) = true ->
  isLoading c = false ->
  now1 <= now2 ->
  Forall (fun msg => id msg <> now2 + 1) (messages c) ->
  let botId := now2 + 1 in
  let started := handleSubmit now1 now2 true c in
  (forall (ws : list Wake) (msg : Message),
     botMessage botId (run ws started) = Some msg ->
     knowledgeGraph msg <> None ->
     streamCompleted ws = true)
  /\ (forall (chunks1 chunks2 : list string) (nodes : list NodeDetails),
        botMessage botId
          (run (map Chunk chunks1 ++ RetrievalResolve nodes
                  :: map Chunk chunks2 ++ [StreamReturn]) started)
        = Some (mkMessage botId (JsString.concatAll (chunks1 ++ chunks2)) true
                          now2 delivered (Some nodes)))
  /\ (forall (chunks : list string) (nodes : list NodeDetails),
        botMessage botId
          (run (map Chunk chunks ++ [StreamReturn; RetrievalResolve nodes]) started)
        = Some (mkMessage botId (JsString.concatAll chunks) true
                          now2 delivered (Some nodes)))
  /\ (forall (pre post : list Wake) (e : Thrown),
        Forall (fun w => streamGoesOn w = true) pre ->
        let final := run (pre ++ StreamThrow e :: post) started in
        if isCancellation e
        then botMessage botId final = None
        else exists msg : Message,
               botMessage botId final = Some msg
               /\ status msg = failed
               /\ content msg = "Failed to generate response"
               /\ knowledgeGraph msg = None).
Proof.
  intros Hinput Hloading Hnow Hfresh botId started.
  destruct (handleSubmit_started c now1 now2 Hinput Hloading Hnow Hfresh)
    as (Htask & Hpromise & Hbot).
  fold botId in Htask, Hbot. fold started in Htask, Hpromise, Hbot.
  split; [|split; [|split]].
  - intros ws msg Hmsg Hkg.
    apply (annotation_after_stream botId ws started Htask) with (msg := msg);
      try assumption.
    intros m Hm. rewrite Hbot in Hm. injection Hm as <-. reflexivity.
  - intros chunks1 chunks2 nodes.
    rewrite run_app.
    destruct (run_chunks botId chunks1 started _ Htask Hbot) as (Ht1 & Hp1 & Hm1).
    set (c1 := run (map Chunk chunks1) started) in *.
    change (run (RetrievalResolve nodes :: map Chunk chunks2 ++ [StreamReturn]) c1)
      with (run (map Chunk chunks2 ++ [StreamReturn]) (react c1 (RetrievalResolve nodes))).
    assert (Hsettle : react c1 (RetrievalResolve nodes)
                      = setPromise (Fulfilled nodes) c1).
    { unfold react. rewrite Ht1, Hp1, Hpromise. reflexivity. }
    rewrite Hsettle. rewrite run_app.
    destruct (run_chunks botId chunks2 (setPromise (Fulfilled nodes) c1) _ Ht1 Hm1)
      as (Ht2 & Hp2 & Hm2).
    set (c2 := run (map Chunk chunks2) (setPromise (Fulfilled nodes) c1)) in *.
    change (run [StreamReturn] c2) with (react c2 StreamReturn).
    unfold react. rewrite Ht2, Hp2. cbn [setPromise knowledgeGraphPromise].
    rewrite (deliver_outcome botId c2 _ nodes _ Hm2).
    cbn [id content isBot timestamp status knowledgeGraph].
    f_equal. f_equal. simpl.
    unfold JsString.concatAll. rewrite fold_right_app.
    clear. induction chunks1 as [|x l IH]; simpl; [reflexivity|].
    rewrite <- IH. apply append_assoc.
  - intros chunks nodes.
    rewrite run_app.
    destruct (run_chunks botId chunks started _ Htask Hbot) as (Ht1 & Hp1 & Hm1).
    set (c1 := run (map Chunk chunks) started) in *.
    change (run [StreamReturn; RetrievalResolve nodes] c1)
      with (react (react c1 StreamReturn) (RetrievalResolve nodes)).
    assert (Hwait : react c1 StreamReturn = setTask (AwaitingKnowledgeGraph botId) c1).
    { unfold react. rewrite Ht1, Hp1, Hpromise. reflexivity. }
    rewrite Hwait. unfold react.
    cbn [setTask task knowledgeGraphPromise]. rewrite Hp1, Hpromise.
    assert (Hm : botMessage botId (setTask (AwaitingKnowledgeGraph botId) c1)
                 = botMessage botId c1) by reflexivity.
    rewrite Hm1 in Hm.
    rewrite (deliver_outcome botId _ _ nodes _ Hm). reflexivity.
  - intros pre post e Hpre final.
    destruct (run_goes_on botId pre Hpre started _ Htask Hbot eq_refl)
      as (Ht1 & m1 & Hm1 & Hkg1).
    destruct (react_throw_outcome botId (run pre started) m1 e Ht1 Hm1)
      as (Hidle & Hout).
    assert (Hfinal : botMessage botId final
                     = botMessage botId (react (run pre started) (StreamThrow e))).
    { unfold final. rewrite run_app.
      change (run (StreamThrow e :: post) (run pre started))
        with (run post (react (run pre started) (StreamThrow e))).
      unfold botMessage. rewrite (run_idle post _ Hidle). reflexivity. }
    rewrite Hfinal, Hout.
    destruct (isCancellation e); [reflexivity|].
    eexists. split; [reflexivity|]. repeat split. exact Hkg1.
Qed.

Lemma handleSubmit_turn_witness :
  botMessage 1001
    (run (map Chunk ["hello "; "world "] ++ [StreamReturn; RetrievalResolve []])
         (handleSubmit 1000 1000 true fresh))
  = Some (mkMessage 1001 "hello world " true 1000 delivered (Some [])).
Proof.
  assert (Hinput : JsString.truthy (JsString.trim (input fresh)) = true)
    by reflexivity.
  assert (Hnow : 1000 <= 1000) by discriminate.
  exact (proj1 (proj2 (proj2
           (handleSubmit_turn fresh 1000 1000 Hinput eq_refl Hnow (Forall_nil _))))
           ["hello "; "world "] []).
Defined.

(** C7, the claim as written fails: the stream of the run in which the
    signal is aborted during the poll throws 'Request cancelled'; the
    assistant turn is then not marked failed but removed, and only the
    user's message is left. *)
Lemma cancelled_turn_is_removed :
  streamWakes
    (AssistantClient.streamMessage Demo.abortedDuringPoll "hi"
       (Some (mkSignal (Some 500))) Demo.ready)
  = [StreamThrow (newError "Request cancelled")]
  /\ messages
       (run [StreamThrow (newError "Request cancelled")]
            (handleSubmit 1000 1000 true fresh))
     = [mkMessage 1000 "hi" false 1000 delivered None].
Proof. split; vm_compute; reflexivity. Qed.

End Turn.

(** * Further properties *)

(** ** What a call of [streamMessage] does to the client and the log *)

Section CallEffect.

Import AssistantClient Schedule.

Variable provider : Provider.

Lemma retrySchedule_cons (count : Z) (n : nat) :
  retrySchedule count (S n)
  = baseDelay * 2 ^ count :: retrySchedule (count + 1) n.
Proof.
  unfold retrySchedule. cbn [seq map]. rewrite <- seq_shift, map_map.
  f_equal.
  - f_equal. f_equal. lia.
  - apply map_ext. intros i. f_equal. f_equal. lia.
Qed.

Lemma snd_rethrow (r : Completion unit * State) :
  snd (match r with
       | (Normal _, s2) => (Throw (newError "An unexpected error occurred"), s2)
       | other => other
       end) = snd r.
Proof. destruct r as [[u| e |] s2]; reflexivity. Qed.

(** The whole effect of a call with a thread: the fields it keeps, the
    first event it logs, and the schedule of its retries. *)
Lemma streamMessageRec_effect (content : string) (signal : option AbortSignal)
    (threadId : string) :
  forall (fuel : nat) (s : State),
    thread s = Some threadId ->
    (Z.to_nat (maxRetries - retryCount s) <= fuel)%nat ->
    let s' := snd (streamMessageRec provider fuel content signal s) in
    thread s' = thread s
    /\ assistantId s' = assistantId s
    /\ (exists t : list Event,
          log s' = log s ++ EvMessagesCreate threadId content :: t)
    /\ exists n : nat,
         (n <= Z.to_nat (maxRetries - retryCount s))%nat
         /\ attempts (log s') = (attempts (log s) + S n)%nat
         /\ backoffDelays (log s')
            = backoffDelays (log s) ++ retrySchedule (retryCount s) n
         /\ (retryCount s' = retryCount s + Z.of_nat n \/ retryCount s' = 0).
Proof.
  unfold maxRetries.
  induction fuel as [|fuel IH]; intros s Hthread Hfuel; cbv zeta;
    rewrite (streamMessageRec_unfold provider _ _ _ threadId) by exact Hthread;
    pose proof (attempt_observed provider content signal threadId s)
      as (Ht & Hr & Ha & Hb);
    pose proof (tryBody_frame provider content signal threadId s)
      as (Hid & _ & _ & t & Hl & _);
    destruct (tryBody provider content signal threadId s)
      as [[u|[name message|v]|] s1];
    cbn [snd] in Ht, Hr, Ha, Hb, Hid, Hl;
    try (cbn [snd]; repeat split; try assumption;
         [ exists t; exact Hl
         | exists O; unfold retrySchedule; simpl; rewrite app_nil_r;
           repeat split; try lia; try assumption ]).
  - destruct (name =? "AbortError")%string.
    + cbn [snd]. repeat split; try assumption; [exists t; exact Hl|].
      exists O. unfold retrySchedule. simpl. rewrite app_nil_r.
      repeat split; try lia; try assumption.
    + unfold maxRetries. destruct (retryCount s1 <? 3) eqn:Hlt.
      * apply Z.ltb_lt in Hlt. lia.
      * cbn [snd thread assistantId log retryCount].
        repeat split; try assumption; [exists t; exact Hl|].
        exists O. unfold retrySchedule. simpl. rewrite app_nil_r.
        repeat split; try lia; try assumption.
  - destruct (name =? "AbortError")%string.
    + cbn [snd]. repeat split; try assumption; [exists t; exact Hl|].
      exists O. unfold retrySchedule. simpl. rewrite app_nil_r.
      repeat split; try lia; try assumption.
    + unfold maxRetries. destruct (retryCount s1 <? 3) eqn:Hlt.
      * apply Z.ltb_lt in Hlt.
        cbv beta iota.
        pose proof (backoff_observed s1) as (Ht' & Hr' & Ha' & Hb').
        set (b1 := snd (exponentialBackoff s1)) in *.
        assert (Hid' : assistantId b1 = assistantId s1) by reflexivity.
        assert (Hl' : log b1 = log s1 ++ [EvSleep Backoff (baseDelay * 2 ^ retryCount s1)])
          by reflexivity.
        destruct (IH b1) as (Ht2 & Hid2 & [t2 Hl2] & n & Hn & Ha2 & Hb2 & Hr2);
          [congruence | lia |].
        cbv zeta in Ht2, Hid2, Hl2, Ha2, Hb2, Hr2.
        destruct (streamMessageRec provider fuel content signal b1)
          as [[u'| e' |] s2];
          cbn [snd] in Ht2, Hid2, Hl2, Ha2, Hb2, Hr2 |- *.
        all: repeat split; try congruence.
        all: try (eexists; rewrite Hl2, Hl', Hl; rewrite <- !app_assoc; simpl;
                  reflexivity).
        all: exists (S n); repeat split;
          [ lia | lia
          | rewrite Hb2, Hb', Hb, Hr', Hr, retrySchedule_cons;
            rewrite <- app_assoc; reflexivity
          | destruct Hr2 as [Hr2|Hr2]; [left; lia | right; exact Hr2] ].
      * cbn [snd thread assistantId log retryCount].
        repeat split; try assumption; [exists t; exact Hl|].
        exists O. unfold retrySchedule. simpl. rewrite app_nil_r.
        repeat split; try lia; try assumption.
Qed.

End CallEffect.

(** ** A call whose attempts all fail *)

Section Exhaustion.

Import AssistantClient Schedule.

Variable provider : Provider.

Local Abbreviation resetCount s :=
  (mkState (assistantId s) (thread s) 0 (clock s) (calls s) (log s)).

Lemma streamMessageRec_all_fail (content : string) (signal : option AbortSignal)
    (threadId : string) :
  forall (n : nat) (s : State),
    thread s = Some threadId ->
    n = Z.to_nat (maxRetries - retryCount s) ->
    retryCount s <= maxRetries ->
    (forall i : nat, (i <= n)%nat ->
       exists e : Thrown,
         fst (tryBody provider content signal threadId
                (attemptStart provider content signal threadId i s)) = Throw e
         /\ retryable e = true) ->
    exists (e : Thrown) (sLast : State),
      tryBody provider content signal threadId
        (attemptStart provider content signal threadId n s) = (Throw e, sLast)
      /\ streamMessageRec provider n content signal s = (Throw e, resetCount sLast)
      /\ attempts (log sLast) = (attempts (log s) + S n)%nat
      /\ backoffDelays (log sLast)
         = backoffDelays (log s) ++ retrySchedule (retryCount s) n.
Proof.
  induction n as [|n IH]; intros s Hthread Hn Hcount Hfail.
  - destruct (Hfail O (Nat.le_refl _)) as (e & Htry & Hretry).
    cbn [attemptStart] in *.
    pose proof (attempt_observed provider content signal threadId s)
      as (_ & _ & Ha & Hb).
    destruct (tryBody provider content signal threadId s) as [r s1] eqn:Hrun.
    cbn [fst snd] in *. subst r.
    exists e, s1. split; [reflexivity|]. split; [|split].
    + apply (streamMessageRec_exhausted provider 0 content signal threadId s s1 e);
        try assumption.
      unfold maxRetries in *. lia.
    + rewrite Ha. lia.
    + rewrite Hb. unfold retrySchedule. simpl. symmetry. apply app_nil_r.
  - destruct (Hfail O (Nat.le_0_l _)) as (e1 & Htry & Hretry).
    cbn [attemptStart] in Htry.
    pose proof (attempt_observed provider content signal threadId s)
      as (Ht1 & Hr1 & Ha1 & Hb1).
    destruct (tryBody provider content signal threadId s) as [r s1] eqn:Hrun.
    cbn [fst snd] in *. subst r.
    pose proof (backoff_observed s1) as (Ht1' & Hr1' & Ha1' & Hb1').
    set (b1 := snd (exponentialBackoff s1)) in *.
    destruct (IH b1) as (e & sLast & Hlast & Hrec & Ha & Hb).
    + congruence.
    + unfold maxRetries in *. lia.
    + unfold maxRetries in *. lia.
    + intros i Hi. specialize (Hfail (S i) ltac:(lia)).
      cbn [attemptStart] in Hfail. rewrite Hrun in Hfail. exact Hfail.
    + exists e, sLast. split; [|split; [|split]].
      * cbn [attemptStart]. rewrite Hrun. exact Hlast.
      * rewrite (streamMessageRec_retry provider n content signal threadId s s1 e1);
          try assumption; [|unfold maxRetries in *; lia].
        fold b1. rewrite Hrec. reflexivity.
      * rewrite Ha, Ha1', Ha1. lia.
      * rewrite Hb, Hb1', Hb1, Hr1', Hr1, retrySchedule_cons.
        rewrite <- app_assoc. reflexivity.
Qed.

(** C3, as the code has it.  On a client with a thread whose retry
    counter is between 0 and [maxRetries], when every attempt of a call
    fails with an [Error] other than an [AbortError], the call makes
    [maxRetries - retryCount] retries after its first attempt, so 4
    attempts from a counter at 0 and fewer from a counter above 0; it
    sleeps the backoffs 2000 * 2 ^ retryCount, ... between them, and
    nothing is called or slept after the last attempt; it then throws the
    very error the last attempt threw, and leaves the retry counter
    at 0. *)
Theorem retry_exhaustion (content : string) (signal : option AbortSignal)
    (threadId : string) (s : State) :
  thread s = Some threadId ->
  0 <= retryCount s <= maxRetries ->
  let retries := Z.to_nat (maxRetries - retryCount s) in
  (forall i : nat, (i <= retries)%nat ->
     exists e : Thrown,
       fst (tryBody provider content signal threadId
              (attemptStart provider content signal threadId i s)) = Throw e
       /\ retryable e = true) ->
  exists (e : Thrown) (sLast : State),
    tryBody provider content signal threadId
      (attemptStart provider content signal threadId retries s) = (Throw e, sLast)
    /\ streamMessage provider content signal s
       = (Throw e, mkState (assistantId sLast) (thread sLast) 0
                           (clock sLast) (calls sLast) (log sLast))
    /\ attempts (log sLast) = (attempts (log s) + retries + 1)%nat
    /\ backoffDelays (log sLast)
       = backoffDelays (log s) ++ retrySchedule (retryCount s) retries
    /\ (retryCount s = 0 ->
        attempts (log sLast) = (attempts (log s) + 4)%nat
        /\ backoffDelays (log sLast) = backoffDelays (log s) ++ [2000; 4000; 8000]).
Proof.
  intros Hthread Hcount retries Hfail.
  destruct (streamMessageRec_all_fail content signal threadId retries s
              Hthread eq_refl (proj2 Hcount) Hfail)
    as (e & sLast & Hlast & Hrec & Ha & Hb).
  exists e, sLast.
  split; [exact Hlast|]. split; [exact Hrec|].
  split; [rewrite Ha; lia|]. split; [exact Hb|].
  intros Hzero. rewrite Ha, Hb. unfold retries. rewrite Hzero.
  split; reflexivity.
Qed.

End Exhaustion.

Lemma retry_exhaustion_witness :
  exists sLast : State,
    AssistantClient.streamMessage Demo.requiresAction "hi" None Demo.ready
    = (Throw (newError "Run requires action"),
       mkState (assistantId sLast) (thread sLast) 0
               (clock sLast) (calls sLast) (log sLast))
    /\ AssistantClient.attempts (log sLast) = 4%nat
    /\ AssistantClient.backoffDelays (log sLast) = [2000; 4000; 8000].
Proof.
  destruct (retry_exhaustion Demo.requiresAction "hi" None "thread_1" Demo.ready)
    as (e & sLast & Hlast & Hrun & _ & _ & Hfour).
  - reflexivity.
  - vm_compute. split; discriminate.
  - intros i Hi. exists (newError "Run requires action").
    change (Z.to_nat (AssistantClient.maxRetries - retryCount Demo.ready))
      with 3%nat in Hi.
    destruct i as [|[|[|[|i]]]]; [| | | |lia];
      split; vm_compute; reflexivity.
  - assert (He : e = newError "Run requires action").
    { change (Z.to_nat (AssistantClient.maxRetries - retryCount Demo.ready))
        with 3%nat in Hlast.
      assert (Hfst : fst (AssistantClient.tryBody Demo.requiresAction "hi" None
                            "thread_1"
                            (Schedule.attemptStart Demo.requiresAction "hi" None
                               "thread_1" 3 Demo.ready))
                     = Throw (newError "Run requires action"))
        by (vm_compute; reflexivity).
      rewrite Hlast in Hfst. cbn [fst] in Hfst. congruence. }
    destruct (Hfour eq_refl) as [Ha Hb].
    exists sLast. subst e. split; [exact Hrun|]. split; [exact Ha | exact Hb].
Defined.

(** C3, the claim as written fails on two counts.  The error that comes
    out of an exhausted call is the error of the last attempt itself, here
    the plain [Error] 'Run requires action' of the poll loop: nothing wraps
    it.  And the number of attempts depends on the retry counter the call
    finds: the first call below is refused twice and then goes through,
    which leaves the counter at 2; the next call, whose attempts are all
    refused, gives up after 2 attempts and the single backoff of 8000
    ms. *)
Lemma retry_exhaustion_not_wrapped_nor_four :
  fst (AssistantClient.streamMessage Demo.requiresAction "hi" None Demo.ready)
  = Throw (ErrorObj "Error" "Run requires action")
  /\ (let s1 := snd (AssistantClient.streamMessage Demo.recoversOnce "hi" None
                       Demo.ready) in
      let s2 := snd (AssistantClient.streamMessage Demo.recoversOnce "again" None
                       s1) in
      retryCount s1 = 2
      /\ fst (AssistantClient.streamMessage Demo.recoversOnce "again" None s1)
         = Throw Demo.networkError
      /\ AssistantClient.attempts (log s2)
         = (AssistantClient.attempts (log s1) + 2)%nat
      /\ AssistantClient.backoffDelays (log s2)
         = AssistantClient.backoffDelays (log s1) ++ [8000]
      /\ retryCount s2 = 0).
Proof. repeat split; vm_compute; reflexivity. Qed.

Section CallProperties.

Import AssistantClient Schedule.

Variable provider : Provider.

(** X1: a call on a client with a thread makes one attempt and then [n]
    retries, with [n] at most [maxRetries - retryCount] (none when the
    counter is already at the ceiling); the retries are preceded by the
    backoffs 2000 * 2^retryCount, 2000 * 2^(retryCount+1), ... in this
    order and by no other backoff.  From a counter that is not negative
    this is never more than four attempts. *)
Theorem streamMessage_retry_schedule (content : string)
    (signal : option AbortSignal) (threadId : string) (s : State) :
  thread s = Some threadId ->
  let s' := snd (streamMessage provider content signal s) in
  (exists n : nat,
     (n <= Z.to_nat (maxRetries - retryCount s))%nat
     /\ attempts (log s') = (attempts (log s) + S n)%nat
     /\ backoffDelays (log s')
        = backoffDelays (log s) ++ retrySchedule (retryCount s) n)
  /\ (0 <= retryCount s -> (attempts (log s') <= attempts (log s) + 4)%nat).
Proof.
  intros Hthread s'.
  destruct (streamMessageRec_effect provider content signal threadId
              (streamFuel s) s Hthread (Nat.le_refl _))
    as (_ & _ & _ & n & Hn & Ha & Hb & _).
  fold (streamMessage provider content signal s) in Ha, Hb. fold s' in Ha, Hb.
  split.
  - exists n. repeat split; assumption.
  - intros Hcount. rewrite Ha. unfold maxRetries in Hn. lia.
Qed.

(** X2: a call never changes the thread or the assistant id of the
    client, and it keeps the retry counter between 0 and [maxRetries]. *)
Theorem streamMessage_keeps_client (content : string)
    (signal : option AbortSignal) (s : State) :
  0 <= retryCount s <= maxRetries ->
  let s' := snd (streamMessage provider content signal s) in
  thread s' = thread s
  /\ assistantId s' = assistantId s
  /\ 0 <= retryCount s' <= maxRetries.
Proof.
  intros Hcount s'.
  destruct (thread s) as [threadId|] eqn:Hthread.
  - destruct (streamMessageRec_effect provider content signal threadId
                (streamFuel s) s Hthread (Nat.le_refl _))
      as (Ht & Hid & _ & n & Hn & _ & _ & Hr).
    fold (streamMessage provider content signal s) in Ht, Hid, Hr.
    fold s' in Ht, Hid, Hr.
    repeat split; try congruence; unfold maxRetries in *; lia.
  - unfold s', streamMessage.
    replace (streamMessageRec provider (streamFuel s) content signal s)
      with (@Throw unit (newError "Thread not initialized"), s).
    + repeat split; try assumption; apply Hcount.
    + destruct (streamFuel s); simpl; unfold bind, get; rewrite Hthread;
        reflexivity.
Qed.

End CallProperties.

Lemma streamMessage_retry_schedule_witness :
  (AssistantClient.attempts
     (log (snd (AssistantClient.streamMessage Demo.requiresAction "hi" None
                  Demo.ready)))
   <= 4)%nat.
Proof.
  destruct (streamMessage_retry_schedule Demo.requiresAction "hi" None "thread_1"
              Demo.ready eq_refl) as [_ Hbound].
  apply Hbound. discriminate.
Defined.

Lemma streamMessage_keeps_client_witness :
  thread (snd (AssistantClient.streamMessage Demo.failsTwice "hi" None Demo.ready))
  = Some "thread_1"
  /\ assistantId (snd (AssistantClient.streamMessage Demo.failsTwice "hi" None Demo.ready))
     = "asst_1"
  /\ 0 <= retryCount (snd (AssistantClient.streamMessage Demo.failsTwice "hi" None Demo.ready))
     <= AssistantClient.maxRetries.
Proof.
  apply (streamMessage_keeps_client Demo.failsTwice "hi" None Demo.ready).
  split; discriminate.
Defined.

Section CallErrors.

Import AssistantClient Schedule.

Variable provider : Provider.

(** X3: an attempt that fails with an [Error] named "AbortError", or
    with a thrown value that is not an [Error], ends the call at once: the
    call throws 'Request cancelled' for the first and 'An unexpected error
    occurred' for the second, and the state is the one the attempt left,
    with no backoff slept, no further attempt and the retry counter as it
    was. *)
Theorem streamMessage_unretried (content : string) (signal : option AbortSignal)
    (threadId : string) (s s1 : State) (e : Thrown) :
  thread s = Some threadId ->
  tryBody provider content signal threadId s = (Throw e, s1) ->
  retryable e = false ->
  streamMessage provider content signal s
  = (Throw (newError match e with
                     | ErrorObj _ _ => "Request cancelled"
                     | NotAnError _ => "An unexpected error occurred"
                     end), s1)
  /\ retryCount s1 = retryCount s
  /\ backoffDelays (log s1) = backoffDelays (log s)
  /\ attempts (log s1) = S (attempts (log s)).
Proof.
  intros Hthread Htry Hretry.
  pose proof (attempt_observed provider content signal threadId s)
    as (_ & Hr & Ha & Hb).
  rewrite Htry in Hr, Ha, Hb. cbn [snd] in Hr, Ha, Hb.
  repeat split; try assumption.
  unfold streamMessage.
  rewrite (streamMessageRec_unfold provider _ _ _ threadId) by exact Hthread.
  rewrite Htry. destruct e as [name message|v]; [|reflexivity].
  simpl in Hretry. apply negb_false_iff in Hretry. rewrite Hretry. reflexivity.
Qed.

Lemma streamMessageRec_no_thread (fuel : nat) (content : string)
    (signal : option AbortSignal) (s : State) :
  thread s = None ->
  streamMessageRec provider fuel content signal s
  = (Throw (newError "Thread not initialized"), s).
Proof.
  intros Hthread.
  destruct fuel; simpl; unfold bind, get; rewrite Hthread; reflexivity.
Qed.

(** X4: when the provider creates the thread, [createThread] returns its
    id and stores it, and every later call of [streamMessage] starts by
    appending the user's message to that thread. *)
Theorem createThread_then_streamMessage (s : State) (created : string)
    (content : string) (signal : option AbortSignal) :
  threadsCreate provider (calls s) = inr created ->
  fst (createThread provider s) = Normal created
  /\ thread (snd (createThread provider s)) = Some created
  /\ exists t : list Event,
       log (snd (streamMessage provider content signal
                   (snd (createThread provider s))))
       = log s ++ EvThreadsCreate :: EvMessagesCreate created content :: t.
Proof.
  intros Hreply.
  assert (Hcreate : createThread provider s
                    = (Normal created,
                       mkState (assistantId s) (Some created) (retryCount s)
                               (clock s + Z.of_N (latency provider (calls s)))
                               (S (calls s)) (log s ++ [EvThreadsCreate]))).
  { unfold createThread, tryCatch, bind, call. rewrite Hreply. reflexivity. }
  rewrite Hcreate. cbn [fst snd thread]. repeat split.
  match goal with
  | |- context [streamMessage provider content signal ?s1] =>
      destruct (streamMessageRec_effect provider content signal created
                  (streamFuel s1) s1 eq_refl (Nat.le_refl _))
        as (_ & _ & [t Hl] & _)
  end.
  exists t. unfold streamMessage. rewrite Hl. cbn [log].
  rewrite <- app_assoc. reflexivity.
Qed.

(** X5: when the provider refuses to create the thread of a client that
    has none, [createThread] throws 'Failed to create chat thread' whatever
    the provider's error was, and the client stays unusable: a later
    [streamMessage] throws 'Thread not initialized' and the only provider
    call ever made is the refused creation. *)
Theorem createThread_refused_then_streamMessage (s : State) (e : Thrown)
    (content : string) (signal : option AbortSignal) :
  thread s = None ->
  threadsCreate provider (calls s) = inl e ->
  fst (createThread provider s) = Throw (newError "Failed to create chat thread")
  /\ fst (streamMessage provider content signal (snd (createThread provider s)))
     = Throw (newError "Thread not initialized")
  /\ log (snd (streamMessage provider content signal
                 (snd (createThread provider s))))
     = log s ++ [EvThreadsCreate].
Proof.
  intros Hthread Hreply.
  assert (Hcreate : createThread provider s
                    = (Throw (newError "Failed to create chat thread"),
                       mkState (assistantId s) (thread s) (retryCount s)
                               (clock s + Z.of_N (latency provider (calls s)))
                               (S (calls s)) (log s ++ [EvThreadsCreate]))).
  { unfold createThread, tryCatch, bind, call. rewrite Hreply. reflexivity. }
  rewrite Hcreate. cbn [fst snd]. unfold streamMessage.
  rewrite streamMessageRec_no_thread by exact Hthread.
  repeat split.
Qed.

End CallErrors.

Lemma streamMessage_unretried_witness :
  fst (AssistantClient.streamMessage Schedule.aborting "hi" None Demo.ready)
  = Throw (newError "Request cancelled")
  /\ retryCount (snd (AssistantClient.streamMessage Schedule.aborting "hi" None
                        Demo.ready)) = 0.
Proof.
  pose (s1 := snd (AssistantClient.tryBody Schedule.aborting "hi" None "thread_1"
                     Demo.ready)).
  destruct (streamMessage_unretried Schedule.aborting "hi" None "thread_1"
              Demo.ready s1 (ErrorObj "AbortError" "The user aborted a request."))
    as (Hrun & Hcount & _); try reflexivity.
  rewrite Hrun. cbn [fst snd]. split; [reflexivity | exact Hcount].
Defined.

Lemma createThread_then_streamMessage_witness :
  thread (snd (AssistantClient.createThread Demo.succeeds
                 (AssistantClient.construct "asst_1" 0)))
  = Some "thread_1".
Proof.
  apply (createThread_then_streamMessage Demo.succeeds
           (AssistantClient.construct "asst_1" 0) "thread_1" "hi" None).
  reflexivity.
Defined.

Lemma createThread_refused_then_streamMessage_witness :
  fst (AssistantClient.streamMessage Schedule.noThread "hi" None
         (snd (AssistantClient.createThread Schedule.noThread
                 (AssistantClient.construct "asst_1" 0))))
  = Throw (newError "Thread not initialized").
Proof.
  apply (createThread_refused_then_streamMessage Schedule.noThread
           (AssistantClient.construct "asst_1" 0) (newError "Connection error.")
           "hi" None); reflexivity.
Defined.

(** ** The poll loop, from its entry to its end *)

Section PollOutcome.

Import AssistantClient Schedule.

Variable provider : Provider.
Variables threadId runId : string.
Variable signal : option AbortSignal.

Local Abbreviation advance s n :=
  (mkState (assistantId s) (thread s) (retryCount s)
           (iterationTime provider (calls s) (clock s) n) (Nat.add (calls s) n)
           (log s ++ pollRounds threadId runId n)).

Local Abbreviation goesRound startTime s n :=
  (forall i : nat, (i < n)%nat ->
     abortedBy signal (iterationTime provider (calls s) (clock s) i) = false
     /\ iterationTime provider (calls s) (clock s) i - startTime <= timeout
     /\ exists run : Run,
          runsRetrieve provider (Nat.add (calls s) i) = inr run
          /\ transient (status run) = true).

Lemma signalAborted_abortedBy (s : State) :
  signalAborted signal s = (Normal (abortedBy signal (clock s)), s).
Proof. destruct signal; reflexivity. Qed.

Lemma iterationTime_lower (n : nat) :
  forall (firstCall : nat) (t : Z),
    t + 1000 * Z.of_nat n <= iterationTime provider firstCall t n.
Proof.
  induction n as [|n IH]; intros firstCall t; [simpl; lia|].
  cbn [iterationTime].
  specialize (IH (S firstCall) (t + Z.of_N (latency provider firstCall) + 1000)).
  lia.
Qed.

(** Iterations that poll a transient status go round the loop. *)
Lemma pollLoop_rounds (startTime : Z) :
  forall (n fuel : nat) (s : State),
    goesRound startTime s n ->
    pollLoop provider (n + fuel) threadId runId signal startTime s
    = pollLoop provider fuel threadId runId signal startTime (advance s n).
Proof.
  induction n as [|n IH]; intros fuel s Hround.
  - simpl. f_equal. destruct s; simpl. rewrite app_nil_r, Nat.add_0_r. reflexivity.
  - destruct (Hround O (Nat.lt_0_succ _)) as (Hsig & Hearly & run & Hreply & Htr).
    cbn [iterationTime] in Hsig, Hearly. rewrite Nat.add_0_r in Hreply.
    change (S n + fuel)%nat with (S (n + fuel)).
    rewrite (pollLoop_retrieved provider (n + fuel) threadId runId signal startTime s
               (snd (call (EvRunsRetrieve threadId runId) (latency provider)
                          (runsRetrieve provider) s)) run);
      [| rewrite signalAborted_abortedBy, Hsig; reflexivity
       | exact Hearly
       | unfold call; rewrite Hreply; reflexivity ].
    unfold transient in Htr. apply negb_true_iff in Htr.
    repeat (apply orb_false_iff in Htr; destruct Htr as [Htr ?]).
    repeat match goal with H : (_ =? _)%string = false |- _ => rewrite H; clear H end.
    rewrite call_state.
    rewrite IH.
    + f_equal. cbn [sleep snd assistantId thread retryCount clock calls log
                    JsArray.push iterationTime].
      f_equal; [lia|].
      unfold JsArray.push. rewrite <- !app_assoc. reflexivity.
    + intros i Hi. specialize (Hround (S i) ltac:(lia)).
      cbn [sleep snd clock calls iterationTime] in *.
      replace (S (calls s) + i)%nat with (calls s + S i)%nat by lia.
      exact Hround.
Qed.

(** C6, as the code has it.  Take a call of [waitForRunCompletion] whose
    first [n] iterations go round: at the start of each the signal is not
    aborted and no more than 30000 ms have passed since the call began,
    and its poll reports a status that is none of completed, failed,
    cancelled, expired and requires_action; each of them polls once and
    sleeps 1000 ms.  Then iteration [n] decides, in this order:
    - if the signal is aborted by then, the call throws 'Request
      cancelled';
    - otherwise, if more than 30000 ms have passed since the call began,
      it throws 'Request timed out', without polling;
    - otherwise it polls, and whatever time the poll takes: a rejection of
      the poll is thrown as it is; completed returns normally; failed
      throws the message of [last_error], or 'Run failed' when there is
      none or it is empty; cancelled, expired and requires_action throw
      'Run was cancelled', 'Run expired' and 'Run requires action'.
    The state left is given in each case: the clock, the number of
    provider calls and the log. *)
Theorem waitForRunCompletion_outcome (s : State) (n : nat) :
  let start := clock s in
  let time := iterationTime provider (calls s) start in
  (forall i : nat, (i < n)%nat ->
     abortedBy signal (time i) = false
     /\ time i - start <= 30000
     /\ exists run : Run,
          runsRetrieve provider (calls s + i)%nat = inr run
          /\ transient (status run) = true) ->
  let outcome := waitForRunCompletion provider threadId runId signal s in
  let before :=
    mkState (assistantId s) (thread s) (retryCount s) (time n) (calls s + n)%nat
            (log s ++ pollRounds threadId runId n) in
  let after :=
    mkState (assistantId s) (thread s) (retryCount s)
            (time n + Z.of_N (latency provider (calls s + n)%nat))
            (S (calls s + n))
            (log s ++ pollRounds threadId runId n
                   ++ [EvRunsRetrieve threadId runId]) in
  (abortedBy signal (time n) = true ->
   outcome = (Throw (newError "Request cancelled"), before))
  /\ (abortedBy signal (time n) = false -> 30000 < time n - start ->
      outcome = (Throw (newError "Request timed out"), before))
  /\ (abortedBy signal (time n) = false -> time n - start <= 30000 ->
      (forall e : Thrown,
         runsRetrieve provider (calls s + n)%nat = inl e ->
         outcome = (Throw e, after))
      /\ (forall run : Run,
            runsRetrieve provider (calls s + n)%nat = inr run ->
            (status run = "completed" -> outcome = (Normal tt, after))
            /\ (status run = "failed" ->
                outcome
                = (Throw (newError match last_error run with
                                   | Some (String c message) => String c message
                                   | _ => "Run failed"
                                   end), after))
            /\ (status run = "cancelled" ->
                outcome = (Throw (newError "Run was cancelled"), after))
            /\ (status run = "expired" ->
                outcome = (Throw (newError "Run expired"), after))
            /\ (status run = "requires_action" ->
                outcome = (Throw (newError "Run requires action"), after)))).
Proof.
  intros start time Hround outcome before after.
  assert (Hn : (n <= 31)%nat).
  { destruct n as [|n]; [lia|].
    destruct (Hround n (Nat.lt_succ_diag_r n)) as (_ & Hearly & _).
    pose proof (iterationTime_lower n (calls s) start) as Hlow.
    unfold time in Hearly. lia. }
  assert (Hloop : outcome
                  = pollLoop provider (S (31 - n)) threadId runId signal start
                             (advance s n)).
  { unfold outcome, waitForRunCompletion, bind, get.
    fold start. unfold pollFuel.
    replace 32%nat with (n + S (31 - n))%nat by lia.
    apply pollLoop_rounds. exact Hround. }
  assert (Hclock : clock (advance s n) = time n) by reflexivity.
  assert (Hsig : signalAborted signal (advance s n)
                 = (Normal (abortedBy signal (time n)), advance s n))
    by apply signalAborted_abortedBy.
  split; [|split].
  - intros Haborted. rewrite Hloop. rewrite Haborted in Hsig.
    simpl pollLoop. unfold bind at 1. rewrite Hsig. reflexivity.
  - intros Hlive Hlate. rewrite Hloop. rewrite Hlive in Hsig.
    apply pollLoop_timed_out; [exact Hsig | exact Hlate].
  - intros Hlive Hearly. rewrite Hlive in Hsig.
    assert (Hafter : snd (call (EvRunsRetrieve threadId runId) (latency provider)
                               (runsRetrieve provider) (advance s n)) = after).
    { rewrite call_state. unfold after.
      cbn [assistantId thread retryCount clock calls log].
      rewrite <- app_assoc. reflexivity. }
    split.
    + intros e Hreply. rewrite Hloop.
      apply pollLoop_rejected; [exact Hsig | exact Hearly |].
      rewrite <- Hafter. unfold call. cbn [calls]. rewrite Hreply. reflexivity.
    + intros run Hreply.
      assert (Hcall : call (EvRunsRetrieve threadId runId) (latency provider)
                           (runsRetrieve provider) (advance s n)
                      = (Normal run, after)).
      { rewrite <- Hafter. unfold call. cbn [calls]. rewrite Hreply. reflexivity. }
      rewrite Hloop.
      rewrite (pollLoop_retrieved provider (31 - n) threadId runId signal start
                 (advance s n) after run Hsig Hearly Hcall).
      repeat split; intros Hst; rewrite Hst; try reflexivity.
      cbn [String.eqb Ascii.eqb Bool.eqb]. unfold failureMessage.
      destruct (last_error run) as [[|c message]|]; reflexivity.
Qed.

End PollOutcome.

Lemma waitForRunCompletion_outcome_witness :
  AssistantClient.waitForRunCompletion Demo.completesAtThirdPoll
    "thread_1" "run_1" (Some (mkSignal (Some 5000))) Demo.ready
  = (Normal tt,
     mkState "asst_1" (Some "thread_1") 0 2300 3
       [ EvRunsRetrieve "thread_1" "run_1"; EvSleep PollInterval 1000;
         EvRunsRetrieve "thread_1" "run_1"; EvSleep PollInterval 1000;
         EvRunsRetrieve "thread_1" "run_1" ]).
Proof.
  destruct (waitForRunCompletion_outcome Demo.completesAtThirdPoll
              "thread_1" "run_1" (Some (mkSignal (Some 5000))) Demo.ready 2)
    as (_ & _ & Hpoll).
  - intros i Hi. destruct i as [|[|i]]; [| |lia].
    + split; [reflexivity|]. split; [vm_compute; discriminate|].
      exists (mkRun "queued" None). split; reflexivity.
    + split; [reflexivity|]. split; [vm_compute; discriminate|].
      exists (mkRun "in_progress" None). split; reflexivity.
  - destruct Hpoll as [_ Hrun]; [reflexivity | vm_compute; discriminate |].
    exact (proj1 (Hrun (mkRun "completed" None) eq_refl) eq_refl).
Defined.

(** C6, the claim as written fails: the deadline is looked at only before
    a poll.  Here the poll starts at once and takes 40 seconds to report
    the run completed; the call returns normally, 40000 ms after it
    began. *)
Lemma waitForRunCompletion_returns_past_deadline :
  AssistantClient.waitForRunCompletion Demo.slowPoll "thread_1" "run_1" None
    Demo.ready
  = (Normal tt,
     mkState "asst_1" (Some "thread_1") 0 40000 1
             [EvRunsRetrieve "thread_1" "run_1"])
  /\ AssistantClient.timeout < 40000 - clock Demo.ready.
Proof. split; vm_compute; reflexivity. Qed.

(** ** Polling *)

Section Polling.

Import AssistantClient.

Variable provider : Provider.

Lemma pollLoop_normal (threadId runId : string) (signal : option AbortSignal)
    (startTime : Z) :
  forall (fuel : nat) (s s' : State),
    pollLoop provider fuel threadId runId signal startTime s = (Normal tt, s') ->
    (calls s < calls s')%nat
    /\ exists run : Run,
         runsRetrieve provider (pred (calls s')) = inr run
         /\ status run = "completed".
Proof.
  induction fuel as [|fuel IH]; intros s s' Hrun; [discriminate|].
  simpl in Hrun. unfold bind at 1 in Hrun. unfold signalAborted at 1 in Hrun.
  destruct (match signal with Some sg => aborted sg (clock s) | None => false end);
    [discriminate|].
  unfold bind at 1 in Hrun. unfold get at 1 in Hrun.
  destruct (clock s - startTime >? timeout); [discriminate|].
  unfold bind at 1 in Hrun. unfold call at 1 in Hrun.
  destruct (runsRetrieve provider (calls s)) as [e|run] eqn:Hreply;
    [discriminate|].
  destruct (status run =? "completed")%string eqn:Hcompleted.
  - injection Hrun as <-. cbn [calls pred]. split; [lia|].
    exists run. split; [exact Hreply|]. apply String.eqb_eq. exact Hcompleted.
  - repeat (match type of Hrun with
            | context [if ?b then _ else _] =>
                destruct b; [unfold throw in Hrun; discriminate|]
            end).
    cbv beta in Hrun.
    apply IH in Hrun. cbn [calls] in Hrun. destruct Hrun as [Hlt Hex].
    split; [lia | exact Hex].
Qed.

(** X6: [waitForRunCompletion] returns only when its last provider call
    was a poll that reported the run completed. *)
Theorem waitForRunCompletion_returns_on_completed (threadId runId : string)
    (signal : option AbortSignal) (s s' : State) :
  waitForRunCompletion provider threadId runId signal s = (Normal tt, s') ->
  (calls s < calls s')%nat
  /\ exists run : Run,
       runsRetrieve provider (pred (calls s')) = inr run
       /\ status run = "completed".
Proof.
  unfold waitForRunCompletion, bind, get. apply pollLoop_normal.
Qed.

Lemma pollLoop_calls (threadId runId : string) (signal : option AbortSignal)
    (startTime : Z) :
  forall (fuel : nat) (s s' : State) (r : Completion unit),
    pollLoop provider fuel threadId runId signal startTime s = (r, s') ->
    calls s' = calls s
    \/ (calls s < calls s')%nat
       /\ 1000 * (Z.of_nat (calls s') - Z.of_nat (calls s) - 1)
          <= timeout - (clock s - startTime).
Proof.
  induction fuel as [|fuel IH]; intros s s' r Hrun.
  { injection Hrun as _ <-. left; reflexivity. }
  simpl in Hrun. unfold bind at 1 in Hrun. unfold signalAborted at 1 in Hrun.
  destruct (match signal with Some sg => aborted sg (clock s) | None => false end).
  { injection Hrun as _ <-. left; reflexivity. }
  unfold bind at 1 in Hrun. unfold get at 1 in Hrun.
  destruct (clock s - startTime >? timeout) eqn:Hlate.
  { injection Hrun as _ <-. left; reflexivity. }
  rewrite Z.gtb_ltb in Hlate. apply Z.ltb_ge in Hlate.
  unfold bind at 1 in Hrun. unfold call at 1 in Hrun.
  destruct (runsRetrieve provider (calls s)) as [e|run].
  { injection Hrun as _ <-. right. cbn [calls]. split; lia. }
  repeat (match type of Hrun with
          | context [if ?b then _ else _] =>
              destruct b;
              [ unfold throw, ret in Hrun; injection Hrun as _ <-;
                right; cbn [calls]; split; lia |]
          end).
  cbv beta in Hrun. apply IH in Hrun. cbn [calls clock] in Hrun.
  right. destruct Hrun as [Hsame|[Hlt Hbound]];
    [rewrite Hsame; split; lia | split; lia].
Qed.

(** X7: [waitForRunCompletion] never polls the provider more than 31
    times, however long the run stays in progress. *)
Theorem waitForRunCompletion_polls_at_most_31 (threadId runId : string)
    (signal : option AbortSignal) (s : State) :
  (calls (snd (waitForRunCompletion provider threadId runId signal s))
   <= calls s + 31)%nat.
Proof.
  unfold waitForRunCompletion, bind, get.
  destruct (pollLoop provider pollFuel threadId runId signal (clock s) s)
    as [r s'] eqn:Hrun.
  cbn [snd].
  destruct (pollLoop_calls threadId runId signal (clock s) pollFuel s s' r Hrun)
    as [Hsame|[Hlt Hbound]]; [lia|].
  unfold timeout in Hbound. lia.
Qed.

End Polling.

Lemma waitForRunCompletion_returns_on_completed_witness :
  (calls Demo.ready
   < calls (snd (AssistantClient.waitForRunCompletion Demo.succeeds "thread_1"
                   "run_1" None Demo.ready)))%nat.
Proof.
  apply (waitForRunCompletion_returns_on_completed Demo.succeeds "thread_1"
           "run_1" None Demo.ready).
  reflexivity.
Defined.

(** ** The fragments of a call *)

Section Fragments.

Import AssistantClient Schedule.

Variable provider : Provider.

Lemma fragments_app (l t : list Event) :
  fragments (l ++ t) = fragments l ++ fragments t.
Proof. unfold fragments. apply flat_map_app. Qed.

Lemma fragments_groupEvents (gs : list (list string)) :
  fragments (flat_map groupEvents gs)
  = map (fun g => (JsString.join " " g ++ " ")%string) gs.
Proof.
  induction gs as [|g gs IH]; [reflexivity|]. simpl. f_equal. exact IH.
Qed.

Lemma concatAll_chunkFragments (text : string) :
  JsString.concatAll (chunkFragments text) = (text ++ " ")%string.
Proof.
  unfold chunkFragments, JsArray.groups.
  rewrite (concatAll_groups " " chunkSize).
  - rewrite (join_split " " text). reflexivity.
  - unfold chunkSize. lia.
  - apply split_not_nil.
  - apply Nat.le_refl.
Qed.

Lemma call_inv {A : Type} (e : Event) (reply : nat -> Thrown + A)
    (s s' : State) (r : Completion A) :
  call e (latency provider) reply s = (r, s') ->
  s' = mkState (assistantId s) (thread s) (retryCount s)
               (clock s + Z.of_N (latency provider (calls s))) (S (calls s))
               (log s ++ [e])
  /\ r = match reply (calls s) with
         | inl err => Throw err
         | inr a => Normal a
         end.
Proof.
  unfold call. destruct (reply (calls s)); intros H; injection H as <- <-;
    split; reflexivity.
Qed.

Lemma pollLoop_fragments (threadId runId : string) (signal : option AbortSignal)
    (startTime : Z) :
  forall (fuel : nat) (s s' : State) (r : Completion unit),
    pollLoop provider fuel threadId runId signal startTime s = (r, s') ->
    fragments (log s') = fragments (log s) /\ retryCount s' = retryCount s.
Proof.
  induction fuel as [|fuel IH]; intros s s' r Hrun.
  { injection Hrun as _ <-. split; reflexivity. }
  simpl in Hrun. unfold bind at 1 in Hrun. unfold signalAborted at 1 in Hrun.
  destruct (match signal with Some sg => aborted sg (clock s) | None => false end).
  { injection Hrun as _ <-. split; reflexivity. }
  unfold bind at 1 in Hrun. unfold get at 1 in Hrun.
  destruct (clock s - startTime >? timeout).
  { injection Hrun as _ <-. split; reflexivity. }
  unfold bind at 1 in Hrun. unfold call at 1 in Hrun.
  assert (Hpush : forall (l : list Event) (e : Event),
            (match e with EvYield _ => False | _ => True end) ->
            fragments (JsArray.push l e) = fragments l).
  { intros l e He. unfold JsArray.push. rewrite fragments_app.
    destruct e; try contradiction; apply app_nil_r. }
  destruct (runsRetrieve provider (calls s)) as [e|run].
  { injection Hrun as _ <-. cbn [log retryCount]. split; [|reflexivity].
    apply Hpush. exact I. }
  repeat (match type of Hrun with
          | context [if ?b then _ else _] =>
              destruct b;
              [ unfold throw, ret in Hrun; injection Hrun as _ <-;
                cbn [log retryCount]; split; [apply Hpush; exact I | reflexivity] |]
          end).
  cbv beta in Hrun. apply IH in Hrun. cbn [log retryCount] in Hrun.
  destruct Hrun as [Hf Hr]. split; [|exact Hr].
  rewrite Hf, !Hpush by exact I. reflexivity.
Qed.

(** What an attempt leaves, by its outcome: a failed attempt has yielded
    nothing; a successful one has yielded the fragments of the text of the
    first content item of the most recent message, which the provider
    returned in its last call, as an assistant message of type text. *)
Lemma tryBody_outcome (content : string) (signal : option AbortSignal)
    (threadId : string) (s s1 : State) (r : Completion unit) :
  tryBody provider content signal threadId s = (r, s1) ->
  ((forall u : unit, r <> Normal u) /\ fragments (log s1) = fragments (log s))
  \/ (r = Normal tt
      /\ exists (lastMessage : ThreadMessage) (rest : list ThreadMessage)
                (messageContent : MessageContent) (more : list MessageContent),
           messagesList provider (pred (calls s1)) = inr (lastMessage :: rest)
           /\ msg_role lastMessage = "assistant"
           /\ msg_content lastMessage = messageContent :: more
           /\ content_type messageContent = "text"
           /\ fragments (log s1)
              = fragments (log s) ++ chunkFragments (text_value messageContent)).
Proof.
  unfold tryBody. intros Hrun.
  unfold bind at 1 in Hrun.
  destruct (call (EvMessagesCreate threadId content) (latency provider)
              (messagesCreate provider) s) as [[u| e |] a1] eqn:H1;
    apply call_inv in H1; destruct H1 as [Ha1 _];
    try (injection Hrun as <- <-; left; split; [discriminate|];
         subst a1; cbn [log]; rewrite fragments_app; apply app_nil_r).
  assert (Hf1 : fragments (log a1) = fragments (log s)).
  { subst a1. cbn [log]. rewrite fragments_app. apply app_nil_r. }
  clear Ha1.
  unfold bind at 1 in Hrun. unfold get at 1 in Hrun.
  unfold bind at 1 in Hrun.
  destruct (call (EvRunsCreate threadId (assistantId a1)) (latency provider)
              (runsCreate provider) a1) as [[runId| e |] a2] eqn:H2;
    apply call_inv in H2; destruct H2 as [Ha2 _];
    try (injection Hrun as <- <-; left; split; [discriminate|];
         subst a2; cbn [log]; rewrite fragments_app, Hf1; apply app_nil_r).
  assert (Hf2 : fragments (log a2) = fragments (log s)).
  { subst a2. cbn [log]. rewrite fragments_app, Hf1. apply app_nil_r. }
  clear Ha2 Hf1.
  unfold bind at 1 in Hrun.
  destruct (waitForRunCompletion provider threadId runId signal a2)
    as [[u'| e |] a3] eqn:H3;
    unfold waitForRunCompletion, bind, get in H3;
    apply pollLoop_fragments in H3; destruct H3 as [Hf3 _];
    try (injection Hrun as <- <-; left; split; [discriminate|]; congruence).
  rewrite Hf2 in Hf3. clear Hf2.
  unfold bind at 1 in Hrun.
  destruct (call (EvMessagesList threadId) (latency provider)
              (messagesList provider) a3) as [[messages| e |] a4] eqn:H4;
    apply call_inv in H4; destruct H4 as [Ha4 Hr4];
    try (injection Hrun as <- <-; left; split; [discriminate|];
         subst a4; cbn [log]; rewrite fragments_app, Hf3; apply app_nil_r).
  assert (Hf4 : fragments (log a4) = fragments (log s)).
  { subst a4. cbn [log]. rewrite fragments_app, Hf3. apply app_nil_r. }
  assert (Hc4 : pred (calls a4) = calls a3) by (subst a4; reflexivity).
  assert (Hreply : messagesList provider (calls a3) = inr messages).
  { destruct (messagesList provider (calls a3)); [discriminate|congruence]. }
  clear Ha4 Hr4 Hf3.
  destruct messages as [|lastMessage rest];
    [injection Hrun as <- <-; left; split; [discriminate | exact Hf4]|].
  destruct (msg_role lastMessage =? "assistant")%string eqn:Hrole;
    cbn [negb] in Hrun;
    [|injection Hrun as <- <-; left; split; [discriminate | exact Hf4]].
  destruct (msg_content lastMessage) as [|messageContent more] eqn:Hcontent;
    [injection Hrun as <- <-; left; split; [discriminate | exact Hf4]|].
  destruct (content_type messageContent =? "text")%string eqn:Htype;
    cbn [negb] in Hrun;
    [|injection Hrun as <- <-; left; split; [discriminate | exact Hf4]].
  rewrite chunkLoop_run in Hrun by (simpl skipn; lia).
  cbv zeta in Hrun.
  change (skipn 0 (JsString.split " " (text_value messageContent)))
    with (JsString.split " " (text_value messageContent)) in Hrun.
  set (gs := JsArray.groupsOf
               (S (List.length (JsString.split " " (text_value messageContent))))
               chunkSize (JsString.split " " (text_value messageContent))) in Hrun.
  injection Hrun as <- <-. right. split; [reflexivity|].
  exists lastMessage, rest, messageContent, more.
  cbn [calls log]. rewrite Hc4.
  repeat split; try assumption; try (apply String.eqb_eq; assumption).
  rewrite fragments_app, Hf4, fragments_groupEvents.
  unfold chunkFragments, JsArray.groups, gs.
  rewrite (groupsOf_fuel chunkSize (JsString.split " " (text_value messageContent)))
    with (f := S (List.length (JsString.split " " (text_value messageContent))))
         (f' := List.length (JsString.split " " (text_value messageContent)));
    [reflexivity | unfold chunkSize; lia | lia | lia].
Qed.

End Fragments.

Section FragmentsOfCall.

Import AssistantClient Schedule.

Variable provider : Provider.

Lemma streamMessageRec_fragments (content : string) (signal : option AbortSignal)
    (threadId : string) :
  forall (fuel : nat) (s s' : State) (r : Completion unit),
    thread s = Some threadId ->
    streamMessageRec provider fuel content signal s = (r, s') ->
    fragments (log s') = fragments (log s)
    \/ exists text : string,
         fragments (log s') = fragments (log s) ++ chunkFragments text.
Proof.
  induction fuel as [|fuel IH]; intros s s' r Hthread Hrun;
    rewrite (streamMessageRec_unfold provider _ _ _ threadId) in Hrun
      by exact Hthread;
    pose proof (attempt_observed provider content signal threadId s) as (Ht & _);
    destruct (tryBody provider content signal threadId s) as [r1 s1] eqn:Htry;
    cbn [snd] in Ht;
    destruct (tryBody_outcome provider content signal threadId s s1 r1 Htry)
      as [[Hfail Hf]|[-> (lastMessage & rest & mc & more & _ & _ & _ & _ & Hf)]];
    try (injection Hrun as <- <-; right; exists (text_value mc); exact Hf);
    (destruct r1 as [u|[name message|v]|];
     [ exfalso; apply (Hfail u); reflexivity | | | ]);
    try (injection Hrun as <- <-; left; exact Hf);
    (destruct (name =? "AbortError")%string;
     [injection Hrun as <- <-; left; exact Hf|]);
    (destruct (retryCount s1 <? maxRetries);
     [| injection Hrun as <- <-; left; exact Hf]).
  - rewrite exponentialBackoff_state in Hrun. cbn [snd] in Hrun.
    injection Hrun as <- <-. left. cbn [log].
    rewrite fragments_app, Hf. apply app_nil_r.
  - destruct (streamMessageRec provider fuel content signal
                (snd (exponentialBackoff s1))) as [r2 s2] eqn:Hrec.
    assert (Hs' : s' = s2).
    { destruct r2 as [u| e |]; injection Hrun as _ <-; reflexivity. }
    subst s'.
    apply IH in Hrec; [|rewrite exponentialBackoff_state; cbn [snd thread]; congruence].
    rewrite exponentialBackoff_state in Hrec. cbn [snd log] in Hrec.
    rewrite fragments_app in Hrec. simpl fragments in Hrec at 2 4.
    rewrite app_nil_r in Hrec. rewrite Hf in Hrec. exact Hrec.
Qed.

(** X8: whatever the retries, a call yields either nothing or the
    fragments of one single answer text: an attempt that fails has yielded
    nothing, so a retry never repeats or mixes fragments. *)
Theorem streamMessage_fragments_of_one_attempt (content : string)
    (signal : option AbortSignal) (s : State) :
  let s' := snd (streamMessage provider content signal s) in
  fragments (log s') = fragments (log s)
  \/ exists text : string,
       fragments (log s') = fragments (log s) ++ chunkFragments text.
Proof.
  cbv zeta. unfold streamMessage.
  destruct (thread s) as [threadId|] eqn:Hthread.
  - destruct (streamMessageRec provider (streamFuel s) content signal s)
      as [r s'] eqn:Hrun.
    apply (streamMessageRec_fragments content signal threadId _ s s' r Hthread Hrun).
  - rewrite streamMessageRec_no_thread by exact Hthread. left. reflexivity.
Qed.

(** X9: when the first attempt goes through, the call returns normally
    with the state the attempt left, the retry counter untouched and no
    backoff slept; the fragments yielded are those of the text of the most
    recent message, which the provider returned as an assistant message
    whose first content item is of type text; and put end to end they are
    that text followed by one space. *)
Theorem streamMessage_first_attempt (content : string)
    (signal : option AbortSignal) (threadId : string) (s s1 : State) :
  thread s = Some threadId ->
  tryBody provider content signal threadId s = (Normal tt, s1) ->
  streamMessage provider content signal s = (Normal tt, s1)
  /\ retryCount s1 = retryCount s
  /\ backoffDelays (log s1) = backoffDelays (log s)
  /\ exists (lastMessage : ThreadMessage) (rest : list ThreadMessage)
            (messageContent : MessageContent) (more : list MessageContent),
       messagesList provider (pred (calls s1)) = inr (lastMessage :: rest)
       /\ msg_role lastMessage = "assistant"
       /\ msg_content lastMessage = messageContent :: more
       /\ content_type messageContent = "text"
       /\ fragments (log s1)
          = fragments (log s) ++ chunkFragments (text_value messageContent)
       /\ JsString.concatAll (chunkFragments (text_value messageContent))
          = (text_value messageContent ++ " ")%string.
Proof.
  intros Hthread Htry.
  pose proof (attempt_observed provider content signal threadId s)
    as (_ & Hr & _ & Hb).
  rewrite Htry in Hr, Hb. cbn [snd] in Hr, Hb.
  split; [|split; [exact Hr | split; [exact Hb|]]].
  - unfold streamMessage.
    rewrite (streamMessageRec_unfold provider _ _ _ threadId) by exact Hthread.
    rewrite Htry. reflexivity.
  - destruct (tryBody_outcome provider content signal threadId s s1 _ Htry)
      as [[Hfail _]|[_ (lastMessage & rest & mc & more & H1 & H2 & H3 & H4 & H5)]].
    + exfalso. apply (Hfail tt). reflexivity.
    + exists lastMessage, rest, mc, more. repeat split; try assumption.
      apply concatAll_chunkFragments.
Qed.

End FragmentsOfCall.

Lemma streamMessage_first_attempt_witness :
  AssistantClient.streamMessage (Schedule.answering "good morning") "hi" None
    Demo.ready
  = (Normal tt,
     snd (AssistantClient.tryBody (Schedule.answering "good morning") "hi" None
            "thread_1" Demo.ready)).
Proof.
  apply (streamMessage_first_attempt (Schedule.answering "good morning") "hi"
           None "thread_1" Demo.ready); reflexivity.
Defined.

(** ** Strings: substrings and splitting *)

Lemma length_append (a b : string) :
  String.length (a ++ b) = (String.length a + String.length b)%nat.
Proof. induction a as [|c a IH]; simpl; [reflexivity | rewrite IH; reflexivity]. Qed.

Lemma substring_prefix (a r : string) :
  substring 0 (String.length a) (a ++ r) = a.
Proof.
  induction a as [|c a IH]; simpl.
  - destruct r; reflexivity.
  - rewrite IH. reflexivity.
Qed.

Lemma substring_skip (a r : string) (n m : nat) :
  substring (String.length a + n) m (a ++ r) = substring n m r.
Proof. induction a as [|c a IH]; simpl; [reflexivity | exact IH]. Qed.

(** A string that contains [sub] says so. *)
Lemma includes_app (sub a b : string) :
  sub <> EmptyString -> JsString.includes sub (a ++ sub ++ b) = true.
Proof.
  intros Hsub. unfold JsString.includes.
  destruct (index 0 sub (a ++ sub ++ b)) as [i|] eqn:Hindex; [reflexivity|].
  exfalso.
  apply (index_correct3 0 (String.length a) sub _ Hindex Hsub (Nat.le_0_l _)).
  rewrite <- (Nat.add_0_r (String.length a)), substring_skip.
  apply substring_prefix.
Qed.

(** Splitting a text cut by a separator splits its two parts. *)
Lemma split_app (c : ascii) (x y : string) :
  JsString.split c (x ++ String c y) = JsString.split c x ++ JsString.split c y.
Proof.
  induction x as [|a x IH]; simpl.
  - rewrite Ascii.eqb_refl. reflexivity.
  - destruct (Ascii.eqb a c); [rewrite IH; reflexivity|].
    rewrite IH. pose proof (split_not_nil c x) as Hne.
    destruct (JsString.split c x); [contradiction | reflexivity].
Qed.

Lemma split_without_separator (c : ascii) (w : string) :
  existsb (fun a => Ascii.eqb a c) (list_ascii_of_string w) = false ->
  JsString.split c w = [w].
Proof.
  induction w as [|a w IH]; simpl; [reflexivity|].
  intros H. apply orb_false_iff in H. destruct H as [Ha Hw].
  rewrite Ha, (IH Hw). reflexivity.
Qed.

(** Splitting what was joined gives back the pieces, when none is empty
    and none holds the separator. *)
Lemma split_join (c : ascii) (names : list string) :
  Forall (fun n => JsString.truthy n = true
                   /\ existsb (fun a => Ascii.eqb a c) (list_ascii_of_string n)
                      = false) names ->
  filter JsString.truthy (JsString.split c (JsString.join (String c "") names))
  = names.
Proof.
  induction 1 as [|n names [Hn Hc] Hrest IH]; [reflexivity|].
  destruct names as [|n2 names].
  - simpl JsString.join. rewrite (split_without_separator c n Hc).
    simpl. rewrite Hn. reflexivity.
  - change (JsString.join (String c "") (n :: n2 :: names))
      with (n ++ String c (JsString.join (String c "") (n2 :: names)))%string.
    rewrite split_app, (split_without_separator c n Hc).
    simpl filter. rewrite Hn. f_equal. exact IH.
Qed.

Lemma prefix_id_app (c : ascii) (a b : string) :
  prefix "_id" (String c a) = false ->
  prefix "_id" (String c (a ++ "_id" ++ b)) = false.
Proof.
  intros H.
  destruct a as [|c2 [|c3 a]]; cbn [prefix append] in *;
    repeat (match goal with
            | |- context [ascii_dec ?x ?y] =>
                destruct (ascii_dec x y); try subst y
            end; cbn [prefix append] in *);
    try reflexivity; try discriminate; try congruence.
  destruct a; discriminate H.
Qed.

(** The first "_id" of a name that has none before it. *)
Lemma index_id_first (a b : string) :
  JsString.includes "_id" a = false ->
  index 0 "_id" (a ++ "_id" ++ b) = Some (String.length a).
Proof.
  unfold JsString.includes.
  induction a as [|c a IH]; intros Hnone.
  - destruct b; reflexivity.
  - change (index 0 "_id" (String c a ++ "_id" ++ b))
      with (if prefix "_id" (String c (a ++ "_id" ++ b)) then Some O
            else match index 0 "_id" (a ++ "_id" ++ b) with
                 | Some n => Some (S n)
                 | None => None
                 end).
    change (index 0 "_id" (String c a))
      with (if prefix "_id" (String c a) then Some O
            else match index 0 "_id" a with
                 | Some n => Some (S n)
                 | None => None
                 end) in Hnone.
    destruct (prefix "_id" (String c a)) eqn:Hprefix; [discriminate|].
    rewrite (prefix_id_app c a b Hprefix).
    rewrite IH; [reflexivity|].
    destruct (index 0 "_id" a); [discriminate | reflexivity].
Qed.

(** ** Loading and ranking *)

Section LoadingFacts.

Import GraphRAG.

(** X10: once [loadData] has succeeded, [ensureInitialized] does
    nothing: it returns normally and leaves the client as it is, whatever
    the two fetches would now answer. *)
Theorem ensureInitialized_idempotent
    (fetchEmbeddings fetchEmbeddings' : Thrown + Response (list (string * list float)))
    (fetchNames fetchNames' : Thrown + Response string)
    (this this' : GraphRAGClient) :
  loadData fetchEmbeddings fetchNames this = (Normal tt, this') ->
  ensureInitialized fetchEmbeddings' fetchNames' this' = (Normal tt, this').
Proof.
  unfold loadData. intros Hload.
  assert (Hinit : initialized this' = true).
  { destruct fetchEmbeddings as [e|[ok1 st1 [e|embeddings]]]; simpl in Hload;
      try discriminate; destruct ok1; simpl in Hload; try discriminate.
    destruct fetchNames as [e|[ok2 st2 [e|text]]]; simpl in Hload;
      try discriminate; destruct ok2; simpl in Hload; try discriminate.
    injection Hload as <-. reflexivity. }
  unfold ensureInitialized. rewrite Hinit. reflexivity.
Qed.

(** X11: a [loadData] that fails never marks the client initialized and
    never touches the stored names, so the next [ensureInitialized] of a
    client not yet initialized loads again; the embeddings may already
    have been replaced by then. *)
Theorem loadData_failure
    (fetchEmbeddings fetchEmbeddings' : Thrown + Response (list (string * list float)))
    (fetchNames fetchNames' : Thrown + Response string)
    (this this' : GraphRAGClient) (e : Thrown) :
  initialized this = false ->
  loadData fetchEmbeddings fetchNames this = (Throw e, this') ->
  initialized this' = false
  /\ nodeNames this' = nodeNames this
  /\ ensureInitialized fetchEmbeddings' fetchNames' this'
     = loadData fetchEmbeddings' fetchNames' this'.
Proof.
  intros Hinit Hload. unfold loadData in Hload.
  assert (Hkeep : initialized this' = false /\ nodeNames this' = nodeNames this).
  { repeat match type of Hload with
           | context [match ?x with inl _ => _ | inr _ => _ end] =>
               destruct x; cbn [ok body statusText negb] in Hload
           | context [if negb ?b then _ else _] =>
               destruct b; cbn [negb] in Hload
           | context [ok ?r] => destruct r; cbn [ok body statusText] in Hload
           end;
      try discriminate; injection Hload as _ <-;
      split; first [exact Hinit | reflexivity]. }
  destruct Hkeep as [Hi Hn]. repeat split; try assumption.
  unfold ensureInitialized. rewrite Hi. reflexivity.
Qed.

(** X12: the names come back from the names artifact: when the text is
    the names joined by line feeds, with or without a final line feed, and
    no name is empty or holds a line feed, [loadData] stores exactly these
    names, in order. *)
Theorem loadData_names_round_trip (names : list string)
    (embeddings : list (string * list float)) (status1 status2 : string)
    (this : GraphRAGClient) :
  Forall (fun n => JsString.truthy n = true
                   /\ existsb (fun a => Ascii.eqb a "010")
                              (list_ascii_of_string n) = false) names ->
  loadData (inr (mkResponse true status1 (inr embeddings)))
           (inr (mkResponse true status2
                   (inr (JsString.join Demo.newline names)))) this
  = (Normal tt, mkClient embeddings names true)
  /\ loadData (inr (mkResponse true status1 (inr embeddings)))
              (inr (mkResponse true status2
                      (inr (JsString.join Demo.newline names ++ Demo.newline)%string)))
              this
     = (Normal tt, mkClient embeddings names true).
Proof.
  intros Hnames. unfold loadData. cbn [ok body negb nodeEmbeddings].
  split.
  - unfold Demo.newline. rewrite (split_join "010" names Hnames). reflexivity.
  - unfold Demo.newline.
    change (JsString.join (String "010" "") names ++ String "010" "")%string
      with (JsString.join (String "010" "") names ++ String "010" EmptyString)%string.
    rewrite split_app, filter_app.
    rewrite (split_join "010" names Hnames). simpl. rewrite app_nil_r. reflexivity.
Qed.

(** X13: for breadths [0 <= k <= k'], the answer for [k] is the first
    [k] entries of the answer for [k']; every entry returned is a stored
    node with the cosine similarity of its own vector to the query; and a
    breadth of at least the number of stored vectors returns them all.
    None of this depends on the similarities being comparable. *)
Theorem queryFaissIndex_entries (this : GraphRAGClient)
    (queryEmbedding : list float) (k k' : Z) :
  0 <= k <= k' ->
  queryFaissIndex this queryEmbedding k
  = firstn (Z.to_nat k) (queryFaissIndex this queryEmbedding k')
  /\ (forall r : Scored,
        In r (queryFaissIndex this queryEmbedding k) ->
        exists embedding : list float,
          In (name r, embedding) (nodeEmbeddings this)
          /\ similarity r = cosineSimilarity queryEmbedding embedding)
  /\ (Z.of_nat (List.length (nodeEmbeddings this)) <= k ->
      Permutation (queryFaissIndex this queryEmbedding k)
                  (similarities this queryEmbedding)).
Proof.
  intros [Hk Hk']. unfold queryFaissIndex.
  rewrite !sliceTo_firstn by lia.
  set (sorted := JsArray.sort bySimilarity (similarities this queryEmbedding)).
  pose proof (sort_perm bySimilarity (similarities this queryEmbedding)) as Hperm.
  fold sorted in Hperm.
  split; [|split].
  - rewrite firstn_firstn. f_equal. lia.
  - intros r Hr. apply In_firstn in Hr.
    apply (Permutation_in _ Hperm) in Hr.
    unfold similarities in Hr. apply in_map_iff in Hr.
    destruct Hr as [[n embedding] [<- Hin]].
    exists embedding. split; [exact Hin | reflexivity].
  - intros Hall. rewrite firstn_all2; [exact Hperm|].
    rewrite (Permutation_length Hperm).
    unfold similarities. rewrite length_map. lia.
Qed.

End LoadingFacts.

Lemma ensureInitialized_idempotent_witness :
  GraphRAG.ensureInitialized (inl (newError "offline")) (inl (newError "offline"))
    Demo.loaded
  = (Normal tt, Demo.loaded).
Proof.
  apply (ensureInitialized_idempotent
           (Demo.okResponse Demo.embeddingsArtifact) (inl (newError "offline"))
           (Demo.okResponse Demo.namesArtifact) (inl (newError "offline"))
           GraphRAG.construct Demo.loaded).
  vm_compute. reflexivity.
Defined.

Lemma loadData_failure_witness :
  GraphRAG.initialized
    (snd (GraphRAG.loadData (Demo.okResponse Demo.embeddingsArtifact)
            (inl (newError "offline")) GraphRAG.construct))
  = false.
Proof.
  apply (loadData_failure
           (Demo.okResponse Demo.embeddingsArtifact)
           (Demo.okResponse Demo.embeddingsArtifact)
           (inl (newError "offline")) (Demo.okResponse Demo.namesArtifact)
           GraphRAG.construct _ (newError "offline")); reflexivity.
Defined.

Lemma loadData_names_round_trip_witness :
  GraphRAG.loadData
    (inr (GraphRAG.mkResponse true "OK" (inr Demo.embeddingsArtifact)))
    (inr (GraphRAG.mkResponse true "OK"
            (inr (JsString.join Demo.newline ["admit_rate"; "unitid"]))))
    GraphRAG.construct
  = (Normal tt,
     GraphRAG.mkClient Demo.embeddingsArtifact ["admit_rate"; "unitid"] true).
Proof.
  apply (loadData_names_round_trip ["admit_rate"; "unitid"]
           Demo.embeddingsArtifact "OK" "OK" GraphRAG.construct).
  repeat constructor.
Defined.

Lemma queryFaissIndex_entries_witness :
  GraphRAG.queryFaissIndex Demo.loaded [1%float; 0%float] 1
  = firstn 1 (GraphRAG.queryFaissIndex Demo.loaded [1%float; 0%float] 2).
Proof.
  apply (queryFaissIndex_entries Demo.loaded [1%float; 0%float] 1 2).
  split; discriminate.
Defined.

(** ** Enrichment and the knowledge-graph query *)

Section EnrichmentFacts.

Import GraphRAG KnowledgeGraph.

(** X14: [inferFormat] answers one of five formats, and a name that
    mentions "pct" or "rate" anywhere is a percentage whatever else it
    mentions. *)
Theorem inferFormat_percentage_first (nodeName a b : string) :
  In (inferFormat nodeName) ["percentage"; "date"; "identifier"; "string"; "numeric"]
  /\ inferFormat (a ++ "pct" ++ b) = "percentage"
  /\ inferFormat (a ++ "rate" ++ b) = "percentage".
Proof.
  split; [|split].
  - unfold inferFormat.
    repeat (match goal with
            | |- context [if ?c then _ else _] => destruct c
            end; simpl; auto 6).
  - unfold inferFormat. rewrite includes_app by discriminate. reflexivity.
  - unfold inferFormat. rewrite (includes_app "rate") by discriminate.
    rewrite orb_true_r. reflexivity.
Qed.

(** X15: a name without "_id" gets the two universal relationships and
    nothing else; followed by "_id" and anything more, it gets a third,
    IDENTIFIES, whose target is the name with that first "_id" taken out
    (the rest is kept, also when "_id" is not at the end). *)
Theorem fetchRelationships_first_id (a b : string) :
  JsString.includes "_id" a = false ->
  fetchRelationships a
  = [mkRelationship "EXISTS_IN" "directory"; mkRelationship "PROVIDED_BY" "ipeds"]
  /\ fetchRelationships (a ++ "_id" ++ b)
     = [ mkRelationship "EXISTS_IN" "directory";
         mkRelationship "PROVIDED_BY" "ipeds";
         mkRelationship "IDENTIFIES" (a ++ b) ].
Proof.
  intros Hnone.
  assert (Hreplace : JsString.replace "_id" "" (a ++ "_id" ++ b) = (a ++ b)%string).
  { unfold JsString.replace. rewrite (index_id_first a b Hnone).
    rewrite substring_prefix.
    change (String.length "_id") with 3%nat.
    rewrite substring_skip, length_append.
    replace (String.length a + String.length ("_id" ++ b) - (String.length a + 3))%nat
      with (String.length b) by (simpl String.length; lia).
    change (substring 3 (String.length b) ("_id" ++ b))
      with (substring 0 (String.length b) b).
    rewrite <- (append_empty_r b) at 2. rewrite substring_prefix. reflexivity. }
  unfold fetchRelationships. rewrite Hnone.
  split; [reflexivity|].
  rewrite (includes_app "_id") by discriminate.
  rewrite Hreplace. reflexivity.
Qed.

Lemma underscoresToSpaces_clean (s : string) :
  existsb (fun c => Ascii.eqb c "_") (list_ascii_of_string (underscoresToSpaces s))
  = false
  /\ String.length (underscoresToSpaces s) = String.length s.
Proof.
  induction s as [|c s [IH1 IH2]]; [split; reflexivity|].
  simpl. rewrite IH1, IH2. split; [|reflexivity].
  destruct (Ascii.eqb c "_") eqn:Hc; [reflexivity|].
  rewrite Hc. reflexivity.
Qed.

Lemma existsb_append (p : ascii -> bool) (a b : string) :
  existsb p (list_ascii_of_string (a ++ b))
  = (existsb p (list_ascii_of_string a) || existsb p (list_ascii_of_string b))%bool.
Proof.
  induction a as [|c a IH]; simpl; [reflexivity|].
  rewrite IH. apply orb_assoc.
Qed.

Lemma truthy_append (a b : string) :
  JsString.truthy b = true -> JsString.truthy (a ++ b) = true.
Proof. intros Hb. destruct a; [exact Hb | reflexivity]. Qed.

(** X16: the node built for a ranked entry never takes one of the
    fallbacks of [formatNodeDetails]: its label is the name with every
    underscore turned into a space, followed by " field" (so it holds no
    underscore and is six characters longer than the name), its format is
    the inferred one, its type is "Variable", and it carries the entry's
    name and similarity and the relationships of the name. *)
Theorem describe_fields (entry : Scored) :
  Chat.node_name (describe entry) = name entry
  /\ Chat.node_label (describe entry)
     = (underscoresToSpaces (name entry) ++ " field")%string
  /\ existsb (fun c => Ascii.eqb c "_")
             (list_ascii_of_string (Chat.node_label (describe entry))) = false
  /\ String.length (Chat.node_label (describe entry))
     = (String.length (name entry) + 6)%nat
  /\ Chat.node_format (describe entry) = inferFormat (name entry)
  /\ Chat.node_type (describe entry) = "Variable"
  /\ Chat.node_similarity (describe entry) = similarity entry
  /\ Chat.node_relationships (describe entry) = fetchRelationships (name entry).
Proof.
  assert (Hlabel : Chat.node_label (describe entry)
                   = (underscoresToSpaces (name entry) ++ " field")%string).
  { unfold describe, formatNodeDetails, fetchNodeDetails, orElse.
    cbn [Chat.node_label p_label].
    rewrite truthy_append by reflexivity. reflexivity. }
  destruct (underscoresToSpaces_clean (name entry)) as [Hclean Hlen].
  repeat split.
  - exact Hlabel.
  - rewrite Hlabel, existsb_append, Hclean. reflexivity.
  - rewrite Hlabel, length_append, Hlen. reflexivity.
  - unfold describe, formatNodeDetails, fetchNodeDetails, orElse.
    cbn [Chat.node_format p_format].
    destruct (inferFormat_percentage_first (name entry) "" "") as [Hrange _].
    simpl in Hrange.
    destruct Hrange as [H|[H|[H|[H|[H|[]]]]]]; rewrite <- H; reflexivity.
Qed.

Lemma StronglySorted_map {A B : Type} (f : A -> B) (R : B -> B -> Prop)
    (l : list A) :
  StronglySorted (fun a b => R (f a) (f b)) l -> StronglySorted R (map f l).
Proof.
  induction 1 as [|x l _ IH Hall]; simpl; constructor; [exact IH|].
  rewrite Forall_forall in *. intros e He.
  apply in_map_iff in He. destruct He as (a & <- & Ha). apply Hall. exact Ha.
Qed.

(** X17: for a client and an embedding reply for which no computed
    similarity is NaN, [queryKnowledgeGraph] resolves exactly when the
    embedding call resolves with at least one embedding and the completion
    call resolves with at least one choice; a rejection of either call
    fails the whole query.  It then made these two calls in this order, the
    second with the nodes it returns; the nodes are those built for the
    five best entries for the first embedding, one per stored vector when
    there are fewer than five: they come in non-increasing order of
    similarity and no stored entry left out has a similarity above that of
    a node returned; and the response is the content of the first choice,
    or 'No response generated' when that is missing or empty, so never
    empty. *)
Theorem queryKnowledgeGraph_resolves (this : GraphRAGClient) (query : string)
    (embeddingsCreate : Thrown + list (list float))
    (chatCompletionsCreate : list Chat.NodeDetails -> Thrown + list (option string))
    (result : QueryResult) (calls : list Call) :
  (forall (queryEmbedding : list float) (others : list (list float)),
     embeddingsCreate = inr (queryEmbedding :: others) ->
     Forall (fun r => JsNumber.isNaN (similarity r) = false)
            (similarities this queryEmbedding)) ->
  queryKnowledgeGraph this query embeddingsCreate chatCompletionsCreate
  = (Normal result, calls)
  <-> exists (queryEmbedding : list float) (others : list (list float))
             (content : option string) (more : list (option string))
             (leftOut : list Scored),
        embeddingsCreate = inr (queryEmbedding :: others)
        /\ chatCompletionsCreate (relevantNodes result) = inr (content :: more)
        /\ relevantNodes result
           = map describe (queryFaissIndex this queryEmbedding 5)
        /\ List.length (relevantNodes result)
           = Nat.min 5 (List.length (nodeEmbeddings this))
        /\ Permutation (queryFaissIndex this queryEmbedding 5 ++ leftOut)
                       (similarities this queryEmbedding)
        /\ StronglySorted
             (fun a b => PrimFloat.leb (Chat.node_similarity b)
                                       (Chat.node_similarity a) = true)
             (relevantNodes result)
        /\ (forall (a : Chat.NodeDetails) (b : Scored),
              In a (relevantNodes result) -> In b leftOut ->
              PrimFloat.leb (similarity b) (Chat.node_similarity a) = true)
        /\ enhancedResponse result = orElse content "No response generated"
        /\ JsString.truthy (enhancedResponse result) = true
        /\ calls = [ EmbeddingsCreate query "text-embedding-ada-002";
                     ChatCompletionsCreate "gpt-4o-mini" (relevantNodes result)
                                           query ].
Proof.
  intros Hnum.
  assert (Hlen : forall q, List.length (map describe (queryFaissIndex this q 5))
                           = Nat.min 5 (List.length (nodeEmbeddings this))).
  { intros q. rewrite length_map. unfold queryFaissIndex.
    rewrite sliceTo_firstn by discriminate.
    rewrite length_firstn, (Permutation_length (sort_perm bySimilarity _)).
    unfold similarities. rewrite length_map. reflexivity. }
  assert (Htruthy : forall content,
            JsString.truthy (orElse content "No response generated") = true).
  { intros [value|]; [|reflexivity]. unfold orElse.
    destruct (JsString.truthy value) eqn:Hv; [exact Hv | reflexivity]. }
  unfold queryKnowledgeGraph. split.
  - intros Hrun.
    destruct embeddingsCreate as [e|[|queryEmbedding others]]; try discriminate.
    specialize (Hnum queryEmbedding others eq_refl).
    cbv zeta in Hrun.
    destruct (chatCompletionsCreate
                (map describe (queryFaissIndex this queryEmbedding 5)))
      as [e|[|content more]] eqn:Hchat; try discriminate.
    injection Hrun as <- <-. cbn [relevantNodes enhancedResponse].
    pose proof (sort_by_similarity (similarities this queryEmbedding) Hnum)
      as Hsorted.
    assert (Hbest : queryFaissIndex this queryEmbedding 5
                    = firstn 5 (JsArray.sort bySimilarity
                                  (similarities this queryEmbedding))).
    { unfold queryFaissIndex. apply sliceTo_firstn. discriminate. }
    exists queryEmbedding, others, content, more,
      (skipn 5 (JsArray.sort bySimilarity (similarities this queryEmbedding))).
    rewrite Hbest in *. rewrite firstn_skipn.
    split; [reflexivity|]. split; [exact Hchat|]. split; [reflexivity|].
    split; [rewrite <- Hbest; apply Hlen|].
    split; [apply sort_perm|].
    split; [apply StronglySorted_map; apply StronglySorted_firstn; exact Hsorted|].
    split; [|split; [reflexivity | split; [apply Htruthy | reflexivity]]].
    intros a b Ha Hb. apply in_map_iff in Ha. destruct Ha as (r & <- & Hr).
    change (Chat.node_similarity (describe r)) with (similarity r).
    apply (StronglySorted_app_inv _ _ _ ltac:(rewrite firstn_skipn; exact Hsorted)
             r b Hr Hb).
  - intros (queryEmbedding & others & content & more & leftOut
            & -> & Hchat & Hnodes & _ & _ & _ & _ & Hresponse & _ & ->).
    cbv zeta. rewrite <- Hnodes, Hchat, <- Hresponse.
    destruct result; reflexivity.
Qed.

End EnrichmentFacts.

Lemma queryKnowledgeGraph_resolves_witness :
  KnowledgeGraph.queryKnowledgeGraph Demo.loaded "admission rates"
    (inr [[1%float; 0%float]]) (fun _ => inr [Some "An answer."])
  = (Normal (KnowledgeGraph.mkResult
               (map KnowledgeGraph.describe
                    (GraphRAG.queryFaissIndex Demo.loaded [1%float; 0%float] 5))
               "An answer."),
     [ KnowledgeGraph.EmbeddingsCreate "admission rates" "text-embedding-ada-002";
       KnowledgeGraph.ChatCompletionsCreate "gpt-4o-mini"
         (map KnowledgeGraph.describe
              (GraphRAG.queryFaissIndex Demo.loaded [1%float; 0%float] 5))
         "admission rates" ]).
Proof.
  apply (queryKnowledgeGraph_resolves Demo.loaded "admission rates"
           (inr [[1%float; 0%float]]) (fun _ => inr [Some "An answer."])).
  - intros queryEmbedding others H. injection H as <- <-. repeat constructor.
  - exists [1%float; 0%float], [], (Some "An answer."), [], [].
    split; [reflexivity|]. split; [reflexivity|]. split; [reflexivity|].
    split; [reflexivity|].
    split; [vm_compute; apply Permutation_refl|].
    split; [vm_compute; repeat constructor|].
    split; [intros a b _ []|].
    split; [reflexivity|]. split; reflexivity.
Defined.

Lemma fetchRelationships_first_id_witness :
  GraphRAG.fetchRelationships "student_id_type"
  = [ GraphRAG.mkRelationship "EXISTS_IN" "directory";
      GraphRAG.mkRelationship "PROVIDED_BY" "ipeds";
      GraphRAG.mkRelationship "IDENTIFIES" "student_type" ].
Proof.
  apply (fetchRelationships_first_id "student" "_type"). reflexivity.
Defined.

(** ** Submitting and regenerating *)

Section SubmitFacts.

Import Chat ChatActions.

Lemma strip_whiteSpace (cp : N) (rest : list ascii) :
  In cp JsString.whiteSpaceCodePoints ->
  JsString.stripAny (map JsString.utf8 JsString.whiteSpaceCodePoints)
                    (JsString.utf8 cp ++ rest) = Some rest
  /\ (1 <= List.length (JsString.utf8 cp))%nat.
Proof.
  intros Hin. unfold JsString.whiteSpaceCodePoints in Hin.
  repeat (destruct Hin as [<-|Hin]; [split; [reflexivity | simpl; lia]|]).
  contradiction.
Qed.

Lemma stripAll_blank (codePoints : list N) :
  Forall (fun cp => In cp JsString.whiteSpaceCodePoints) codePoints ->
  forall fuel : nat,
    (List.length (flat_map JsString.utf8 codePoints) <= fuel)%nat ->
    JsString.stripAll (map JsString.utf8 JsString.whiteSpaceCodePoints) fuel
                      (flat_map JsString.utf8 codePoints) = [].
Proof.
  induction 1 as [|cp cps Hcp _ IH]; intros fuel Hfuel.
  - destruct fuel; reflexivity.
  - destruct (strip_whiteSpace cp (flat_map JsString.utf8 cps) Hcp) as [Hstrip Hlen].
    cbn [flat_map] in *. rewrite length_app in Hfuel.
    destruct fuel as [|fuel]; [lia|].
    cbn [JsString.stripAll]. rewrite Hstrip. apply IH. lia.
Qed.

(** Text made of white space only is trimmed to the empty string. *)
Lemma trim_blank (codePoints : list N) :
  Forall (fun cp => In cp JsString.whiteSpaceCodePoints) codePoints ->
  JsString.trim (JsString.fromCodePoints codePoints) = "".
Proof.
  intros H. unfold JsString.trim, JsString.fromCodePoints.
  rewrite list_ascii_of_string_of_list_ascii.
  unfold JsString.trimStart. rewrite (stripAll_blank _ H) by apply Nat.le_refl.
  reflexivity.
Qed.

(** [trim] on text with white space of every kind at both ends: what is
    left is the text between, with its inner white space (a space and a
    no-break space) and with its last letter, an a with grave accent,
    whose encoding ends with the byte that also ends the encoding of the
    no-break space. *)
Example trim_keeps_the_text_between :
  JsString.trim
    (JsString.fromCodePoints
       (JsString.whiteSpaceCodePoints
        ++ [12354; 104; 32; 233; 160; 105; 224]
        ++ JsString.whiteSpaceCodePoints)%N)
  = JsString.fromCodePoints [12354; 104; 32; 233; 160; 105; 224]%N.
Proof. vm_compute. reflexivity. Qed.

(** X18: a submit changes nothing at all when the input is made of
    white space only (any of the code points [trim] strips, or none at
    all), when a turn is loading, or when a client is missing; and a
    submit that changes nothing is one of these: its trimmed input is
    empty, a turn is loading, or a client is missing. *)
Theorem handleSubmit_ignored (now1 now2 : Z) (clientsReady : bool)
    (c : Component) (codePoints : list N) :
  ((input c = JsString.fromCodePoints codePoints
    /\ Forall (fun cp => In cp JsString.whiteSpaceCodePoints) codePoints)
   \/ isLoading c = true
   \/ clientsReady = false ->
   handleSubmit now1 now2 clientsReady c = c)
  /\ (handleSubmit now1 now2 clientsReady c = c ->
      JsString.trim (input c) = ""
      \/ isLoading c = true
      \/ clientsReady = false).
Proof.
  split.
  - intros [[Hinput Hblank]|[Hloading|Hready]]; unfold handleSubmit.
    + rewrite Hinput, (trim_blank _ Hblank). reflexivity.
    + rewrite Hloading, orb_true_r. reflexivity.
    + rewrite Hready, orb_true_r. reflexivity.
  - unfold handleSubmit. intros Hsame.
    destruct (JsString.trim (input c)) as [|a rest] eqn:Htrim; [left; reflexivity|].
    destruct (isLoading c) eqn:Hloading; [right; left; reflexivity|].
    destruct clientsReady; [exfalso | right; right; reflexivity].
    cbn [JsString.truthy negb orb] in Hsame.
    apply (f_equal isLoading) in Hsame. cbn [isLoading] in Hsame. congruence.
Qed.


Variable botId : Z.



Local Abbreviation others := (fun msg : Message => negb (id msg =? botId)).

Lemma filter_updateMessage_others (f : Message -> Message) (l : list Message) :
  (forall msg, id (f msg) = id msg) ->
  filter others (updateMessage botId f l) = filter others l.
Proof.
  intros Hid. induction l as [|x l IH]; [reflexivity|].
  simpl. destruct (id x =? botId) eqn:Hx.
  - rewrite Hid, Hx. simpl. exact IH.
  - rewrite Hx. simpl. rewrite IH. reflexivity.
Qed.

Lemma filter_others_twice (l : list Message) :
  filter others (filter others l) = filter others l.
Proof.
  induction l as [|x l IH]; [reflexivity|].
  simpl. destruct (id x =? botId) eqn:Hx; simpl; [exact IH|].
  rewrite Hx. simpl. rewrite IH. reflexivity.
Qed.

Local Abbreviation ownTask := (ChatActions.ownTask botId).

Lemma react_keeps_others (c : Component) (w : Wake) :
  ownTask c ->
  ownTask (react c w)
  /\ filter others (messages (react c w)) = filter others (messages c).
Proof.
  unfold ChatActions.ownTask.
  intros [Htask|[Htask|Htask]]; destruct w as [chunk| | e |nodes|e|];
    try (destruct (react_cancel c) as (Hm & _ & _ & Ht & _);
         rewrite Ht, Hm; split; [auto | reflexivity]);
    unfold react; rewrite Htask;
    try (split; [auto | reflexivity]);
    try (destruct (knowledgeGraphPromise c));
    unfold deliver, handleError, setTask, setPromise;
    try (destruct (isCancellation e));
    cbn [messages task];
    (split; [auto|]);
    rewrite ?filter_updateMessage_others, ?filter_others_twice by reflexivity;
    reflexivity.
Qed.

Lemma run_keeps_others (ws : list Wake) :
  forall c : Component,
    ownTask c ->
    filter others (messages (run ws c)) = filter others (messages c).
Proof.
  induction ws as [|w ws IH]; intros c Hown; [reflexivity|].
  destruct (react_keeps_others c w Hown) as [Hown' Hsame].
  change (run (w :: ws) c) with (run ws (react c w)).
  rewrite IH by exact Hown'. exact Hsame.
Qed.

Lemma handleError_outcome (c : Component) (msg : Message) (e : Thrown)
    (p : PromiseState) :
  botMessage botId c = Some msg ->
  botMessage botId (handleError botId e p c)
  = if isCancellation e then None
    else Some (mkMessage (id msg) "Failed to generate response" (isBot msg)
                         (timestamp msg) failed (knowledgeGraph msg)).
Proof.
  intros Hmsg. pose proof (botMessage_id botId c msg Hmsg) as Hid.
  unfold botMessage, handleError in *. cbn [messages].
  destruct (isCancellation e).
  - apply find_filtered_out.
  - rewrite find_updateMessage by reflexivity.
    rewrite Hmsg. simpl. rewrite Hid. reflexivity.
Qed.

End SubmitFacts.

Lemma handleSubmit_ignored_witness :
  Chat.handleSubmit 1000 1000 true
    (Chat.mkComponent [] (JsString.fromCodePoints [32; 160; 9; 8232; 65279]%N)
                      false None Chat.Idle Chat.Pending)
  = Chat.mkComponent [] (JsString.fromCodePoints [32; 160; 9; 8232; 65279]%N)
                     false None Chat.Idle Chat.Pending.
Proof.
  apply (handleSubmit_ignored 1000 1000 true
           (Chat.mkComponent [] (JsString.fromCodePoints
                                   [32; 160; 9; 8232; 65279]%N)
                             false None Chat.Idle Chat.Pending)
           [32; 160; 9; 8232; 65279]%N).
  left. split; [reflexivity|].
  repeat (apply Forall_cons;
          [unfold JsString.whiteSpaceCodePoints;
           repeat (first [left; reflexivity | right]) |]).
  apply Forall_nil.
Defined.

(** ** A turn from submit to its end *)

Section TurnFacts.

Import Chat ChatActions.

Variable c : Component.
Variables now1 now2 : Z.

Hypothesis Hinput : JsString.truthy (JsString.trim (input c)) = true.
Hypothesis Hloading : isLoading c = false.

Local Abbreviation botId := (now2 + 1).
Local Abbreviation started := (handleSubmit now1 now2 true c).

Lemma started_loading :
  task started = Streaming botId /\ isLoading started = true.
Proof. unfold handleSubmit. rewrite Hinput, Hloading. split; reflexivity. Qed.


(** X20: handling a turn never touches another message: whatever wakes
    the component, the messages other than the assistant turn stay as the
    submit left them. *)
Theorem turn_keeps_other_messages (ws : list Wake) :
  filter (fun msg => negb (id msg =? botId)) (messages (run ws started))
  = filter (fun msg => negb (id msg =? botId)) (messages started).
Proof.
  apply run_keeps_others. right; left. apply started_loading.
Qed.




End TurnFacts.


Lemma turn_keeps_other_messages_witness :
  filter (fun msg => negb (Chat.id msg =? 1001))
    (Chat.messages
       (Chat.run [Chat.Chunk "hello "; Chat.StreamThrow (newError "offline")]
          (Chat.handleSubmit 1000 1000 true Chat.fresh)))
  = filter (fun msg => negb (Chat.id msg =? 1001))
      (Chat.messages (Chat.handleSubmit 1000 1000 true Chat.fresh)).
Proof.
  exact (turn_keeps_other_messages Chat.fresh 1000 1000 eq_refl eq_refl
           [Chat.Chunk "hello "; Chat.StreamThrow (newError "offline")]).
Defined.


Section TurnOutcomes.

Import Chat ChatActions.

Variable c : Component.
Variables now1 now2 : Z.

Hypothesis Hinput : JsString.truthy (JsString.trim (input c)) = true.
Hypothesis Hloading : isLoading c = false.
Hypothesis Hnow : now1 <= now2.
Hypothesis Hfresh : Forall (fun msg => id msg <> now2 + 1) (messages c).

Local Abbreviation botId := (now2 + 1).
Local Abbreviation started := (handleSubmit now1 now2 true c).

(** The stream returns after its fragments, then the retrieval
    settles. *)
Lemma run_stream_then_settle (chunks : list string) :
  task (run (map Chunk chunks ++ [StreamReturn]) started)
  = AwaitingKnowledgeGraph botId
  /\ knowledgeGraphPromise (run (map Chunk chunks ++ [StreamReturn]) started)
     = Pending
  /\ botMessage botId (run (map Chunk chunks ++ [StreamReturn]) started)
     = Some (mkMessage botId (JsString.concatAll chunks) true now2 typing None).
Proof.
  destruct (handleSubmit_started c now1 now2 Hinput Hloading Hnow Hfresh)
    as (Htask & Hpromise & Hbot).
  destruct (run_chunks botId chunks started _ Htask Hbot) as (Ht1 & Hp1 & Hm1).
  rewrite run_app.
  change (run [StreamReturn] (run (map Chunk chunks) started))
    with (react (run (map Chunk chunks) started) StreamReturn).
  unfold react. rewrite Ht1, Hp1, Hpromise.
  split; [reflexivity | split].
  - unfold setTask. cbn [knowledgeGraphPromise]. congruence.
  - exact Hm1.
Qed.

(** X22: when the retrieval is rejected, the answer that was streamed in
    full is thrown away: the assistant turn is marked failed with the text
    'Failed to generate response' (or removed, should the rejection carry
    the message 'Request cancelled'), whether the rejection comes before
    the stream returns or after. *)
Theorem retrieval_failure_discards_answer (chunks1 chunks2 : list string)
    (e : Thrown) :
  let outcome :=
    if isCancellation e then None
    else Some (mkMessage botId "Failed to generate response" true now2 failed None) in
  botMessage botId
    (run (map Chunk (chunks1 ++ chunks2) ++ [StreamReturn; RetrievalReject e]) started)
  = outcome
  /\ botMessage botId
       (run (map Chunk chunks1 ++ RetrievalReject e
               :: map Chunk chunks2 ++ [StreamReturn]) started)
     = outcome.
Proof.
  cbv zeta. split.
  - destruct (run_stream_then_settle (chunks1 ++ chunks2)) as (Ht & Hp & Hm).
    change [StreamReturn; RetrievalReject e]
      with ([StreamReturn] ++ [RetrievalReject e]).
    rewrite app_assoc, run_app.
    set (x := run (map Chunk (chunks1 ++ chunks2) ++ [StreamReturn]) started) in *.
    change (run [RetrievalReject e] x) with (react x (RetrievalReject e)).
    unfold react. rewrite Ht, Hp.
    rewrite (handleError_outcome botId x _ e _ Hm). reflexivity.
  - destruct (handleSubmit_started c now1 now2 Hinput Hloading Hnow Hfresh)
      as (Htask & Hpromise & Hbot).
    rewrite run_app.
    destruct (run_chunks botId chunks1 started _ Htask Hbot) as (Ht1 & Hp1 & Hm1).
    set (x1 := run (map Chunk chunks1) started) in *.
    change (run (RetrievalReject e :: map Chunk chunks2 ++ [StreamReturn]) x1)
      with (run (map Chunk chunks2 ++ [StreamReturn]) (react x1 (RetrievalReject e))).
    assert (Hsettle : react x1 (RetrievalReject e) = setPromise (Rejected e) x1).
    { unfold react. rewrite Ht1, Hp1, Hpromise. reflexivity. }
    rewrite Hsettle, run_app.
    destruct (run_chunks botId chunks2 (setPromise (Rejected e) x1) _ Ht1 Hm1)
      as (Ht2 & Hp2 & Hm2).
    set (x2 := run (map Chunk chunks2) (setPromise (Rejected e) x1)) in *.
    change (run [StreamReturn] x2) with (react x2 StreamReturn).
    unfold react. rewrite Ht2, Hp2. cbn [setPromise knowledgeGraphPromise].
    rewrite (handleError_outcome botId x2 _ e _ Hm2). reflexivity.
Qed.

(** X23: from the provider to the screen.  When the first attempt of
    [streamMessage] goes through on a log without earlier fragments and
    the retrieval resolves, the assistant turn is delivered with the
    retrieved nodes and with, as its content, the text of the most recent
    message the provider returned, followed by one space. *)
Theorem turn_delivers_provider_text (provider : Provider) (content : string)
    (signal : option AbortSignal) (threadId : string) (s s1 : State)
    (nodes : list NodeDetails) :
  thread s = Some threadId ->
  AssistantClient.fragments (log s) = [] ->
  AssistantClient.tryBody provider content signal threadId s = (Normal tt, s1) ->
  exists (lastMessage : ThreadMessage) (rest : list ThreadMessage)
         (messageContent : MessageContent) (more : list MessageContent),
    messagesList provider (pred (calls s1)) = inr (lastMessage :: rest)
    /\ msg_content lastMessage = messageContent :: more
    /\ botMessage botId
         (run (streamWakes (AssistantClient.streamMessage provider content signal s)
               ++ [RetrievalResolve nodes]) started)
       = Some (mkMessage botId (text_value messageContent ++ " ") true now2
                         delivered (Some nodes)).
Proof.
  intros Hthread Hlog Htry.
  assert (Hcall : AssistantClient.streamMessage provider content signal s
                  = (Normal tt, s1)).
  { unfold AssistantClient.streamMessage.
    rewrite (streamMessageRec_unfold provider _ _ _ threadId) by exact Hthread.
    rewrite Htry. reflexivity. }
  destruct (tryBody_outcome provider content signal threadId s s1 _ Htry)
    as [[Hfail _]|[_ (lastMessage & rest & mc & more & H1 & _ & H3 & _ & H5)]];
    [exfalso; apply (Hfail tt); reflexivity|].
  exists lastMessage, rest, mc, more. repeat split; try assumption.
  rewrite Hcall. unfold streamWakes. cbn [fst snd].
  rewrite H5, Hlog. cbn [app].
  destruct (run_stream_then_settle (Schedule.chunkFragments (text_value mc)))
    as (Ht & Hp & Hm).
  rewrite run_app.
  set (x := run (map Chunk (Schedule.chunkFragments (text_value mc))
                 ++ [StreamReturn]) started) in *.
  change (run [RetrievalResolve nodes] x) with (react x (RetrievalResolve nodes)).
  unfold react. rewrite Ht, Hp.
  rewrite (deliver_outcome botId x _ nodes _ Hm).
  cbn [Chat.id Chat.content Chat.isBot Chat.timestamp].
  rewrite concatAll_chunkFragments. reflexivity.
Qed.

End TurnOutcomes.

Lemma retrieval_failure_discards_answer_witness :
  Chat.botMessage 1001
    (Chat.run (map Chat.Chunk (["hello "] ++ ["world "])
               ++ [Chat.StreamReturn; Chat.RetrievalReject (newError "offline")])
       (Chat.handleSubmit 1000 1000 true Chat.fresh))
  = Some (Chat.mkMessage 1001 "Failed to generate response" true 1000
                         Chat.failed None).
Proof.
  assert (Hnow : 1000 <= 1000) by discriminate.
  exact (proj1 (retrieval_failure_discards_answer Chat.fresh 1000 1000
                  eq_refl eq_refl Hnow (Forall_nil _)
                  ["hello "] ["world "] (newError "offline"))).
Defined.

Lemma turn_delivers_provider_text_witness :
  exists (lastMessage : ThreadMessage) (rest : list ThreadMessage)
         (messageContent : MessageContent) (more : list MessageContent),
    messagesList (Schedule.answering "good morning")
      (pred (calls (snd (AssistantClient.tryBody (Schedule.answering "good morning")
                           "hi" None "thread_1" Demo.ready))))
    = inr (lastMessage :: rest)
    /\ msg_content lastMessage = messageContent :: more
    /\ Chat.botMessage 1001
         (Chat.run
            (Chat.streamWakes
               (AssistantClient.streamMessage (Schedule.answering "good morning")
                  "hi" None Demo.ready)
             ++ [Chat.RetrievalResolve []])
            (Chat.handleSubmit 1000 1000 true Chat.fresh))
       = Some (Chat.mkMessage 1001 (text_value messageContent ++ " ") true 1000
                              Chat.delivered (Some [])).
Proof.
  assert (Hnow : 1000 <= 1000) by discriminate.
  apply (turn_delivers_provider_text Chat.fresh 1000 1000 eq_refl eq_refl Hnow
           (Forall_nil _) (Schedule.answering "good morning") "hi" None
           "thread_1" Demo.ready); reflexivity.
Defined.

(** ** Regenerating a response *)

Section RegenerateFacts.

Import Chat ChatActions.

Variable messageId : Z.

Lemma findIndex_none (l : list Message) :
  Forall (fun msg => id msg <> messageId) l -> findIndex messageId l = None.
Proof.
  induction 1 as [|x l Hx _ IH]; [reflexivity|].
  simpl. apply Z.eqb_neq in Hx. rewrite Hx, IH. reflexivity.
Qed.

Lemma findIndex_first (l after : list Message) (target : Message) :
  Forall (fun msg => id msg <> messageId) l ->
  id target = messageId ->
  findIndex messageId (l ++ target :: after) = Some (List.length l).
Proof.
  intros Hl Htarget. induction Hl as [|x l Hx _ IH]; simpl.
  - rewrite Htarget, Z.eqb_refl. reflexivity.
  - apply Z.eqb_neq in Hx. rewrite Hx, IH. reflexivity.
Qed.

(** Where [regenerateResponse] gets when the message is found right
    after a user's message. *)
Lemma regenerateResponse_found (now1 now2 : Z) (clientsReady : bool)
    (c : Component) (pre after : list Message) (userMessage target : Message) :
  messages c = pre ++ userMessage :: target :: after ->
  Forall (fun msg => id msg <> messageId) (pre ++ [userMessage]) ->
  id target = messageId ->
  isBot userMessage = false ->
  regenerateResponse messageId now1 now2 clientsReady c
  = handleSubmitFrom c now1 now2 clientsReady
      (mkComponent (pre ++ [userMessage]) (content userMessage) (isLoading c)
                   (error c) (task c) (knowledgeGraphPromise c)).
Proof.
  intros Hmessages Hpre Htarget Huser.
  assert (Hshape : messages c = (pre ++ [userMessage]) ++ target :: after).
  { rewrite Hmessages, <- app_assoc. reflexivity. }
  unfold regenerateResponse. rewrite Hshape.
  rewrite (findIndex_first _ after target Hpre Htarget).
  rewrite length_app. simpl List.length.
  replace (List.length pre + 1)%nat with (S (List.length pre)) by lia.
  unfold before.
  rewrite <- app_assoc. simpl app.
  rewrite nth_error_app2 by lia. rewrite Nat.sub_diag. simpl nth_error.
  cbv beta iota zeta.
  rewrite Huser. cbn [messages isLoading error task knowledgeGraphPromise].
  f_equal. f_equal.
  change (pre ++ userMessage :: target :: after)
    with (pre ++ [userMessage] ++ target :: after).
  rewrite app_assoc.
  replace (S (List.length pre)) with (List.length (pre ++ [userMessage]) + 0)%nat
    by (rewrite length_app; simpl; lia).
  rewrite firstn_app_2. simpl. apply app_nil_r.
Qed.

(** X24: "Try again" on a failed message that is on the page, after a
    message of the user, with the input box empty as the submit left it
    or holding white space only (or while a turn is loading, or without
    clients): the failed message and everything after it are dropped and
    the user's text is put back in the input box, but nothing is
    submitted, because the [handleSubmit] that is called still sees the
    input of the render in which the link was drawn. *)
Theorem regenerateResponse_only_refills (now1 now2 : Z) (clientsReady : bool)
    (c : Component) (pre after : list Message) (userMessage target : Message)
    (codePoints : list N) :
  errorShown c = false ->
  messages c = pre ++ userMessage :: target :: after ->
  Forall (fun msg => id msg <> messageId) (pre ++ [userMessage]) ->
  id target = messageId ->
  status target = failed ->
  isBot userMessage = false ->
  (input c = JsString.fromCodePoints codePoints
   /\ Forall (fun cp => In cp JsString.whiteSpaceCodePoints) codePoints)
  \/ isLoading c = true
  \/ clientsReady = false ->
  regenerateResponse messageId now1 now2 clientsReady c
  = mkComponent (pre ++ [userMessage]) (content userMessage) (isLoading c)
                (error c) (task c) (knowledgeGraphPromise c).
Proof.
  intros _ Hmessages Hpre Htarget _ Huser Hguard.
  rewrite (regenerateResponse_found now1 now2 clientsReady c pre after
             userMessage target Hmessages Hpre Htarget Huser).
  unfold handleSubmitFrom.
  destruct Hguard as [[Hinput Hblank]|[Hloading|Hready]].
  - rewrite Hinput, (trim_blank _ Hblank). reflexivity.
  - rewrite Hloading, orb_true_r. reflexivity.
  - rewrite Hready, orb_true_r. reflexivity.
Qed.

(** X25: "Try again" on a failed message that is on the page, with a
    text typed in the input box: the failed message and everything after
    it are dropped, and what is submitted as the new turn is the typed
    text, not the text of the user's message that failed. *)
Theorem regenerateResponse_submits_typed_text (now1 now2 : Z)
    (c : Component) (pre after : list Message) (userMessage target : Message) :
  errorShown c = false ->
  messages c = pre ++ userMessage :: target :: after ->
  Forall (fun msg => id msg <> messageId) (pre ++ [userMessage]) ->
  id target = messageId ->
  status target = failed ->
  isBot userMessage = false ->
  JsString.truthy (JsString.trim (input c)) = true ->
  isLoading c = false ->
  regenerateResponse messageId now1 now2 true c
  = handleSubmit now1 now2 true
      (mkComponent (pre ++ [userMessage]) (input c) (isLoading c)
                   (error c) (task c) (knowledgeGraphPromise c))
  /\ In (mkMessage now1 (JsString.trim (input c)) false now1 delivered None)
        (messages (regenerateResponse messageId now1 now2 true c)).
Proof.
  intros _ Hmessages Hpre Htarget _ Huser Hinput Hloading.
  rewrite (regenerateResponse_found now1 now2 true c pre after
             userMessage target Hmessages Hpre Htarget Huser).
  assert (Hsame : handleSubmitFrom c now1 now2 true
                    (mkComponent (pre ++ [userMessage]) (content userMessage)
                                 (isLoading c) (error c) (task c)
                                 (knowledgeGraphPromise c))
                  = handleSubmit now1 now2 true
                      (mkComponent (pre ++ [userMessage]) (input c) (isLoading c)
                                   (error c) (task c) (knowledgeGraphPromise c))).
  { unfold handleSubmitFrom, handleSubmit.
    cbn [input isLoading messages]. rewrite Hinput, Hloading. reflexivity. }
  split; [exact Hsame|].
  rewrite Hsame. unfold handleSubmit.
  cbn [input isLoading messages]. rewrite Hinput, Hloading.
  cbn [negb orb messages id].
  unfold updateMessage. apply in_map_iff.
  exists (mkMessage now1 (JsString.trim (input c)) false now1 sending None).
  cbn [id]. rewrite Z.eqb_refl. split; [reflexivity|].
  apply in_or_app. right. left. reflexivity.
Qed.

(** X26: "Try again" changes nothing when no message has the id, when
    the message is the first of the list, or when the message before it
    is an assistant message. *)
Theorem regenerateResponse_ignored (now1 now2 : Z) (clientsReady : bool)
    (c : Component) :
  Forall (fun msg => id msg <> messageId) (messages c)
  \/ (exists (target : Message) (after : list Message),
        messages c = target :: after /\ id target = messageId)
  \/ (exists (pre after : list Message) (previous target : Message),
        messages c = pre ++ previous :: target :: after
        /\ Forall (fun msg => id msg <> messageId) (pre ++ [previous])
        /\ id target = messageId
        /\ isBot previous = true) ->
  regenerateResponse messageId now1 now2 clientsReady c = c.
Proof.
  intros [Hnone|[(target & after & Hm & Ht)|(pre & after & previous & target
                                             & Hm & Hpre & Ht & Hbot)]];
    unfold regenerateResponse.
  - rewrite (findIndex_none _ Hnone). reflexivity.
  - rewrite Hm. simpl. rewrite Ht, Z.eqb_refl. reflexivity.
  - assert (Hshape : messages c = (pre ++ [previous]) ++ target :: after).
    { rewrite Hm, <- app_assoc. reflexivity. }
    rewrite Hshape, (findIndex_first _ after target Hpre Ht).
    rewrite length_app. simpl List.length.
    replace (List.length pre + 1)%nat with (S (List.length pre)) by lia.
    unfold before. rewrite <- app_assoc. simpl app.
    rewrite nth_error_app2 by lia. rewrite Nat.sub_diag. simpl nth_error.
    cbv beta iota. rewrite Hbot. reflexivity.
Qed.

End RegenerateFacts.

Lemma regenerateResponse_only_refills_witness :
  ChatActions.regenerateResponse 1001 2000 2000 true FailedTurn.afterFailure
  = Chat.mkComponent [FailedTurn.asked] "Which schools report tuition?" false
                     (Some "") Chat.Idle Chat.Pending.
Proof.
  apply (regenerateResponse_only_refills 1001 2000 2000 true
           FailedTurn.afterFailure [] [] FailedTurn.asked
           FailedTurn.failedReply []).
  - reflexivity.
  - vm_compute. reflexivity.
  - repeat constructor. simpl. lia.
  - reflexivity.
  - reflexivity.
  - reflexivity.
  - left. split; [vm_compute; reflexivity | constructor].
Defined.

Lemma regenerateResponse_submits_typed_text_witness :
  In (Chat.mkMessage 2000 "Another question" false 2000 Chat.delivered None)
     (Chat.messages
        (ChatActions.regenerateResponse 1001 2000 2000 true FailedTurn.typedSince)).
Proof.
  apply (regenerateResponse_submits_typed_text 1001 2000 2000
           FailedTurn.typedSince [] [] FailedTurn.asked
           FailedTurn.failedReply).
  - reflexivity.
  - vm_compute. reflexivity.
  - repeat constructor. simpl. lia.
  - reflexivity.
  - reflexivity.
  - reflexivity.
  - vm_compute. reflexivity.
  - reflexivity.
Defined.

Lemma regenerateResponse_ignored_witness :
  ChatActions.regenerateResponse 1001 2000 2000 true FailedTurn.afterGreeting
  = FailedTurn.afterGreeting.
Proof.
  apply (regenerateResponse_ignored 1001 2000 2000 true
           FailedTurn.afterGreeting).
  right. right.
  exists [], [], FailedTurn.greeting, FailedTurn.failedReply.
  repeat split.
  repeat constructor. simpl. lia.
Defined.

(** ** The page with several calls under way *)

Section PageFacts.

Import Chat ChatActions Page.

(** A wake-up of a call that has ended leaves [isLoading] alone; a
    wake-up of a call under way either ends it, and lowers [isLoading], or
    leaves it under way and [isLoading] alone. *)
Lemma react_progress (c : Component) (w : Wake) :
  w <> CancelRequest ->
  match task c with
  | Idle => task (react c w) = Idle /\ isLoading (react c w) = isLoading c
  | _ =>
      (task (react c w) = Idle /\ isLoading (react c w) = false)
      \/ (task (react c w) <> Idle /\ isLoading (react c w) = isLoading c)
  end.
Proof.
  intros Hw. unfold react.
  destruct w as [chunk| | e |nodes|e|]; [ | | | | |congruence];
    destruct (task c) as [|botId|botId] eqn:Ht;
    try destruct (knowledgeGraphPromise c);
    unfold deliver, handleError, setTask, setPromise;
    cbn [task isLoading]; rewrite ?Ht;
    first [ split; reflexivity
          | left; split; reflexivity
          | right; split; [discriminate | reflexivity] ].
Qed.

Local Abbreviation count hs := (List.length (filter underWay hs)).

Lemma count_replaceNth (h' : Handler) :
  forall (hs : list Handler) (n : nat) (h : Handler),
    nth_error hs n = Some h ->
    (count (replaceNth n h' hs) + (if underWay h then 1 else 0)
     = count hs + (if underWay h' then 1 else 0))%nat.
Proof.
  induction hs as [|x hs IH]; intros n h Hn.
  - destruct n; discriminate.
  - destruct n as [|n]; simpl in *.
    + injection Hn as ->. destruct (underWay h), (underWay h'); simpl; lia.
    + specialize (IH n h Hn). destruct (underWay x); simpl; lia.
Qed.

(** At most one call is under way, and none when [isLoading] is down. *)
Local Abbreviation singleFlight p :=
  (le (count (handlers p)) 1
   /\ (pageIsLoading p = false -> count (handlers p) = O)).

Lemma step_single_flight (clientsReady : bool) (p : Page) (a : Action) :
  cancels a = false -> singleFlight p -> singleFlight (step clientsReady p a).
Proof.
  intros Ha [Hone Hnone].
  destruct a as [text|now1 now2| |n w]; [| | discriminate |]; cbn [step].
  - destruct (errorShown (view p noCall) || pageIsLoading p)%bool;
      cbn [withHandlers setInput view handlers pageIsLoading isLoading];
      split; assumption.
  - destruct (errorShown (view p noCall)
              || negb (JsString.truthy (JsString.trim (pageInput p)))
              || pageIsLoading p || negb clientsReady)%bool eqn:Hguard;
      [split; assumption|].
    repeat (apply orb_false_iff in Hguard; destruct Hguard as [Hguard ?]).
    match goal with H : negb clientsReady = false |- _ =>
      apply negb_false_iff in H; subst clientsReady end.
    match goal with H : negb (JsString.truthy _) = false |- _ =>
      apply negb_false_iff in H; rename H into Hinput end.
    match goal with H : pageIsLoading p = false |- _ => rename H into Hload end.
    specialize (Hnone Hload).
    unfold handleSubmit. cbn [view input isLoading].
    rewrite Hinput, Hload.
    cbn [negb orb withHandlers task handlers pageIsLoading isLoading
         knowledgeGraphPromise].
    rewrite filter_app, length_app, Hnone. simpl. split; [lia | discriminate].
  - destruct (nth_error (handlers p) n) as [h|] eqn:Hn; [|split; assumption].
    assert (Hw : w <> CancelRequest) by (intros ->; discriminate).
    pose proof (react_progress (view p h) w Hw) as Hprogress.
    pose proof (count_replaceNth
                  (mkHandler (task (react (view p h) w))
                             (knowledgeGraphPromise (react (view p h) w)))
                  (handlers p) n h Hn) as Hcount.
    cbv zeta. cbn [withHandlers handlers pageIsLoading].
    set (t' := task (react (view p h) w)) in *.
    set (q' := knowledgeGraphPromise (react (view p h) w)) in *.
    assert (Hu : underWay h
                 = match suspendedAt h with Idle => false | _ => true end)
      by reflexivity.
    assert (Hu' : underWay (mkHandler t' q')
                  = match t' with Idle => false | _ => true end)
      by reflexivity.
    rewrite Hu, Hu' in Hcount. clear Hu Hu'.
    cbn [view task isLoading] in Hprogress.
    set (l' := isLoading (react (view p h) w)) in *.
    clearbody t' q' l'.
    destruct (suspendedAt h) eqn:Hh.
    + destruct Hprogress as [-> ->].
      split; [lia | intros H; specialize (Hnone H); lia].
    + destruct Hprogress as [[-> ->]|[Ht ->]].
      * split; [lia | intros _; lia].
      * destruct t'; [congruence| |];
          (split; [lia | intros H; specialize (Hnone H); lia]).
    + destruct Hprogress as [[-> ->]|[Ht ->]].
      * split; [lia | intros _; lia].
      * destruct t'; [congruence| |];
          (split; [lia | intros H; specialize (Hnone H); lia]).
Qed.

(** X27: as long as the cancel button is not clicked, whatever the user
    types and submits and however the calls are woken up, at most one call
    of [handleSubmit] is under way on the page, and none while
    [isLoading] is down. *)
Theorem page_single_flight (clientsReady : bool) (actions : list Action) :
  forallb (fun a => negb (cancels a)) actions = true ->
  let p := steps clientsReady actions initial in
  (List.length (filter underWay (handlers p)) <= 1)%nat
  /\ (pageIsLoading p = false ->
      List.length (filter underWay (handlers p)) = 0%nat).
Proof.
  intros Hactions. cbv zeta.
  assert (Hgen : forall p, singleFlight p ->
                           singleFlight (steps clientsReady actions p)).
  { induction actions as [|a actions IH]; intros p Hp; [exact Hp|].
    cbn [forallb] in Hactions. apply andb_true_iff in Hactions.
    destruct Hactions as [Ha Hrest]. apply negb_true_iff in Ha.
    change (steps clientsReady (a :: actions) p)
      with (steps clientsReady actions (step clientsReady p a)).
    apply IH; [exact Hrest|]. apply step_single_flight; assumption. }
  apply Hgen. split; [simpl; lia | reflexivity].
Qed.

(** The steps of the user, on a page whose error panel is not shown. *)
Lemma step_SetInput (clientsReady : bool) (p : Page) (text : string) :
  pageError p = None -> pageIsLoading p = false ->
  step clientsReady p (SetInput text)
  = mkPage (pageMessages p) text false None (handlers p).
Proof.
  intros Herror Hload. unfold step, errorShown, view, withHandlers, setInput.
  cbn [error isLoading Chat.messages input]. rewrite Herror, Hload. reflexivity.
Qed.

Lemma step_Submit (p : Page) (now1 now2 : Z) :
  pageError p = None -> pageIsLoading p = false ->
  JsString.truthy (JsString.trim (pageInput p)) = true ->
  exists msgs : list Message,
    step true p (Submit now1 now2)
    = mkPage msgs "" true None
             (handlers p ++ [mkHandler (Streaming (now2 + 1)) Pending]).
Proof.
  intros Herror Hload Hinput.
  unfold step, errorShown, view, withHandlers, handleSubmit.
  cbn [error isLoading Chat.messages input]. rewrite Herror, Hload, Hinput.
  cbn [negb orb error isLoading Chat.messages input task knowledgeGraphPromise id].
  eexists. reflexivity.
Qed.

Lemma step_Cancel (clientsReady : bool) (p : Page) :
  pageError p = None ->
  step clientsReady p Cancel
  = mkPage (pageMessages p) (pageInput p) false None (handlers p).
Proof.
  intros Herror. unfold step, react, errorShown, view, withHandlers, cancelRequest.
  cbn [error isLoading Chat.messages input]. rewrite Herror.
  destruct p as [msgs text loading err hs]. cbn in *. subst err.
  destruct loading; reflexivity.
Qed.

(** X28: a click on the cancel button lets a second call start while the
    first is suspended, and the end of the first then acts on the page of
    the second.  After a submit, a click on cancel, a text typed and a
    second submit, two calls are under way; when the stream of the first
    then throws, [isLoading] is lowered and the error is set while the
    second call is still in its loop: the page shows the error panel (if
    the message is not empty) with a turn under way behind it. *)
Theorem cancelled_call_ends_under_the_next (text1 text2 : string)
    (now1 now2 now3 now4 : Z) (e : Thrown) :
  JsString.truthy (JsString.trim text1) = true ->
  JsString.truthy (JsString.trim text2) = true ->
  let both :=
    steps true [SetInput text1; Submit now1 now2; Cancel;
                SetInput text2; Submit now3 now4] initial in
  let after := step true both (Resume 0 (StreamThrow e)) in
  handlers both
  = [mkHandler (Streaming (now2 + 1)) Pending;
     mkHandler (Streaming (now4 + 1)) Pending]
  /\ pageIsLoading both = true
  /\ handlers after
     = [mkHandler Idle Pending; mkHandler (Streaming (now4 + 1)) Pending]
  /\ pageIsLoading after = false
  /\ pageError after = Some (errorMessageOf e).
Proof.
  intros Htext1 Htext2.
  assert (Hboth :
            exists msgs,
              steps true [SetInput text1; Submit now1 now2; Cancel;
                          SetInput text2; Submit now3 now4] initial
              = mkPage msgs "" true None
                       [mkHandler (Streaming (now2 + 1)) Pending;
                        mkHandler (Streaming (now4 + 1)) Pending]).
  { unfold steps. cbn [fold_left].
    rewrite (step_SetInput true initial text1 eq_refl eq_refl).
    destruct (step_Submit (mkPage (pageMessages initial) text1 false None
                                  (handlers initial)) now1 now2
                          eq_refl eq_refl Htext1) as [msgs1 ->].
    rewrite step_Cancel by reflexivity.
    rewrite step_SetInput by reflexivity.
    cbn [pageMessages pageInput handlers].
    destruct (step_Submit (mkPage msgs1 text2 false None
                             (handlers initial
                              ++ [mkHandler (Streaming (now2 + 1)) Pending]))
                          now3 now4 eq_refl eq_refl Htext2) as [msgs2 ->].
    exists msgs2. reflexivity. }
  destruct Hboth as [msgs Hboth]. cbv zeta. rewrite Hboth.
  cbn [handlers pageIsLoading]. repeat split.
Qed.

End PageFacts.

Lemma page_single_flight_witness :
  (List.length
     (filter Page.underWay
        (Page.handlers
           (Page.steps true
              [Page.SetInput "hi"; Page.Submit 1000 1000;
               Page.Resume 0 (Chat.Chunk "hello "); Page.Submit 2000 2000]
              Page.initial))) <= 1)%nat.
Proof.
  apply (page_single_flight true
           [Page.SetInput "hi"; Page.Submit 1000 1000;
            Page.Resume 0 (Chat.Chunk "hello "); Page.Submit 2000 2000]).
  reflexivity.
Defined.

Lemma cancelled_call_ends_under_the_next_witness :
  Page.pageError
    (Page.steps true
       [Page.SetInput "hi"; Page.Submit 1000 1000; Page.Cancel;
        Page.SetInput "and then?"; Page.Submit 2000 2000;
        Page.Resume 0 (Chat.StreamThrow (newError "Request cancelled"))]
       Page.initial)
  = Some "Request cancelled".
Proof.
  apply (cancelled_call_ends_under_the_next "hi" "and then?" 1000 1000 2000 2000
           (newError "Request cancelled")); vm_compute; reflexivity.
Defined.
